(** * trade-algo-go: order validation, risk checks and position accounting

    A shallow embedding of the trading engine ([internal/engine]), of the
    shared risk and validation logic of [internal/strategies/base.go], of
    the moving-average crossover strategy, of the market simulator
    ([internal/simulator]) and of the data model of
    [internal/models/types.go], together with the properties the
    specification states about them and further properties of the code. *)

From Stdlib Require Import ZArith QArith Qpower Qabs Lia Lqa String List.
From stdpp Require Import gmap strings list fin_maps.

Close Scope Q_scope.
Local Open Scope Z_scope.
#[local] Set Warnings "-clear-no-such-hyp".

(** ** Fixed-size integers

    Quantities are Go [int64] values. They are carried as [Z]; the
    arithmetic the engine performs on them wraps around. *)

Definition min_int64 : Z := - 2 ^ 63.
Definition max_int64 : Z := 2 ^ 63 - 1.

Definition in_int64 (z : Z) : Prop := min_int64 <= z <= max_int64.

Definition wrap64 (z : Z) : Z := (z + 2 ^ 63) mod 2 ^ 64 - 2 ^ 63.

(** ** Arbitrary-precision decimals

    The engine computes with [github.com/shopspring/decimal]: a decimal is
    an unbounded integer coefficient and a power-of-ten exponent. [Add],
    [Sub] and [Mul] are exact, comparisons are by value, and [Div] rounds
    the quotient half away from zero to [DivisionPrecision] = 16 places
    and panics on a zero divisor ([None] here). *)

Module decimal.

Record Decimal : Type := mkDecimal { value : Z; exp : Z }.

Definition New (v e : Z) : Decimal := mkDecimal v e.

(** [decimal.Zero] is [New(0, 1)] in the library. *)
Definition Zero : Decimal := New 0 1.

(** The zero value [Decimal{}] of an unset struct field. *)
Definition Unset : Decimal := New 0 0.

Definition NewFromInt (n : Z) : Decimal := New n 0.

Definition DivisionPrecision : Z := 16.

Definition rescale (d : Decimal) (e : Z) : Decimal :=
  if exp d =? e then d
  else
    let diff := Z.abs (e - exp d) in
    if e >? exp d then New (Z.quot (value d) (10 ^ diff)) e
    else New (value d * 10 ^ diff) e.

Definition RescalePair (d1 d2 : Decimal) : Decimal * Decimal :=
  if exp d1 =? exp d2 then (d1, d2)
  else
    let baseScale := Z.min (exp d1) (exp d2) in
    if negb (baseScale =? exp d1) then (rescale d1 baseScale, d2)
    else (d1, rescale d2 baseScale).

Definition Add (d d2 : Decimal) : Decimal :=
  let '(rd, rd2) := RescalePair d d2 in
  New (value rd + value rd2) (exp rd).

Definition Sub (d d2 : Decimal) : Decimal :=
  let '(rd, rd2) := RescalePair d d2 in
  New (value rd - value rd2) (exp rd).

Definition Neg (d : Decimal) : Decimal := New (- value d) (exp d).

Definition Abs (d : Decimal) : Decimal := New (Z.abs (value d)) (exp d).

Definition Mul (d d2 : Decimal) : Decimal :=
  New (value d * value d2) (exp d + exp d2).

Definition Cmp (d d2 : Decimal) : comparison :=
  if exp d =? exp d2 then value d ?= value d2
  else
    let '(rd, rd2) := RescalePair d d2 in
    value rd ?= value rd2.

Definition Equal (d d2 : Decimal) : bool :=
  match Cmp d d2 with Eq => true | _ => false end.

Definition LessThan (d d2 : Decimal) : bool :=
  match Cmp d d2 with Lt => true | _ => false end.

Definition GreaterThan (d d2 : Decimal) : bool :=
  match Cmp d d2 with Gt => true | _ => false end.

Definition Sign (d : Decimal) : Z := Z.sgn (value d).

Definition IsZero (d : Decimal) : bool := Sign d =? 0.

(** [QuoRem]: quotient truncated to [precision] places, and remainder. *)
Definition QuoRem (d d2 : Decimal) (precision : Z) : option (Decimal * Decimal) :=
  if Sign d2 =? 0 then None
  else
    let scale := - precision in
    let e := exp d - exp d2 - scale in
    let '(aa, bb, scalerest) :=
      if e <? 0 then (value d, value d2 * 10 ^ (- e), exp d)
      else (value d * 10 ^ e, value d2, scale + exp d2) in
    Some (New (Z.quot aa bb) scale, New (Z.rem aa bb) scalerest).

Definition DivRound (d d2 : Decimal) (precision : Z) : option Decimal :=
  match QuoRem d d2 precision with
  | None => None
  | Some (q, r) =>
      let rv2 := Z.abs (value r) * 2 in
      let r2 := New rv2 (exp r + precision) in
      match Cmp r2 (Abs d2) with
      | Lt => Some q
      | _ =>
          if Z.sgn (value d) * Z.sgn (value d2) <? 0
          then Some (Sub q (New 1 (- precision)))
          else Some (Add q (New 1 (- precision)))
      end
  end.

Definition Div (d d2 : Decimal) : option Decimal :=
  DivRound d d2 DivisionPrecision.

(** *** The rational a decimal denotes *)

Definition pow10 (e : Z) : Q := Qpower (10 # 1) e.

Definition toQ (d : Decimal) : Q := (inject_Z (value d) * pow10 (exp d))%Q.

End decimal.

Import decimal.

(** ** Data model ([internal/models/types.go])

    [OrderType], [OrderSide] and [OrderStatus] are Go string types with
    named constants. Each struct is a record [t] in a module of its name;
    the field [RiskMetrics] is [Risk] and [Order.Type] is [Type_], the
    source's names being taken. Wall-clock fields ([Timestamp], [LastUpdated],
    [CreatedAt], [UpdatedAt], [LastRebalanced]) are left out: nothing the
    engine decides reads them. *)

Definition OrderType := string.
Definition OrderTypeMarket : OrderType := "market".
Definition OrderTypeLimit : OrderType := "limit".
Definition OrderTypeStop : OrderType := "stop".

Definition OrderSide := string.
Definition OrderSideBuy : OrderSide := "buy".
Definition OrderSideSell : OrderSide := "sell".

Definition OrderStatus := string.
Definition OrderStatusPending : OrderStatus := "pending".
Definition OrderStatusFilled : OrderStatus := "filled".
Definition OrderStatusCancelled : OrderStatus := "cancelled".
Definition OrderStatusRejected : OrderStatus := "rejected".

Module RiskMetrics.
Record t : Type := mk {
  VaR95 : Decimal;
  ExpectedShortfall : Decimal;
  SharpeRatio : Decimal;
  MaxDrawdown : Decimal;
  Volatility : Decimal;
  Beta : Decimal
}.
(** [RiskMetrics{}] *)
Definition empty : t := mk Unset Unset Unset Unset Unset Unset.
End RiskMetrics.

Module PortfolioRiskMetrics.
Record t : Type := mk {
  TotalVaR95 : Decimal;
  TotalES : Decimal;
  PortfolioBeta : Decimal;
  Correlation : Decimal;
  Diversification : Decimal
}.
Definition empty : t := mk Unset Unset Unset Unset Unset.
End PortfolioRiskMetrics.

Module Trade.
Record t : Type := mk {
  ID : string;
  OrderID : string;
  Symbol : string;
  Side : OrderSide;
  Quantity : Z;
  Price : Decimal;
  Commission : Decimal;
  StrategyID : string;
  Risk : RiskMetrics.t
}.
End Trade.

Module Order.
Record t : Type := mk {
  ID : string;
  Symbol : string;
  Side : OrderSide;
  Type_ : OrderType;
  Quantity : Z;
  Price : Decimal;
  StopPrice : Decimal;
  Status : OrderStatus;
  StrategyID : string;
  Risk : RiskMetrics.t
}.
Definition set_Status (s : OrderStatus) (o : t) : t :=
  mk (ID o) (Symbol o) (Side o) (Type_ o) (Quantity o) (Price o)
     (StopPrice o) s (StrategyID o) (Risk o).
Definition set_Risk (r : RiskMetrics.t) (o : t) : t :=
  mk (ID o) (Symbol o) (Side o) (Type_ o) (Quantity o) (Price o)
     (StopPrice o) (Status o) (StrategyID o) r.
End Order.

Module Position.
Record t : Type := mk {
  Symbol : string;
  Quantity : Z;
  AveragePrice : Decimal;
  CurrentPrice : Decimal;
  UnrealizedPnL : Decimal;
  RealizedPnL : Decimal;
  MarketValue : Decimal;
  Risk : RiskMetrics.t
}.
End Position.

Module Portfolio.
Record t : Type := mk {
  ID : string;
  Cash : Decimal;
  Positions : gmap string Position.t;
  TotalValue : Decimal;
  UnrealizedPnL : Decimal;
  RealizedPnL : Decimal;
  TotalRisk : Decimal;
  Risk : PortfolioRiskMetrics.t;
  TradeHistory : list Trade.t;
  OrderHistory : list Order.t
}.
Definition set_Cash (c : Decimal) (p : t) : t :=
  mk (ID p) c (Positions p) (TotalValue p) (UnrealizedPnL p) (RealizedPnL p)
     (TotalRisk p) (Risk p) (TradeHistory p) (OrderHistory p).
Definition set_Positions (m : gmap string Position.t) (p : t) : t :=
  mk (ID p) (Cash p) m (TotalValue p) (UnrealizedPnL p) (RealizedPnL p)
     (TotalRisk p) (Risk p) (TradeHistory p) (OrderHistory p).
Definition set_TotalValue (v : Decimal) (p : t) : t :=
  mk (ID p) (Cash p) (Positions p) v (UnrealizedPnL p) (RealizedPnL p)
     (TotalRisk p) (Risk p) (TradeHistory p) (OrderHistory p).
Definition set_UnrealizedPnL (v : Decimal) (p : t) : t :=
  mk (ID p) (Cash p) (Positions p) (TotalValue p) v (RealizedPnL p)
     (TotalRisk p) (Risk p) (TradeHistory p) (OrderHistory p).
Definition set_TradeHistory (h : list Trade.t) (p : t) : t :=
  mk (ID p) (Cash p) (Positions p) (TotalValue p) (UnrealizedPnL p)
     (RealizedPnL p) (TotalRisk p) (Risk p) h (OrderHistory p).
Definition set_OrderHistory (h : list Order.t) (p : t) : t :=
  mk (ID p) (Cash p) (Positions p) (TotalValue p) (UnrealizedPnL p)
     (RealizedPnL p) (TotalRisk p) (Risk p) (TradeHistory p) h.
End Portfolio.

Module MarketData.
Record t : Type := mk {
  Symbol : string;
  Price : Decimal;
  Volume : Z;
  High : Decimal;
  Low : Decimal;
  Open : Decimal;
  Close : Decimal
}.
End MarketData.

Module StrategyConfig.
Record t : Type := mk {
  ID : string;
  Name : string;
  MaxPositionSize : Decimal;
  MaxPortfolioRisk : Decimal;
  MaxDrawdown : Decimal;
  StopLossPercent : Decimal;
  TakeProfitPercent : Decimal;
  TrailingStopPercent : Decimal;
  RebalanceThreshold : Decimal;
  MaxOrdersPerDay : Z;
  MinOrderSize : Decimal;
  MaxOrderSize : Decimal;
  CommissionRate : Decimal;
  SlippageTolerance : Decimal;
  RiskFreeRate : Decimal;
  MarketDataWindow : Z;
  TechnicalIndicators : list string;
  Enabled : bool
}.
End StrategyConfig.

Module AlgorithmResult.
Record t : Type := mk {
  StrategyID : string;
  Symbol : string;
  Action : string;
  Quantity : Z;
  Price : Decimal;
  Confidence : Decimal;
  Signal : string;
  RiskScore : Decimal;
  ExpectedReturn : Decimal
}.
End AlgorithmResult.

(** ** Rejection errors ([internal/strategies/errors.go]) *)

Inductive Error : Type :=
  | ErrInvalidQuantity
  | ErrOrderTooSmall
  | ErrOrderTooLarge
  | ErrInsufficientFunds
  | ErrInsufficientPosition
  | ErrPositionTooLarge
  | ErrPortfolioRiskExceeded
  | ErrStrategyDisabled
  | ErrInvalidMarketData
  | ErrInvalidPortfolio
  | ErrInvalidConfig
  | ErrMaxDrawdownExceeded
  | ErrMaxOrdersPerDayReached.

(** ** The [Strategy] capability ([internal/strategies/base.go])

    The engine calls a strategy through this interface. [CalculateRisk]
    yields [None] when the call panics, [Some (inl err)] when it rejects and
    [Some (inr metrics)] when it succeeds. *)

Record Strategy : Type := mkStrategy {
  ID : string;
  Name : string;
  ValidateOrder : Order.t -> Portfolio.t -> option Error;
  CalculateRisk : Order.t -> Portfolio.t -> option (Error + RiskMetrics.t);
  GetConfig : StrategyConfig.t;
  IsEnabled : bool
}.

(** A method body that works on the order and the portfolio it was handed
    by reference: a state transformer over the two objects. *)
Definition Store : Type := Order.t * Portfolio.t.
Definition Method (A : Type) : Type := Store -> A * Store.

Definition mreturn {A} (a : A) : Method A := fun s => (a, s).
Definition mthen {A B} (m : Method A) (k : A -> Method B) : Method B :=
  fun s => let '(a, s') := m s in k a s'.
Definition read_order : Method Order.t := fun s => (fst s, s).
Definition read_portfolio : Method Portfolio.t := fun s => (snd s, s).

Module BaseStrategy.
Section WithFloats.

(** [decimal.NewFromFloat(math.Sqrt(v.InexactFloat64()))]: the square root
    goes through IEEE-754 binary64 and is kept abstract. [float_sqrt] is
    the decimal the call returns; where [v] lies beyond the range of
    binary64 the float is +Inf and [NewFromFloat] panics, a case the
    function does not show: a statement that the code returns carries the
    condition [float64_finite] on the variance the root is taken of. *)
Variable float_sqrt : Decimal -> Decimal.

Variable config : StrategyConfig.t.

Definition ValidateOrder_body : Method (option Error) :=
  mthen read_order (fun order =>
  mthen read_portfolio (fun portfolio =>
  if Order.Quantity order <=? 0 then mreturn (Some ErrInvalidQuantity)
  else
    let orderValue := Mul (Order.Price order) (NewFromInt (Order.Quantity order)) in
    if LessThan orderValue (StrategyConfig.MinOrderSize config)
    then mreturn (Some ErrOrderTooSmall)
    else if GreaterThan orderValue (StrategyConfig.MaxOrderSize config)
    then mreturn (Some ErrOrderTooLarge)
    else if String.eqb (Order.Side order) OrderSideBuy then
      if LessThan (Portfolio.Cash portfolio) orderValue
      then mreturn (Some ErrInsufficientFunds)
      else mreturn None
    else
      match Portfolio.Positions portfolio !! Order.Symbol order with
      | None => mreturn (Some ErrInsufficientPosition)
      | Some position =>
          if Position.Quantity position <? Order.Quantity order
          then mreturn (Some ErrInsufficientPosition)
          else mreturn None
      end)).

Definition ValidateOrder (order : Order.t) (portfolio : Portfolio.t) : option Error :=
  fst (ValidateOrder_body (order, portfolio)).

(** The loop of [calculateVolatility]: index [i] runs from 1, [prev] is
    [TradeHistory[i-1]] and the head of [rest] is [TradeHistory[i]]. *)
Fixpoint collectReturns (symbol : string) (prev : Trade.t) (rest : list Trade.t)
  : option (list Decimal) :=
  match rest with
  | [] => Some []
  | curr :: rest' =>
      if String.eqb (Trade.Symbol curr) symbol then
        let prevPrice := Trade.Price prev in
        let currPrice := Trade.Price curr in
        if negb (IsZero prevPrice) then
          r ← Div (Sub currPrice prevPrice) prevPrice;
          tl ← collectReturns symbol curr rest';
          Some (r :: tl)
        else collectReturns symbol curr rest'
      else collectReturns symbol curr rest'
  end.

Definition sumReturns (returns : list Decimal) : Decimal :=
  fold_left Add returns Zero.

Definition sumSquares (mean : Decimal) (returns : list Decimal) : Decimal :=
  fold_left (fun variance ret => let diff := Sub ret mean in Add variance (Mul diff diff))
            returns Zero.

(** Mean and variance of a non-empty return series. *)
Definition returnsVariance (returns : list Decimal) : option Decimal :=
  let n := NewFromInt (Z.of_nat (length returns)) in
  mean ← Div (sumReturns returns) n;
  Div (sumSquares mean returns) n.

Definition calculateVolatility (symbol : string) (portfolio : Portfolio.t)
  : option Decimal :=
  match Portfolio.TradeHistory portfolio with
  | [] | [_] => Some Zero
  | first :: rest =>
      returns ← collectReturns symbol first rest;
      match returns with
      | [] => Some Zero
      | _ =>
          variance ← returnsVariance returns;
          if GreaterThan variance Zero then Some (float_sqrt variance)
          else Some (New 0 0)
      end
  end.

Definition calculateBeta (symbol : string) (portfolio : Portfolio.t) : Decimal :=
  New 1 0.

Definition calculateVaR (orderValue volatility : Decimal) : Decimal :=
  let zScore := New 1645 (-3) in
  Mul (Mul orderValue volatility) zScore.

Definition calculateExpectedShortfall (var95 volatility : Decimal) : Decimal :=
  Mul var95 (New 125 (-2)).

Definition calculateSharpeRatio (orderValue volatility : Decimal) : option Decimal :=
  if IsZero volatility then Some Zero
  else
    let excessReturn := Sub orderValue (StrategyConfig.RiskFreeRate config) in
    Div excessReturn volatility.

(** The loop of [calculateMaxDrawdown], from the running [peak] and the
    largest drawdown seen so far. *)
Fixpoint drawdownLoop (peak maxDrawdown : Decimal) (trades : list Trade.t)
  : option Decimal :=
  match trades with
  | [] => Some maxDrawdown
  | trade :: trades' =>
      let peak := if GreaterThan (Trade.Price trade) peak then Trade.Price trade else peak in
      drawdown ← Div (Sub peak (Trade.Price trade)) peak;
      let maxDrawdown := if GreaterThan drawdown maxDrawdown then drawdown else maxDrawdown in
      drawdownLoop peak maxDrawdown trades'
  end.

Definition calculateMaxDrawdown (portfolio : Portfolio.t) : option Decimal :=
  match Portfolio.TradeHistory portfolio with
  | [] => Some Zero
  | first :: _ => drawdownLoop (Trade.Price first) Zero (Portfolio.TradeHistory portfolio)
  end.

Definition CalculateRisk (order : Order.t) (portfolio : Portfolio.t)
  : option (Error + RiskMetrics.t) :=
  let orderValue := Mul (Order.Price order) (NewFromInt (Order.Quantity order)) in
  let portfolioValue := Portfolio.TotalValue portfolio in
  if IsZero portfolioValue then Some (inr RiskMetrics.empty)
  else
    positionRisk ← Div orderValue portfolioValue;
    if GreaterThan positionRisk (StrategyConfig.MaxPositionSize config)
    then Some (inl ErrPositionTooLarge)
    else
      let totalRisk := Add (Portfolio.TotalRisk portfolio) positionRisk in
      if GreaterThan totalRisk (StrategyConfig.MaxPortfolioRisk config)
      then Some (inl ErrPortfolioRiskExceeded)
      else
        volatility ← calculateVolatility (Order.Symbol order) portfolio;
        let beta := calculateBeta (Order.Symbol order) portfolio in
        let var95 := calculateVaR orderValue volatility in
        let expectedShortfall := calculateExpectedShortfall var95 volatility in
        sharpeRatio ← calculateSharpeRatio orderValue volatility;
        maxDrawdown ← calculateMaxDrawdown portfolio;
        Some (inr (RiskMetrics.mk var95 expectedShortfall sharpeRatio
                                  maxDrawdown volatility beta)).

(** [BaseStrategy] seen through the [Strategy] interface. *)
Definition asStrategy : Strategy :=
  mkStrategy (StrategyConfig.ID config) (StrategyConfig.Name config)
             ValidateOrder CalculateRisk config (StrategyConfig.Enabled config).

End WithFloats.
End BaseStrategy.

(** ** The trading engine ([internal/engine])

    The logger, the mutex and the stop channel carry no data. The two
    channels are FIFO buffers of [queueCapacity] places; a send that finds
    room is the append, and a send that finds the buffer full waits, a wait
    the functions do not show: a statement that a send returns carries the
    condition that the queue has room. Identifiers
    derived from the clock ([generateTradeID] and the like) are supplied by
    the caller. A function that can panic returns an [option]. *)

Record TradingEngine : Type := mkEngine {
  portfolio : Portfolio.t;
  strategies : gmap string Strategy;
  marketData : gmap string MarketData.t;
  orderQueue : list Order.t;
  tradeQueue : list Trade.t;
  running : bool
}.

Definition set_portfolio (p : Portfolio.t) (e : TradingEngine) : TradingEngine :=
  mkEngine p (strategies e) (marketData e) (orderQueue e) (tradeQueue e) (running e).
Definition set_strategies (m : gmap string Strategy) (e : TradingEngine) : TradingEngine :=
  mkEngine (portfolio e) m (marketData e) (orderQueue e) (tradeQueue e) (running e).
Definition set_marketData (m : gmap string MarketData.t) (e : TradingEngine) : TradingEngine :=
  mkEngine (portfolio e) (strategies e) m (orderQueue e) (tradeQueue e) (running e).
Definition set_orderQueue (q : list Order.t) (e : TradingEngine) : TradingEngine :=
  mkEngine (portfolio e) (strategies e) (marketData e) q (tradeQueue e) (running e).
Definition set_tradeQueue (q : list Trade.t) (e : TradingEngine) : TradingEngine :=
  mkEngine (portfolio e) (strategies e) (marketData e) (orderQueue e) q (running e).
Definition set_running (b : bool) (e : TradingEngine) : TradingEngine :=
  mkEngine (portfolio e) (strategies e) (marketData e) (orderQueue e) (tradeQueue e) b.

Definition NewTradingEngine (portfolioID : string) (initialCash : Decimal) : TradingEngine :=
  mkEngine
    (Portfolio.mk portfolioID initialCash ∅ initialCash Zero Zero Zero
                  PortfolioRiskMetrics.empty [] [])
    ∅ ∅ [] [] false.

Definition AddStrategy (strategy : Strategy) (e : TradingEngine) : TradingEngine :=
  set_strategies (<[ID strategy := strategy]> (strategies e)) e.

Definition RemoveStrategy (strategyID : string) (e : TradingEngine) : TradingEngine :=
  set_strategies (delete strategyID (strategies e)) e.

Definition UpdateMarketData (symbol : string) (data : MarketData.t) (e : TradingEngine)
  : TradingEngine :=
  set_marketData (<[symbol := data]> (marketData e)) e.

(** [Start] fails when the engine is already running. *)
Definition Start (e : TradingEngine) : option TradingEngine :=
  if running e then None else Some (set_running true e).

Definition Stop (e : TradingEngine) : TradingEngine :=
  if negb (running e) then e else set_running false e.

Definition createOrderFromResult (orderID : string) (result : AlgorithmResult.t)
    (e : TradingEngine) : TradingEngine :=
  let side := if String.eqb (AlgorithmResult.Action result) "buy"
              then OrderSideBuy else OrderSideSell in
  let order :=
    Order.mk orderID (AlgorithmResult.Symbol result) side OrderTypeMarket
             (AlgorithmResult.Quantity result) (AlgorithmResult.Price result)
             Unset OrderStatusPending (AlgorithmResult.StrategyID result)
             RiskMetrics.empty in
  set_orderQueue (orderQueue e ++ [order]) e.

(** The position record [updatePosition] creates for a symbol not yet held. *)
Definition newPosition (symbol : string) (price : Decimal) : Position.t :=
  Position.mk symbol 0 Zero price Zero Zero Zero RiskMetrics.empty.

Definition updatePosition (symbol : string) (quantity : Z) (price : Decimal)
    (e : TradingEngine) : option TradingEngine :=
  let positions := Portfolio.Positions (portfolio e) in
  let position :=
    match positions !! symbol with
    | Some position => position
    | None => newPosition symbol price
    end in
  let positions := <[symbol := position]> positions in
  if 0 <? quantity then
    let totalCost :=
      Add (Mul (Position.AveragePrice position) (NewFromInt (Position.Quantity position)))
          (Mul price (NewFromInt quantity)) in
    let totalQuantity := wrap64 (Position.Quantity position + quantity) in
    averagePrice ← Div totalCost (NewFromInt totalQuantity);
    let position :=
      Position.mk (Position.Symbol position) totalQuantity averagePrice price
                  (Position.UnrealizedPnL position) (Position.RealizedPnL position)
                  (Position.MarketValue position) (Position.Risk position) in
    Some (set_portfolio
            (Portfolio.set_Positions (<[symbol := position]> positions) (portfolio e)) e)
  else
    let newQuantity := wrap64 (Position.Quantity position + quantity) in
    if newQuantity <=? 0 then
      Some (set_portfolio
              (Portfolio.set_Positions (delete symbol positions) (portfolio e)) e)
    else
      let position :=
        Position.mk (Position.Symbol position) newQuantity
                    (Position.AveragePrice position) price
                    (Position.UnrealizedPnL position) (Position.RealizedPnL position)
                    (Position.MarketValue position) (Position.Risk position) in
      Some (set_portfolio
              (Portfolio.set_Positions (<[symbol := position]> positions) (portfolio e)) e).

(** The engine's own commission rate, [decimal.NewFromFloat(0.001)]. *)
Definition commissionRate : Decimal := New 1 (-3).

Definition executeOrder (tradeID : string) (order : Order.t) (e : TradingEngine)
  : option TradingEngine :=
  let orderValue := Mul (Order.Price order) (NewFromInt (Order.Quantity order)) in
  let commission := Mul orderValue commissionRate in
  let trade :=
    Trade.mk tradeID (Order.ID order) (Order.Symbol order) (Order.Side order)
             (Order.Quantity order) (Order.Price order) commission
             (Order.StrategyID order) (Order.Risk order) in
  e ← (if String.eqb (Order.Side order) OrderSideBuy then
         let cash := Sub (Sub (Portfolio.Cash (portfolio e)) orderValue) commission in
         updatePosition (Order.Symbol order) (Order.Quantity order) (Order.Price order)
                        (set_portfolio (Portfolio.set_Cash cash (portfolio e)) e)
       else
         let cash := Sub (Add (Portfolio.Cash (portfolio e)) orderValue) commission in
         updatePosition (Order.Symbol order) (wrap64 (- Order.Quantity order))
                        (Order.Price order)
                        (set_portfolio (Portfolio.set_Cash cash (portfolio e)) e));
  Some (set_tradeQueue (tradeQueue e ++ [trade]) e).

(** [processOrder] returns the order as it leaves the stage (the caller's
    pointer sees the new status) and the engine. *)
Definition processOrder (tradeID : string) (order : Order.t) (e : TradingEngine)
  : option (Order.t * TradingEngine) :=
  match strategies e !! Order.StrategyID order with
  | None => Some (Order.set_Status OrderStatusRejected order, e)
  | Some strategy =>
      match ValidateOrder strategy order (portfolio e) with
      | Some _ => Some (Order.set_Status OrderStatusRejected order, e)
      | None =>
          res ← CalculateRisk strategy order (portfolio e);
          match res with
          | inl _ => Some (Order.set_Status OrderStatusRejected order, e)
          | inr riskMetrics =>
              let order := Order.set_Risk riskMetrics order in
              let order := Order.set_Status OrderStatusFilled order in
              e ← executeOrder tradeID order e;
              Some (order,
                    set_portfolio
                      (Portfolio.set_OrderHistory
                         (Portfolio.OrderHistory (portfolio e) ++ [order])
                         (portfolio e)) e)
          end
      end
  end.

Definition processTrade (trade : Trade.t) (e : TradingEngine) : TradingEngine :=
  set_portfolio
    (Portfolio.set_TradeHistory (Portfolio.TradeHistory (portfolio e) ++ [trade])
                                (portfolio e)) e.

(** One iteration of the loop of [updatePortfolio]. *)
Definition revalue (price : Decimal) (position : Position.t) : Position.t :=
  let quantity := NewFromInt (Position.Quantity position) in
  Position.mk (Position.Symbol position) (Position.Quantity position)
              (Position.AveragePrice position) price
              (Mul (Sub price (Position.AveragePrice position)) quantity)
              (Position.RealizedPnL position)
              (Mul price quantity)
              (Position.Risk position).

Definition valuationStep (md : gmap string MarketData.t)
    (acc : Decimal * Decimal * gmap string Position.t)
    (entry : string * Position.t) : Decimal * Decimal * gmap string Position.t :=
  let '(totalValue, unrealizedPnL, positions) := acc in
  let '(symbol, position) := entry in
  match md !! symbol with
  | Some marketData =>
      let position := revalue (MarketData.Price marketData) position in
      (Add totalValue (Position.MarketValue position),
       Add unrealizedPnL (Position.UnrealizedPnL position),
       <[symbol := position]> positions)
  | None => acc
  end.

(** [for symbol, position := range e.portfolio.Positions]: Go leaves the
    order of the iteration open, so the loop is run over [entries], any
    enumeration of the map. *)
Definition updatePortfolio_over (entries : list (string * Position.t))
    (e : TradingEngine) : TradingEngine :=
  let p := portfolio e in
  let '(totalValue, unrealizedPnL, positions) :=
    fold_left (valuationStep (marketData e)) entries
              (Portfolio.Cash p, Zero, Portfolio.Positions p) in
  set_portfolio
    (Portfolio.set_UnrealizedPnL unrealizedPnL
       (Portfolio.set_TotalValue totalValue
          (Portfolio.set_Positions positions p))) e.

Definition updatePortfolio (e : TradingEngine) : TradingEngine :=
  updatePortfolio_over (map_to_list (Portfolio.Positions (portfolio e))) e.

(** The drawdown threshold, [decimal.NewFromFloat(0.1)]. *)
Definition drawdownLimit : Decimal := New 1 (-1).

(** [manageRisk] changes nothing; it yields the symbols it warned about,
    or [None] when the division panics. *)
Fixpoint riskSweep (entries : list (string * Position.t)) : option (list string) :=
  match entries with
  | [] => Some []
  | (symbol, position) :: entries' =>
      if Position.Quantity position <=? 0 then riskSweep entries'
      else
        ratio ← Div (Position.UnrealizedPnL position) (Position.MarketValue position);
        let drawdown := Abs ratio in
        warned ← riskSweep entries';
        if GreaterThan drawdown drawdownLimit then Some (symbol :: warned)
        else Some warned
  end.

Definition manageRisk (e : TradingEngine) : option (list string) :=
  riskSweep (map_to_list (Portfolio.Positions (portfolio e))).

Definition GetPortfolio (e : TradingEngine) : Portfolio.t := portfolio e.

(** ** Runs of the engine

    One step is one call on the control surface or one turn of a pipeline
    stage, taken under the engine's lock. The stages are the goroutines
    [Start] launches: they turn only while the engine is running. A stage
    that panics has no successor state. A stage takes its item off the
    queue before it takes the lock; the step shows the two as one, so the
    states of a run show the portfolio as the lock guards it and each queue
    with the item a stage may already hold still at its head. *)

Definition enumerates (entries : list (string * Position.t))
    (m : gmap string Position.t) : Prop :=
  entries ≡ₚ map_to_list m.

Inductive step : TradingEngine -> TradingEngine -> Prop :=
  | step_AddStrategy strategy e :
      step e (AddStrategy strategy e)
  | step_RemoveStrategy strategyID e :
      step e (RemoveStrategy strategyID e)
  | step_UpdateMarketData symbol data e :
      step e (UpdateMarketData symbol data e)
  | step_Start e e' :
      Start e = Some e' -> step e e'
  | step_Stop e :
      step e (Stop e)
  | step_strategyExecutor orderID result e :
      running e = true ->
      step e (createOrderFromResult orderID result e)
  | step_orderProcessor tradeID order rest order' e e' :
      running e = true ->
      orderQueue e = order :: rest ->
      processOrder tradeID order (set_orderQueue rest e) = Some (order', e') ->
      step e e'
  | step_tradeProcessor trade rest e :
      running e = true ->
      tradeQueue e = trade :: rest ->
      step e (processTrade trade (set_tradeQueue rest e))
  | step_portfolioUpdater entries e :
      running e = true ->
      enumerates entries (Portfolio.Positions (portfolio e)) ->
      step e (updatePortfolio_over entries e)
  | step_riskManager entries warned e :
      running e = true ->
      enumerates entries (Portfolio.Positions (portfolio e)) ->
      riskSweep entries = Some warned ->
      step e e.

Definition reachable (e : TradingEngine) : Prop :=
  exists portfolioID initialCash,
    rtc step (NewTradingEngine portfolioID initialCash) e.

(** ** Reference definitions the properties are stated against *)

(** The sum of the market values of the positions, as a rational. *)
Definition marketValueSum (entries : list (string * Position.t)) : Q :=
  fold_right (fun entry acc => (toQ (Position.MarketValue (snd entry)) + acc)%Q)
             0%Q entries.

(** What the portfolio holds of a symbol: quantity and average price, both
    zero when it holds none. *)
Definition heldQuantity (symbol : string) (p : Portfolio.t) : Z :=
  match Portfolio.Positions p !! symbol with
  | Some position => Position.Quantity position
  | None => 0
  end.

Definition heldAveragePrice (symbol : string) (p : Portfolio.t) : Decimal :=
  match Portfolio.Positions p !! symbol with
  | Some position => Position.AveragePrice position
  | None => Zero
  end.

Definition notional (order : Order.t) : Decimal :=
  Mul (Order.Price order) (NewFromInt (Order.Quantity order)).

(** The settlement record [executeOrder] derives from an order. *)
Definition tradeOf (tradeID : string) (order : Order.t) : Trade.t :=
  Trade.mk tradeID (Order.ID order) (Order.Symbol order) (Order.Side order)
           (Order.Quantity order) (Order.Price order)
           (Mul (notional order) commissionRate)
           (Order.StrategyID order) (Order.Risk order).

(** The order as the order-intake stage leaves it, and the engine once the
    order is appended to the history. *)
Definition rejected (order : Order.t) : Order.t :=
  Order.set_Status OrderStatusRejected order.

Definition filled (metrics : RiskMetrics.t) (order : Order.t) : Order.t :=
  Order.set_Status OrderStatusFilled (Order.set_Risk metrics order).

Definition recordOrder (order : Order.t) (e : TradingEngine) : TradingEngine :=
  set_portfolio
    (Portfolio.set_OrderHistory (Portfolio.OrderHistory (portfolio e) ++ [order])
                                (portfolio e)) e.

(** [getTradesForSymbol] of the moving-average strategy: the trades of one
    symbol, in history order. *)
Definition getTradesForSymbol (symbol : string) (trades : list Trade.t) : list Trade.t :=
  filter (fun trade => Trade.Symbol trade = symbol) trades.

(** The returns between successive trades of one symbol, as the
    specification words the volatility input. *)
Definition symbolReturns (symbol : string) (trades : list Trade.t) : option (list Decimal) :=
  match getTradesForSymbol symbol trades with
  | [] => Some []
  | first :: rest => BaseStrategy.collectReturns symbol first rest
  end.

(** The larger of two prices, as [if price.GreaterThan(peak)] picks it. *)
Definition higher (peak price : Decimal) : Decimal :=
  if GreaterThan price peak then price else peak.

(** The running peak after the first [S i] trades of the history, and the
    percentage decline of trade [i] from it. *)
Definition peakAt (start : Decimal) (trades : list Trade.t) (i : nat) : Decimal :=
  fold_left higher (map Trade.Price (take (S i) trades)) start.

Definition drawdownAt (start : Decimal) (trades : list Trade.t) (i : nat) : option Decimal :=
  trade ← trades !! i;
  Div (Sub (peakAt start trades i) (Trade.Price trade)) (peakAt start trades i).

(** ** The configuration and figures of [main.go]

    [decimal.NewFromFloat] yields the shortest decimal that reads back as
    the float: 0.2 is 2 x 10^-1, 1000.0 is 1 x 10^3, and the default initial
    cash 100000.0 is 1 x 10^5. *)

Definition movingAvgConfig : StrategyConfig.t :=
  StrategyConfig.mk "ma_crossover_001" "Moving Average Crossover"
    (New 2 (-1)) (New 15 (-2)) (New 1 (-1)) (New 5 (-2)) (New 1 (-1))
    (New 3 (-2)) (New 5 (-2)) 50 (New 1 3) (New 1 4) (New 1 (-3))
    (New 2 (-3)) (New 2 (-2)) 30 ["SMA"; "EMA"; "RSI"] true.

Definition initialCash : Decimal := New 1 5.

Definition marketOrder (orderID symbol : string) (side : OrderSide) (quantity : Z)
    (price : Decimal) : Order.t :=
  Order.mk orderID symbol side OrderTypeMarket quantity price Unset
           OrderStatusPending "ma_crossover_001" RiskMetrics.empty.

(** The end-to-end scenario of the specification: 100 AAPL bought at 150
    out of 100,000 in cash, as the engine leaves the portfolio. *)
Definition aaplPosition : Position.t :=
  Position.mk "AAPL" 100 (New 1500000000000000000 (-16)) (New 150 0)
              Zero Zero Zero RiskMetrics.empty.

Definition engineHoldingAAPL : TradingEngine :=
  mkEngine
    (Portfolio.mk "PORT-1" (New 84985000 (-3)) {[ "AAPL" := aaplPosition ]}
                  initialCash Zero Zero Zero PortfolioRiskMetrics.empty [] [])
    ∅ ∅ [] [] true.


Definition freshEngine : TradingEngine := NewTradingEngine "PORT-1" initialCash.

(** The engine of [main.go] once the strategy is registered. The float
    square root plays no part until a symbol has two trades in the history;
    it is set to the identity where a closed term is needed. *)
Definition tradingEngineWith (float_sqrt : Decimal -> Decimal) : TradingEngine :=
  AddStrategy (BaseStrategy.asStrategy float_sqrt movingAvgConfig) freshEngine.

Definition baseStrategy : Strategy :=
  BaseStrategy.asStrategy (fun v => v) movingAvgConfig.

Definition tradingEngine : TradingEngine := tradingEngineWith (fun v => v).

(** The same engine after [Start]. *)
Definition startedEngine (float_sqrt : Decimal -> Decimal) : TradingEngine :=
  set_running true (tradingEngineWith float_sqrt).

(** The signal a strategy returns for ten AAPL at 150. *)
Definition aaplSignal : AlgorithmResult.t :=
  AlgorithmResult.mk "ma_crossover_001" "AAPL" "buy" 10 (New 150 0)
                     (New 1 0) "strong_buy" Zero Zero.

(** A portfolio with 5,000 in cash beside 950 units of AAPL valued at 100. *)
Definition engineLowCash : TradingEngine :=
  mkEngine
    (Portfolio.mk "PORT-1" (New 5000 0)
       {[ "AAPL" := Position.mk "AAPL" 950 (New 100 0) (New 100 0) Zero Zero
                                (New 95000 0) RiskMetrics.empty ]}
       initialCash Zero Zero Zero PortfolioRiskMetrics.empty [] [])
    ∅ ∅ [] [] true.

(** A buy of 50 units at 100: a notional of exactly the cash at hand. *)
Definition allCashBuy : Order.t :=
  marketOrder "ORD-9" "MSFT" OrderSideBuy 50 (New 100 0).

Definition aaplBuy : Order.t :=
  marketOrder "ORD-1" "AAPL" OrderSideBuy 10 (New 150 0).

Definition emptyBuy : Order.t :=
  marketOrder "ORD-1" "AAPL" OrderSideBuy 0 (New 150 0).

(** What a valuation pass makes of one position: revalued at the symbol's
    latest price when the market data has one, left as it is otherwise. *)
Definition revalued (md : gmap string MarketData.t) (symbol : string)
    (position : Position.t) : Position.t :=
  match md !! symbol with
  | Some marketData => revalue (MarketData.Price marketData) position
  | None => position
  end.

(** The sum the loop of [updatePortfolio] adds to the cash. *)
Definition valuedSum (md : gmap string MarketData.t)
    (entries : list (string * Position.t)) : Q :=
  fold_right
    (fun entry acc =>
       match md !! fst entry with
       | Some marketData =>
           (toQ (Position.MarketValue
                   (revalue (MarketData.Price marketData) (snd entry))) + acc)%Q
       | None => acc
       end) 0%Q entries.

(** The sum of the market values of the positions whose symbol the market
    data has a price for. *)
Definition pricedValueSum (md : gmap string MarketData.t)
    (entries : list (string * Position.t)) : Q :=
  fold_right
    (fun entry acc =>
       match md !! fst entry with
       | Some _ => (toQ (Position.MarketValue (snd entry)) + acc)%Q
       | None => acc
       end) 0%Q entries.

(** A position of a symbol the market data has no price for still has the
    market value zero it was created with. *)
Definition unpriced_unvalued (e : TradingEngine) : Prop :=
  forall symbol position,
    Portfolio.Positions (portfolio e) !! symbol = Some position ->
    marketData e !! symbol = None ->
    Position.MarketValue position = Zero.

(** A portfolio whose cash went into 200 units of AAPL, bought at 100 and
    then at 50; no tick has priced the symbol, so the last valuation pass
    left a total value of zero. *)
Definition aaplTrade (tradeID orderID : string) (price : Decimal) : Trade.t :=
  Trade.mk tradeID orderID "AAPL" OrderSideBuy 100 price
           (Mul (Mul price (NewFromInt 100)) commissionRate)
           "ma_crossover_001" RiskMetrics.empty.

Definition drainedPortfolio : Portfolio.t :=
  Portfolio.mk "PORT-1" (New 0 (-3))
    {[ "AAPL" := Position.mk "AAPL" 200 (New 750000000000000000 (-16)) (New 50 0)
                             Zero Zero Zero RiskMetrics.empty ]}
    (New 0 (-3)) Zero Zero Zero PortfolioRiskMetrics.empty
    [aaplTrade "TRD-1" "ORD-1" (New 100 0); aaplTrade "TRD-2" "ORD-2" (New 50 0)]
    [].

Definition aaplSell : Order.t :=
  marketOrder "ORD-3" "AAPL" OrderSideSell 20 (New 50 0).

(** A portfolio valued at 100,000 whose history holds the two AAPL trades. *)
Definition seasonedPortfolio : Portfolio.t :=
  Portfolio.mk "PORT-1" (New 84985000 (-3)) {[ "AAPL" := aaplPosition ]}
    initialCash Zero Zero Zero PortfolioRiskMetrics.empty
    (Portfolio.TradeHistory drainedPortfolio) [].

Definition msftBuy : Order.t :=
  marketOrder "ORD-3" "MSFT" OrderSideBuy 10 (New 150 0).

(** A history in which two symbols alternate: AAPL at 100, MSFT at 110,
    AAPL at 50, MSFT at 110. *)
Definition tradeAt (tradeID symbol : string) (price : Decimal) : Trade.t :=
  Trade.mk tradeID "ORD" symbol OrderSideBuy 10 price
           (Mul (Mul price (NewFromInt 10)) commissionRate)
           "ma_crossover_001" RiskMetrics.empty.

Definition mixedHistory : list Trade.t :=
  [tradeAt "TRD-1" "AAPL" (New 100 0); tradeAt "TRD-2" "MSFT" (New 110 0);
   tradeAt "TRD-3" "AAPL" (New 50 0); tradeAt "TRD-4" "MSFT" (New 110 0)].

Definition mixedPortfolio : Portfolio.t :=
  Portfolio.mk "PORT-1" initialCash ∅ initialCash Zero Zero Zero
               PortfolioRiskMetrics.empty mixedHistory [].

(** A history whose first trade was recorded at price zero. *)
Definition freeHistoryPortfolio : Portfolio.t :=
  Portfolio.mk "PORT-1" initialCash ∅ initialCash Zero Zero Zero
               PortfolioRiskMetrics.empty [tradeAt "TRD-1" "AAPL" (New 0 0)] [].

(** A tick that prices AAPL at 160. *)
Definition aaplTick : MarketData.t :=
  MarketData.mk "AAPL" (New 160 0) 1000000 (New 162 0) (New 158 0)
                (New 159 0) (New 160 0).

(** ** The limits of the queues and of binary64 *)




(** ** Ledger figures of a run *)

(** What a filled order did to the cash, as [executeOrder] computes it: a
    buy takes the notional and the commission, a sell brings the notional
    less the commission. *)
Definition cashEffect (order : Order.t) : Q :=
  if String.eqb (Order.Side order) OrderSideBuy
  then (- toQ (notional order) - toQ (notional order) * (1 # 1000))%Q
  else (toQ (notional order) - toQ (notional order) * (1 # 1000))%Q.

Definition cashFlow (orders : list Order.t) : Q :=
  fold_right (fun order acc => (cashEffect order + acc)%Q) 0%Q orders.

(** The trades the engine has produced so far: those recorded in the
    history, then those still in the trade queue. *)
Definition tradesProduced (e : TradingEngine) : list Trade.t :=
  Portfolio.TradeHistory (portfolio e) ++ tradeQueue e.

(** A trade is the settlement record of an order. *)
Definition settles (trade : Trade.t) (order : Order.t) : Prop :=
  trade = tradeOf (Trade.ID trade) order.

(** The portfolio as a run from [NewTradingEngine] keeps it: each position
    filed under its own symbol, with a quantity that is an [int64] other
    than zero. *)
Definition well_keyed (e : TradingEngine) : Prop :=
  forall symbol position,
    Portfolio.Positions (portfolio e) !! symbol = Some position ->
    Position.Symbol position = symbol /\
    Position.Quantity position <> 0 /\
    in_int64 (Position.Quantity position).

(** The sum [updatePortfolio] accumulates into the unrealized P&L, and the
    unrealized P&L of the positions the market data has a price for. *)
Definition pnlSum (md : gmap string MarketData.t)
    (entries : list (string * Position.t)) : Q :=
  fold_right
    (fun entry acc =>
       match md !! fst entry with
       | Some marketData =>
           (toQ (Position.UnrealizedPnL
                   (revalue (MarketData.Price marketData) (snd entry))) + acc)%Q
       | None => acc
       end) 0%Q entries.

Definition pricedPnLSum (md : gmap string MarketData.t)
    (entries : list (string * Position.t)) : Q :=
  fold_right
    (fun entry acc =>
       match md !! fst entry with
       | Some _ => (toQ (Position.UnrealizedPnL (snd entry)) + acc)%Q
       | None => acc
       end) 0%Q entries.

(** The cost basis of the priced positions: average price x quantity. *)
Definition pricedCostSum (md : gmap string MarketData.t)
    (entries : list (string * Position.t)) : Q :=
  fold_right
    (fun entry acc =>
       match md !! fst entry with
       | Some _ =>
           (toQ (Position.AveragePrice (snd entry))
            * inject_Z (Position.Quantity (snd entry)) + acc)%Q
       | None => acc
       end) 0%Q entries.

(** ** The stop channel

    [NewTradingEngine] makes the stop channel once; [Stop] closes it and
    nothing makes a new one. Closing a closed channel panics. [Controls]
    pairs the engine with the state of the channel; [Start] and [Stop] are
    the engine's, with the panic of [close] written out. *)

Record Controls : Type := mkControls {
  engine : TradingEngine;
  stopChanClosed : bool
}.

Definition NewControls (portfolioID : string) (initialCash : Decimal) : Controls :=
  mkControls (NewTradingEngine portfolioID initialCash) false.

Definition StartControls (c : Controls) : option Controls :=
  e ← Start (engine c); Some (mkControls e (stopChanClosed c)).

Definition StopControls (c : Controls) : option Controls :=
  if negb (running (engine c)) then Some c
  else if stopChanClosed c then None
  else Some (mkControls (Stop (engine c)) true).

(** ** The moving-average crossover strategy
    ([internal/strategies], [MovingAverageStrategy])

    [IntPart] rescales the decimal to exponent 0, which truncates toward
    zero, and takes the coefficient as an [int64], keeping its low 64 bits.
    The constants are [decimal.NewFromFloat] of 0.95, 2, 1.0, 100 and 3.0. *)

Definition IntPart (d : Decimal) : Z := wrap64 (value (rescale d 0)).

Module MovingAverageStrategy.

Record t : Type := mk {
  BaseStrategy : StrategyConfig.t;
  shortPeriod : Z;
  longPeriod : Z;
  signalPeriod : Z
}.

Definition NewMovingAverageStrategy (config : StrategyConfig.t) : t :=
  mk config 10 30 9.

Section WithFloats.

Variable float_sqrt : Decimal -> Decimal.

Variable s : t.

Definition GetConfig : StrategyConfig.t := BaseStrategy s.

Definition calculateSMA (symbol : string) (period : Z) (portfolio : Portfolio.t)
  : option Decimal :=
  if Z.of_nat (length (Portfolio.TradeHistory portfolio)) <? period then Some Zero
  else
    let symbolTrades := getTradesForSymbol symbol (Portfolio.TradeHistory portfolio) in
    if Z.of_nat (length symbolTrades) <? period then Some Zero
    else
      let prices :=
        Trade.Price <$> drop (Z.to_nat (Z.of_nat (length symbolTrades) - period))
                             symbolTrades in
      let sum := fold_left Add prices Zero in
      Div sum (NewFromInt (Z.of_nat (length prices))).

Definition calculateOptimalQuantity (price : Decimal) (portfolio : Portfolio.t)
  : option Z :=
  let availableCash := Mul (Portfolio.Cash portfolio) (New 95 (-2)) in
  ratio ← Div availableCash price;
  let maxQuantity := IntPart ratio in
  if maxQuantity <=? 0 then Some 0
  else
    let maxOrderValue := StrategyConfig.MaxOrderSize GetConfig in
    ratioBySize ← Div maxOrderValue price;
    let maxQuantityBySize := IntPart ratioBySize in
    Some (if maxQuantity >? maxQuantityBySize then maxQuantityBySize else maxQuantity).

Definition calculateConfidence (shortMA longMA currentPrice signalMA : Decimal)
  : option Decimal :=
  maRatio ← Div (Sub shortMA longMA) longMA;
  let maSpread := Abs maRatio in
  priceRatio ← Div (Sub currentPrice signalMA) signalMA;
  let priceSpread := Abs priceRatio in
  confidence ← Div (Add maSpread priceSpread) (New 2 0);
  if GreaterThan confidence (New 1 0) then Some (New 1 0) else Some confidence.

(** The order carries the symbol, the quantity and the price; its other
    fields are the zero values. *)
Definition calculatePositionRisk (symbol : string) (quantity : Z) (price : Decimal)
    (portfolio : Portfolio.t) : option (Error + RiskMetrics.t) :=
  let order := Order.mk "" symbol "" "" quantity price Unset "" "" RiskMetrics.empty in
  BaseStrategy.CalculateRisk float_sqrt GetConfig order portfolio.

(** [riskMetrics] is a pointer: [None] is [nil]. *)
Definition calculateRiskScore (riskMetrics : option RiskMetrics.t) : option Decimal :=
  match riskMetrics with
  | None => Some Zero
  | Some riskMetrics =>
      let volatilityScore := Sub (New 1 0) (RiskMetrics.Volatility riskMetrics) in
      varShare ← Div (RiskMetrics.VaR95 riskMetrics) (New 1 2);
      let varScore := Sub (New 1 0) varShare in
      sharpeScore ← Div (RiskMetrics.SharpeRatio riskMetrics) (New 2 0);
      let sharpeScore :=
        if GreaterThan sharpeScore (New 1 0) then New 1 0 else sharpeScore in
      Div (Add (Add volatilityScore varScore) sharpeScore) (New 3 0)
  end.

Definition calculateExpectedReturn (shortMA longMA currentPrice : Decimal)
  : option Decimal :=
  maRatio ← Div shortMA longMA;
  priceRatio ← Div currentPrice longMA;
  half ← Div (Add maRatio priceRatio) (New 2 0);
  Some (Sub half (New 1 0)).

Definition generateSignal (shortMA longMA signalMA currentPrice : Decimal) : string :=
  if GreaterThan shortMA longMA && GreaterThan currentPrice signalMA then "strong_buy"
  else if LessThan shortMA longMA && LessThan currentPrice signalMA then "strong_sell"
  else if GreaterThan shortMA longMA then "weak_buy"
  else "weak_sell".

(** The action, the quantity and the confidence [analyzeSymbol] settles on
    before it looks at the risk; the three start as the zero values. *)
Definition decide_action (shortMA longMA signalMA currentPrice : Decimal)
    (held : option Position.t) (portfolio : Portfolio.t)
  : option (string * Z * Decimal) :=
  if GreaterThan shortMA longMA && GreaterThan currentPrice signalMA then
    if match held with
       | None => true
       | Some position => Position.Quantity position <=? 0
       end
    then
      quantity ← calculateOptimalQuantity currentPrice portfolio;
      confidence ← calculateConfidence shortMA longMA currentPrice signalMA;
      Some ("buy", quantity, confidence)
    else Some ("", 0, Unset)
  else if LessThan shortMA longMA && LessThan currentPrice signalMA then
    match held with
    | Some position =>
        if 0 <? Position.Quantity position then
          confidence ← calculateConfidence longMA shortMA signalMA currentPrice;
          Some ("sell", Position.Quantity position, confidence)
        else Some ("", 0, Unset)
    | None => Some ("", 0, Unset)
    end
  else Some ("", 0, Unset).

(** [analyzeSymbol] returns the signal ([None] is [nil]), the confidence
    and the error ([None] is [nil]); the whole is [None] when it panics. *)
Definition analyzeSymbol (symbol : string) (marketData : MarketData.t)
    (portfolio : Portfolio.t)
  : option (option AlgorithmResult.t * Decimal * option Error) :=
  shortMA ← calculateSMA symbol (shortPeriod s) portfolio;
  longMA ← calculateSMA symbol (longPeriod s) portfolio;
  signalMA ← calculateSMA symbol (signalPeriod s) portfolio;
  if IsZero shortMA || IsZero longMA || IsZero signalMA
  then Some (None, Zero, Some ErrInvalidMarketData)
  else
    let currentPrice := MarketData.Price marketData in
    let held := Portfolio.Positions portfolio !! symbol in
    decision ← decide_action shortMA longMA signalMA currentPrice held portfolio;
    let '(action, quantity, confidence) := decision in
    if String.eqb action "" || (quantity <=? 0) then Some (None, Zero, None)
    else
      risk ← calculatePositionRisk symbol quantity currentPrice portfolio;
      match risk with
      | inl err => Some (None, Zero, Some err)
      | inr riskMetrics =>
          let signal := generateSignal shortMA longMA signalMA currentPrice in
          riskScore ← calculateRiskScore (Some riskMetrics);
          expectedReturn ← calculateExpectedReturn shortMA longMA currentPrice;
          Some (Some (AlgorithmResult.mk (StrategyConfig.ID GetConfig) symbol action
                        quantity currentPrice confidence signal riskScore
                        expectedReturn),
                confidence, None)
      end.

(** The loop of [Execute] over the market data, from the best signal and
    the highest confidence so far. *)
Fixpoint bestSignalLoop (portfolio : Portfolio.t)
    (entries : list (string * MarketData.t))
    (bestSignal : option AlgorithmResult.t) (maxConfidence : Decimal)
  : option (option AlgorithmResult.t) :=
  match entries with
  | [] => Some bestSignal
  | (symbol, data) :: entries' =>
      analysis ← analyzeSymbol symbol data portfolio;
      let '(signal, confidence, err) := analysis in
      match err with
      | Some _ => bestSignalLoop portfolio entries' bestSignal maxConfidence
      | None =>
          if GreaterThan confidence maxConfidence
          then bestSignalLoop portfolio entries' signal confidence
          else bestSignalLoop portfolio entries' bestSignal maxConfidence
      end
  end.

(** [Execute], the market data visited in the order of [entries]. *)
Definition Execute_over (entries : list (string * MarketData.t))
    (portfolio : Portfolio.t) : option (Error + option AlgorithmResult.t) :=
  if negb (StrategyConfig.Enabled GetConfig) then Some (inl ErrStrategyDisabled)
  else
    bestSignal ← bestSignalLoop portfolio entries None Zero;
    Some (inr bestSignal).

Definition Execute (portfolio : Portfolio.t) (marketData : gmap string MarketData.t)
  : option (Error + option AlgorithmResult.t) :=
  Execute_over (map_to_list marketData) portfolio.

End WithFloats.
End MovingAverageStrategy.

(** The sum of the prices of a list of trades, as a rational. *)
Definition priceSum (trades : list Trade.t) : Q :=
  fold_right (fun trade acc => (toQ (Trade.Price trade) + acc)%Q) 0%Q trades.

(** The order [createOrderFromResult] makes of a signal. *)
Definition orderOf (orderID : string) (result : AlgorithmResult.t) : Order.t :=
  Order.mk orderID (AlgorithmResult.Symbol result)
           (if String.eqb (AlgorithmResult.Action result) "buy"
            then OrderSideBuy else OrderSideSell)
           OrderTypeMarket (AlgorithmResult.Quantity result)
           (AlgorithmResult.Price result) Unset OrderStatusPending
           (AlgorithmResult.StrategyID result) RiskMetrics.empty.

(** ** The fixtures of the strategy's tests, and a rising market

    [createTestPortfolio], [createTestPortfolioWithHistory] and
    [createTestMarketData]: three AAPL trades at 150, 152 and 155 whose
    other fields are the zero values. *)

Definition testTrade (tradeID symbol : string) (price : Decimal) : Trade.t :=
  Trade.mk tradeID "" symbol "" 0 price Unset "" RiskMetrics.empty.

Definition testPortfolio : Portfolio.t :=
  Portfolio.mk "test_portfolio" (New 1 5) ∅ (New 1 5) Zero Zero Zero
               PortfolioRiskMetrics.empty [] [].

Definition testPortfolioWithHistory : Portfolio.t :=
  Portfolio.set_TradeHistory
    [testTrade "trade1" "AAPL" (New 15 1); testTrade "trade2" "AAPL" (New 152 0);
     testTrade "trade3" "AAPL" (New 155 0)]
    testPortfolio.

Definition testMarketData : gmap string MarketData.t :=
  {[ "AAPL" := MarketData.mk "AAPL" (New 155 0) 1000000 (New 157 0) (New 153 0)
                             (New 154 0) (New 155 0);
     "GOOGL" := MarketData.mk "GOOGL" (New 28 2) 500000 (New 281 1) (New 279 1)
                              (New 2795 0) (New 28 2) ]}.

(** Thirty AAPL trades, twenty at 100 and then ten at 110, and a tick that
    prices AAPL at 120: the short average lies above the long one and the
    price above the signal average. *)
Definition risingPortfolio : Portfolio.t :=
  Portfolio.set_TradeHistory
    (replicate 20 (testTrade "trade" "AAPL" (New 100 0))
     ++ replicate 10 (testTrade "trade" "AAPL" (New 110 0)))
    testPortfolio.

Definition risingTick : MarketData.t :=
  MarketData.mk "AAPL" (New 120 0) 1000000 (New 121 0) (New 119 0)
                (New 119 0) (New 120 0).

(** The strategy [main.go] registers. *)
Definition movingAvgStrategy : MovingAverageStrategy.t :=
  MovingAverageStrategy.NewMovingAverageStrategy movingAvgConfig.

(** ** A turn of the strategy executor ([executeStrategies])

    The engine copies the registered strategies into a slice, in the order
    the map yields them, and calls [Execute] on each enabled one with the
    portfolio and the market data; an error is logged and passed over, a
    signal becomes an order on the order queue. [Execute] is the method of
    the strategy, dispatched on its value; [generateOrderID] reads the
    clock, and [n] counts the orders the turn has made. *)

Section ExecuteStrategies.

Variable Execute :
  Strategy -> Portfolio.t -> gmap string MarketData.t ->
  option (Error + option AlgorithmResult.t).

Variable generateOrderID : nat -> string.

Fixpoint executeLoop (registered : list Strategy) (portfolio : Portfolio.t)
    (marketData : gmap string MarketData.t) (n : nat) (e : TradingEngine)
  : option TradingEngine :=
  match registered with
  | [] => Some e
  | strategy :: registered' =>
      if negb (IsEnabled strategy)
      then executeLoop registered' portfolio marketData n e
      else
        outcome ← Execute strategy portfolio marketData;
        match outcome with
        | inl _ => executeLoop registered' portfolio marketData n e
        | inr None => executeLoop registered' portfolio marketData n e
        | inr (Some result) =>
            executeLoop registered' portfolio marketData (S n)
                        (createOrderFromResult (generateOrderID n) result e)
        end
  end.

Definition executeStrategies_over (registered : list Strategy) (e : TradingEngine)
  : option TradingEngine :=
  executeLoop registered (portfolio e) (marketData e) 0 e.

Definition executeStrategies (e : TradingEngine) : option TradingEngine :=
  executeStrategies_over (map_to_list (strategies e)).*2 e.

End ExecuteStrategies.

(** Runs in which the strategy executor turns by [executeStrategies]: the
    steps of [step], the signals coming from the [Execute] of the
    registered strategies. *)
Inductive turn
    (Execute : Strategy -> Portfolio.t -> gmap string MarketData.t ->
               option (Error + option AlgorithmResult.t))
  : TradingEngine -> TradingEngine -> Prop :=
  | turn_AddStrategy strategy e :
      turn Execute e (AddStrategy strategy e)
  | turn_RemoveStrategy strategyID e :
      turn Execute e (RemoveStrategy strategyID e)
  | turn_UpdateMarketData symbol data e :
      turn Execute e (UpdateMarketData symbol data e)
  | turn_Start e e' :
      Start e = Some e' -> turn Execute e e'
  | turn_Stop e :
      turn Execute e (Stop e)
  | turn_strategyExecutor generateOrderID registered e e' :
      running e = true ->
      registered ≡ₚ (map_to_list (strategies e)).*2 ->
      executeStrategies_over Execute generateOrderID registered e = Some e' ->
      turn Execute e e'
  | turn_orderProcessor tradeID order rest order' e e' :
      running e = true ->
      orderQueue e = order :: rest ->
      processOrder tradeID order (set_orderQueue rest e) = Some (order', e') ->
      turn Execute e e'
  | turn_tradeProcessor trade rest e :
      running e = true ->
      tradeQueue e = trade :: rest ->
      turn Execute e (processTrade trade (set_tradeQueue rest e))
  | turn_portfolioUpdater entries e :
      running e = true ->
      enumerates entries (Portfolio.Positions (portfolio e)) ->
      turn Execute e (updatePortfolio_over entries e)
  | turn_riskManager entries warned e :
      running e = true ->
      enumerates entries (Portfolio.Positions (portfolio e)) ->
      riskSweep entries = Some warned ->
      turn Execute e e.

(** Every registered strategy is a moving-average strategy over its own
    configuration, as in [main.go]; its [Execute] visits the market data in
    some order. *)
Definition crossover_dispatch (float_sqrt : Decimal -> Decimal)
    (Execute : Strategy -> Portfolio.t -> gmap string MarketData.t ->
               option (Error + option AlgorithmResult.t)) : Prop :=
  forall strategy p md,
    exists entries,
      entries ≡ₚ map_to_list md /\
      Execute strategy p md =
        MovingAverageStrategy.Execute_over
          float_sqrt (MovingAverageStrategy.NewMovingAverageStrategy (GetConfig strategy))
          entries p.

(** The dispatch that visits the market data in the order of the map. *)
Definition crossoverExecute (float_sqrt : Decimal -> Decimal) (strategy : Strategy)
    (p : Portfolio.t) (md : gmap string MarketData.t)
  : option (Error + option AlgorithmResult.t) :=
  MovingAverageStrategy.Execute
    float_sqrt (MovingAverageStrategy.NewMovingAverageStrategy (GetConfig strategy)) p md.

(** ** The market simulator ([internal/simulator/market_simulator.go])

    The simulator draws from [math/rand]: the draws are arguments here
    ([randomFactor] and [trendChange] as the decimals [NewFromFloat] makes of
    them, [volume] and [volumeChange] as integers). The loops of
    [updatePrices], [updateTrends] and [updateVolumes] run one body per
    symbol; the bodies are [priceTick], [trendTick] and [volumeTick]. *)

Definition LessThanOrEqual (d d2 : Decimal) : bool :=
  match Cmp d d2 with Gt => false | _ => true end.

Definition IsPositive (d : Decimal) : bool := Sign d =? 1.

Module MarketSimulator.

Record SymbolData : Type := mkSymbolData {
  Symbol : string;
  BasePrice : Decimal;
  CurrentPrice : Decimal;
  Volatility : Decimal;
  Trend : Decimal;
  Volume : Z;
  High : Decimal;
  Low : Decimal;
  Open : Decimal;
  Close : Decimal
}.

Definition AddSymbol (symbol : string) (basePrice volatility : Decimal) (volume : Z)
    (symbols : gmap string SymbolData) : gmap string SymbolData :=
  <[symbol := mkSymbolData symbol basePrice basePrice volatility Zero volume
                           basePrice basePrice basePrice basePrice]> symbols.

Definition calculatePriceChange (randomFactor : Decimal) (data : SymbolData)
  : option Decimal :=
  let volatilityImpact := Mul (Volatility data) randomFactor in
  let trendImpact := Mul (Trend data) (New 1 (-1)) in
  let priceChange := Add volatilityImpact trendImpact in
  priceChangePercent ← Div priceChange (CurrentPrice data);
  let priceChangePercent :=
    if GreaterThan (Abs priceChangePercent) (New 1 (-1)) then
      if IsPositive priceChangePercent then New 1 (-1) else New (-1) (-1)
    else priceChangePercent in
  Some (Mul (CurrentPrice data) priceChangePercent).

(** One symbol of [updatePrices]: the record as the tick leaves it and the
    market data offered on the update channel. *)
Definition priceTick (symbol : string) (randomFactor : Decimal) (data : SymbolData)
  : option (SymbolData * MarketData.t) :=
  priceChange ← calculatePriceChange randomFactor data;
  let newPrice := Add (CurrentPrice data) priceChange in
  let newPrice := if LessThanOrEqual newPrice Zero then New 1 (-2) else newPrice in
  let high := if GreaterThan newPrice (High data) then newPrice else High data in
  let low := if LessThan newPrice (Low data) then newPrice else Low data in
  let data' :=
    mkSymbolData (Symbol data) (BasePrice data) newPrice (Volatility data)
                 (Trend data) (Volume data) high low (CurrentPrice data) newPrice in
  Some (data',
        MarketData.mk symbol newPrice (Volume data') (High data') (Low data')
                      (Open data') (Close data')).

(** One symbol of [updateVolumes]. *)
Definition volumeTick (volumeChange : Z) (data : SymbolData) : SymbolData :=
  let newVolume := wrap64 (Volume data + volumeChange) in
  let newVolume := if newVolume <? 10000 then 10000 else newVolume in
  mkSymbolData (Symbol data) (BasePrice data) (CurrentPrice data) (Volatility data)
               (Trend data) newVolume (High data) (Low data) (Open data) (Close data).

(** One symbol of [updateTrends]. *)
Definition trendTick (trendChange : Decimal) (data : SymbolData) : SymbolData :=
  let trend := Add (Trend data) trendChange in
  let trend :=
    if GreaterThan (Abs trend) (New 5 (-2)) then
      if IsPositive trend then New 5 (-2) else New (-5) (-2)
    else trend in
  mkSymbolData (Symbol data) (BasePrice data) (CurrentPrice data) (Volatility data)
               trend (Volume data) (High data) (Low data) (Open data) (Close data).

Definition GetSymbolData (symbol : string) (symbols : gmap string SymbolData)
  : option SymbolData :=
  symbols !! symbol.

Definition SetVolatility (symbol : string) (volatility : Decimal)
    (symbols : gmap string SymbolData) : gmap string SymbolData :=
  match symbols !! symbol with
  | Some data =>
      <[symbol := mkSymbolData (Symbol data) (BasePrice data) (CurrentPrice data)
                               volatility (Trend data) (Volume data) (High data)
                               (Low data) (Open data) (Close data)]> symbols
  | None => symbols
  end.

Definition SetTrend (symbol : string) (trend : Decimal)
    (symbols : gmap string SymbolData) : gmap string SymbolData :=
  match symbols !! symbol with
  | Some data =>
      <[symbol := mkSymbolData (Symbol data) (BasePrice data) (CurrentPrice data)
                               (Volatility data) trend (Volume data) (High data)
                               (Low data) (Open data) (Close data)]> symbols
  | None => symbols
  end.


End MarketSimulator.

(** AAPL as [setupSymbols] adds it: 150 with a volatility of 0.02. *)
Definition aaplSymbolData : MarketSimulator.SymbolData :=
  MarketSimulator.mkSymbolData "AAPL" (New 15 1) (New 15 1) (New 2 (-2)) Zero 500000
                               (New 15 1) (New 15 1) (New 15 1) (New 15 1).

(** * Properties *)

(** ** Wrap-around *)


Lemma wrap64_range z : in_int64 (wrap64 z).
Proof.
  unfold in_int64, wrap64, min_int64, max_int64.
  pose proof (Z.mod_pos_bound (z + 2 ^ 63) (2 ^ 64) ltac:(lia)). lia.
Qed.

(** ** Decimals denote rationals *)

Section DecimalFacts.
Local Open Scope Q_scope.
#[local] Arguments pow10 : simpl never.

Lemma pow10_pos e : 0 < pow10 e.
Proof. unfold pow10. apply Qpower_0_lt. reflexivity. Qed.

Lemma pow10_add a b : pow10 (a + b) == pow10 a * pow10 b.
Proof. unfold pow10. apply Qpower_plus. discriminate. Qed.

Lemma pow10_Z k : (0 <= k)%Z -> inject_Z (10 ^ k) == pow10 k.
Proof. intros Hk. unfold pow10. now rewrite Zpower_Qpower. Qed.

Lemma toQ_scale v k e :
  (0 <= k)%Z -> toQ (New (v * 10 ^ k) e) == inject_Z v * pow10 (k + e).
Proof.
  intros Hk. unfold toQ; simpl.
  rewrite inject_Z_mult, pow10_Z, pow10_add by assumption. ring.
Qed.

Lemma rescale_down d e :
  (e <= exp d)%Z -> exp (rescale d e) = e /\ toQ (rescale d e) == toQ d.
Proof.
  intros He. unfold rescale.
  destruct (Z.eqb_spec (exp d) e) as [->|Hne]; [split; reflexivity|].
  destruct (Z.gtb_spec e (exp d)) as [Hgt|_]; [lia|].
  split; [reflexivity|].
  rewrite toQ_scale by lia. unfold toQ.
  replace (Z.abs (e - exp d) + e)%Z with (exp d) by lia. reflexivity.
Qed.

Lemma RescalePair_spec d1 d2 :
  exp (fst (RescalePair d1 d2)) = Z.min (exp d1) (exp d2) /\
  exp (snd (RescalePair d1 d2)) = Z.min (exp d1) (exp d2) /\
  toQ (fst (RescalePair d1 d2)) == toQ d1 /\
  toQ (snd (RescalePair d1 d2)) == toQ d2.
Proof.
  unfold RescalePair.
  destruct (Z.eqb_spec (exp d1) (exp d2)) as [Heq|Hne]; simpl.
  { repeat split; try reflexivity; lia. }
  destruct (Z.eqb_spec (Z.min (exp d1) (exp d2)) (exp d1)) as [Hmin|Hmin]; simpl.
  - destruct (rescale_down d2 (Z.min (exp d1) (exp d2))) as [H1 H2]; [lia|].
    repeat split; try assumption; try reflexivity; lia.
  - destruct (rescale_down d1 (Z.min (exp d1) (exp d2))) as [H1 H2]; [lia|].
    repeat split; try assumption; try reflexivity; lia.
Qed.

Lemma toQ_Add d d2 : toQ (Add d d2) == toQ d + toQ d2.
Proof.
  unfold Add. destruct (RescalePair_spec d d2) as (H1 & H2 & H3 & H4).
  destruct (RescalePair d d2) as [rd rd2]; simpl in *.
  rewrite <- H3, <- H4. unfold toQ; simpl.
  rewrite inject_Z_plus, H1, H2. ring.
Qed.

Lemma toQ_Sub d d2 : toQ (Sub d d2) == toQ d - toQ d2.
Proof.
  unfold Sub. destruct (RescalePair_spec d d2) as (H1 & H2 & H3 & H4).
  destruct (RescalePair d d2) as [rd rd2]; simpl in *.
  rewrite <- H3, <- H4. unfold toQ; simpl.
  unfold Z.sub. rewrite inject_Z_plus, inject_Z_opp, H1, H2. ring.
Qed.

Lemma toQ_Mul d d2 : toQ (Mul d d2) == toQ d * toQ d2.
Proof.
  unfold Mul, toQ; simpl. rewrite inject_Z_mult, pow10_add. ring.
Qed.

Lemma toQ_NewFromInt n : toQ (NewFromInt n) == inject_Z n.
Proof. unfold toQ, NewFromInt, pow10; simpl. ring. Qed.

Lemma toQ_Zero : toQ Zero == 0.
Proof. unfold toQ, Zero; simpl. ring. Qed.

Lemma toQ_value_0 d : value d = 0%Z -> toQ d == 0.
Proof. unfold toQ. intros ->. ring. Qed.

Lemma toQ_0_value d : toQ d == 0 -> value d = 0%Z.
Proof.
  unfold toQ. intros H.
  apply Qmult_integral in H as [H|H].
  - now apply (inject_Z_injective (value d) 0) in H.
  - pose proof (pow10_pos (exp d)) as Hp. rewrite H in Hp. discriminate.
Qed.

Lemma compare_same_exp d d2 :
  exp d = exp d2 -> (value d ?= value d2)%Z = (toQ d ?= toQ d2).
Proof.
  intros He. unfold toQ. rewrite He.
  pose proof (pow10_pos (exp d2)) as Hp.
  symmetry. destruct (Z.compare_spec (value d) (value d2)) as [Heq|Hlt|Hgt].
  - apply Qeq_alt. now rewrite Heq.
  - apply Qlt_alt. apply Qmult_lt_r; [assumption|]. now rewrite <- Zlt_Qlt.
  - apply Qgt_alt. apply Qmult_lt_r; [assumption|]. now rewrite <- Zlt_Qlt.
Qed.

Lemma Cmp_toQ d d2 : Cmp d d2 = (toQ d ?= toQ d2).
Proof.
  unfold Cmp.
  destruct (Z.eqb_spec (exp d) (exp d2)) as [Heq|Hne].
  - now apply compare_same_exp.
  - destruct (RescalePair_spec d d2) as (H1 & H2 & H3 & H4).
    destruct (RescalePair d d2) as [rd rd2]; simpl in *.
    rewrite compare_same_exp by congruence. now rewrite H3, H4.
Qed.

Lemma LessThan_toQ d d2 : LessThan d d2 = true <-> toQ d < toQ d2.
Proof.
  unfold LessThan. rewrite Cmp_toQ, Qlt_alt.
  destruct (toQ d ?= toQ d2); split; congruence.
Qed.

Lemma GreaterThan_toQ d d2 : GreaterThan d d2 = true <-> toQ d2 < toQ d.
Proof.
  unfold GreaterThan. rewrite Cmp_toQ, (Qgt_alt (toQ d) (toQ d2)).
  destruct (toQ d ?= toQ d2); split; congruence.
Qed.

Lemma LessThan_false d d2 : LessThan d d2 = false <-> toQ d2 <= toQ d.
Proof.
  pose proof (LessThan_toQ d d2) as H. split.
  - intros Hf. apply Qnot_lt_le. rewrite <- H. congruence.
  - intros Hle. destruct (LessThan d d2); [|reflexivity].
    exfalso. apply (Qle_not_lt _ _ Hle). now apply H.
Qed.

Lemma GreaterThan_false d d2 : GreaterThan d d2 = false <-> toQ d <= toQ d2.
Proof.
  pose proof (GreaterThan_toQ d d2) as H. split.
  - intros Hf. apply Qnot_lt_le. rewrite <- H. congruence.
  - intros Hle. destruct (GreaterThan d d2); [|reflexivity].
    exfalso. apply (Qle_not_lt _ _ Hle). now apply H.
Qed.

Lemma IsZero_value d : IsZero d = true <-> value d = 0%Z.
Proof.
  unfold IsZero, Sign. rewrite Z.eqb_eq. apply Z.sgn_null_iff.
Qed.

Lemma IsZero_toQ d : IsZero d = true <-> toQ d == 0.
Proof.
  rewrite IsZero_value. split; [apply toQ_value_0 | apply toQ_0_value].
Qed.

Lemma Div_None d d2 : Div d d2 = None <-> IsZero d2 = true.
Proof.
  unfold Div, DivRound, QuoRem, IsZero.
  destruct (Sign d2 =? 0)%Z; [tauto|].
  destruct (exp d - exp d2 - - DivisionPrecision <? 0)%Z; simpl;
    match goal with |- context [Cmp ?a ?b] => destruct (Cmp a b) end;
    try match goal with |- context [(?a <? ?b)%Z] => destruct (a <? b)%Z end;
    split; discriminate.
Qed.

Lemma Div_is_Some d d2 : IsZero d2 = false -> exists q, Div d d2 = Some q.
Proof.
  intros Hz. destruct (Div d d2) as [q|] eqn:Hd; [now exists q|].
  apply Div_None in Hd. congruence.
Qed.

(** *** Division rounds to sixteen places *)

Lemma round_quot (aa bb : Z) :
  bb <> 0%Z ->
  let q0 := Z.quot aa bb in
  let r := Z.rem aa bb in
  let qi := if (Z.abs r * 2 <? Z.abs bb)%Z then q0
            else if (Z.sgn aa * Z.sgn bb <? 0)%Z then (q0 - 1)%Z else (q0 + 1)%Z in
  (2 * Z.abs (qi * bb - aa) <= Z.abs bb)%Z.
Proof.
  intros Hb q0 r qi.
  pose proof (Z.quot_rem' aa bb) as Hqr. fold q0 r in Hqr.
  pose proof (Z.rem_bound_abs aa bb Hb) as Habs. fold r in Habs.
  pose proof (Z.rem_sign_mul aa bb Hb) as Hsign. fold r in Hsign.
  subst qi.
  destruct (Z.ltb_spec (Z.abs r * 2) (Z.abs bb)) as [Hlt|Hge].
  - replace (q0 * bb - aa)%Z with (- r)%Z by lia. lia.
  - destruct (Z.ltb_spec (Z.sgn aa * Z.sgn bb) 0) as [Hneg|Hpos].
    + replace ((q0 - 1) * bb - aa)%Z with (- r - bb)%Z by lia.
      assert (aa <> 0%Z) by (intros ->; simpl in Hneg; lia).
      destruct (Z.sgn_spec aa) as [[? Hs]|[[? Hs]|[? Hs]]];
      destruct (Z.sgn_spec bb) as [[? Hs']|[[? Hs']|[? Hs']]];
        rewrite Hs, Hs' in Hneg; try lia; nia.
    + replace ((q0 + 1) * bb - aa)%Z with (bb - r)%Z by lia.
      destruct (Z.sgn_spec aa) as [[? Hs]|[[? Hs]|[? Hs]]];
      destruct (Z.sgn_spec bb) as [[? Hs']|[[? Hs']|[? Hs']]];
        rewrite Hs, Hs' in Hpos; try lia; try nia;
        (assert (r = 0%Z) by (subst r; subst aa; apply Z.rem_0_l; assumption); lia).
Qed.

Lemma pow10_nonzero e : ~ pow10 e == 0.
Proof. intros H. pose proof (pow10_pos e) as Hp. rewrite H in Hp. discriminate. Qed.

Lemma sgn_scale v k : (0 <= k)%Z -> Z.sgn (v * 10 ^ k) = Z.sgn v.
Proof.
  intros Hk. rewrite Z.sgn_mul.
  rewrite (Z.sgn_pos (10 ^ k)) by (apply Z.pow_pos_nonneg; lia). lia.
Qed.

(** The integers [QuoRem] divides: [d / d2 = (aa / bb) * 10^-16]. *)
Lemma QuoRem_spec d d2 q r :
  QuoRem d d2 DivisionPrecision = Some (q, r) ->
  exists aa bb : Z,
    bb <> 0%Z /\ Z.sgn aa = Z.sgn (value d) /\ Z.sgn bb = Z.sgn (value d2) /\
    q = New (Z.quot aa bb) (-16) /\ value r = Z.rem aa bb /\
    toQ d * inject_Z bb == toQ d2 * inject_Z aa * pow10 (-16) /\
    Cmp (New (Z.abs (value r) * 2) (exp r + DivisionPrecision)) (Abs d2)
      = (Z.abs (Z.rem aa bb) * 2 ?= Z.abs bb)%Z.
Proof.
  unfold QuoRem, DivisionPrecision, Sign.
  destruct (Z.eqb_spec (Z.sgn (value d2)) 0) as [|Hb]; [discriminate|].
  assert (value d2 <> 0%Z) as Hb' by (intros H; apply Hb; now rewrite H).
  destruct (Z.ltb_spec (exp d - exp d2 - - (16)) 0) as [He|He];
    intros [= <- <-]; simpl.
  - exists (value d), (value d2 * 10 ^ (- (exp d - exp d2 - - (16))))%Z.
    assert (0 <= - (exp d - exp d2 - - (16)))%Z as Hk by lia.
    split; [apply Z.neq_mul_0; split; [assumption | apply Z.pow_nonzero; lia]|].
    split; [reflexivity|]. split; [now apply sgn_scale|].
    split; [reflexivity|]. split; [reflexivity|]. split.
    + rewrite inject_Z_mult, pow10_Z by assumption. unfold toQ.
      replace (exp d) with (exp d2 + (exp d - exp d2 - - (16)) + -16)%Z at 1 by lia.
      rewrite !pow10_add.
      assert (pow10 (- (exp d - exp d2 - - (16)))
                == / pow10 (exp d - exp d2 - - (16))) as Hinv
        by (unfold pow10; apply Qpower_opp).
      rewrite Hinv. field. apply pow10_nonzero.
    + rewrite Cmp_toQ.
      set (rv := (Z.abs (Z.rem (value d)
                     (value d2 * 10 ^ (- (exp d - exp d2 - - (16))))) * 2)%Z).
      set (bb := (value d2 * 10 ^ (- (exp d - exp d2 - - (16))))%Z).
      assert (toQ (Abs d2) == toQ (New (Z.abs bb) (exp d + 16))) as Habs.
      { unfold bb. rewrite Z.abs_mul, (Z.abs_eq (10 ^ _)), toQ_scale
          by (try apply Z.pow_nonneg; lia).
        unfold toQ, Abs; simpl.
        replace (- (exp d - exp d2 - - (16)) + (exp d + 16))%Z with (exp d2) by lia.
        reflexivity. }
      rewrite Habs. symmetry.
      now apply (compare_same_exp (New rv (exp d + 16)) (New (Z.abs bb) (exp d + 16))).
  - exists (value d * 10 ^ (exp d - exp d2 - - (16)))%Z, (value d2).
    split; [assumption|]. split; [now apply sgn_scale|].
    split; [reflexivity|]. split; [reflexivity|]. split; [reflexivity|]. split.
    + rewrite inject_Z_mult, pow10_Z by assumption. unfold toQ.
      replace (exp d) with (exp d2 + (exp d - exp d2 - - (16)) + -16)%Z at 1 by lia.
      rewrite !pow10_add. ring.
    + unfold Cmp, Abs. simpl.
      replace (- (16) + exp d2 + 16)%Z with (exp d2) by lia.
      now rewrite Z.eqb_refl.
Qed.

Lemma Div_spec d d2 q :
  Div d d2 = Some q ->
  exp q = (-16)%Z /\
  exists aa bb : Z,
    bb <> 0%Z /\
    toQ d * inject_Z bb == toQ d2 * inject_Z aa * pow10 (-16) /\
    (2 * Z.abs (value q * bb - aa) <= Z.abs bb)%Z.
Proof.
  unfold Div, DivRound.
  destruct (QuoRem d d2 DivisionPrecision) as [[q0 r]|] eqn:Hqr; [|discriminate].
  apply QuoRem_spec in Hqr as (aa & bb & Hbb & Hsa & Hsb & -> & Hr & Hratio & Hcmp).
  rewrite Hcmp, <- Hsa, <- Hsb.
  pose proof (round_quot aa bb Hbb) as Hround. cbv zeta in Hround.
  unfold Z.ltb at 1 in Hround.
  destruct (Z.abs (Z.rem aa bb) * 2 ?= Z.abs bb)%Z;
    try destruct (Z.sgn aa * Z.sgn bb <? 0)%Z;
    intros [= <-]; (split; [reflexivity|]);
    exists aa, bb; (split; [assumption|]); (split; [assumption|]); exact Hround.
Qed.

(** [Div] is the quotient up to half a unit in the sixteenth place. *)
Lemma Div_error d d2 q :
  Div d d2 = Some q ->
  Qabs (toQ q - toQ d / toQ d2) <= (1 # 2) * pow10 (-16).
Proof.
  intros Hdiv.
  assert (~ toQ d2 == 0) as Hd2.
  { intros H0. apply IsZero_toQ in H0. apply (Div_None d) in H0. congruence. }
  apply Div_spec in Hdiv as (Hexp & aa & bb & Hbb & Hratio & Hround).
  assert (~ inject_Z bb == 0) as Hbb'.
  { intros H0. apply (inject_Z_injective bb 0) in H0. contradiction. }
  assert (toQ q - toQ d / toQ d2
          == inject_Z (value q * bb - aa) / inject_Z bb * pow10 (-16)) as ->.
  { assert (toQ d == toQ d2 * inject_Z aa * pow10 (-16) / inject_Z bb) as ->.
    { rewrite <- Hratio. field. assumption. }
    unfold toQ at 1. rewrite Hexp.
    unfold Z.sub. rewrite inject_Z_plus, inject_Z_mult, inject_Z_opp.
    field. split; assumption. }
  rewrite Qabs_Qmult, (Qabs_pos (pow10 (-16))) by (apply Qlt_le_weak, pow10_pos).
  apply Qmult_le_compat_r; [|apply Qlt_le_weak, pow10_pos].
  unfold Qdiv. rewrite Qabs_Qmult, Qabs_Qinv.
  change (Qabs (inject_Z (value q * bb - aa)))
    with (inject_Z (Z.abs (value q * bb - aa))).
  change (Qabs (inject_Z bb)) with (inject_Z (Z.abs bb)).
  assert (0 < inject_Z (Z.abs bb)) as Hpos.
  { rewrite <- (Zlt_Qlt 0). lia. }
  apply Qle_shift_div_r; [assumption|].
  rewrite Zle_Qle, inject_Z_mult in Hround.
  change (inject_Z 2) with 2 in Hround. lra.
Qed.

End DecimalFacts.

(** ** Order validation *)

Lemma toQ_notional order :
  (toQ (notional order) == toQ (Order.Price order) * inject_Z (Order.Quantity order))%Q.
Proof. unfold notional. now rewrite toQ_Mul, toQ_NewFromInt. Qed.

Ltac order_contradiction :=
  match goal with
  | H1 : (?a < ?b)%Q, H2 : (?b <= ?a)%Q |- _ => exact (False_ind _ (Qlt_not_le _ _ H1 H2))
  | H1 : (?a < ?b)%Z, H2 : (?b <= ?a)%Z |- _ => lia
  | H : ?x <> ?x |- _ => exact (False_ind _ (H eq_refl))
  end.

Ltac validate_case :=
  simpl; repeat split; intros;
  try discriminate; try assumption; try order_contradiction;
  try (exfalso; unfold OrderSideBuy, OrderSideSell in *; congruence);
  try (naive_solver (first [order_contradiction | lia | congruence])).

(** C3. [ValidateOrder] rejects with [InvalidQuantity] exactly when the
    quantity is not positive; otherwise with [OrderTooSmall] exactly when
    the notional (price x quantity) is below [MinOrderSize]; otherwise with
    [OrderTooLarge] exactly when it is above [MaxOrderSize]; otherwise a buy
    is rejected with [InsufficientFunds] exactly when the notional exceeds
    the cash, and a sell with [InsufficientPosition] exactly when the symbol
    is not held or less of it is held than ordered; otherwise the order is
    accepted. The order and the portfolio are left as they were. *)
Theorem ValidateOrder_cascade (config : StrategyConfig.t) (order : Order.t)
    (portfolio : Portfolio.t) :
  let result := BaseStrategy.ValidateOrder config order portfolio in
  let value := (toQ (Order.Price order) * inject_Z (Order.Quantity order))%Q in
  let minSize := toQ (StrategyConfig.MinOrderSize config) in
  let maxSize := toQ (StrategyConfig.MaxOrderSize config) in
  let held := Portfolio.Positions portfolio !! Order.Symbol order in
  (result = Some ErrInvalidQuantity <-> Order.Quantity order <= 0) /\
  (0 < Order.Quantity order ->
     (result = Some ErrOrderTooSmall <-> (value < minSize)%Q)) /\
  (0 < Order.Quantity order -> (minSize <= value)%Q ->
     (result = Some ErrOrderTooLarge <-> (maxSize < value)%Q)) /\
  (0 < Order.Quantity order -> (minSize <= value)%Q -> (value <= maxSize)%Q ->
     Order.Side order = OrderSideBuy ->
     (result = Some ErrInsufficientFunds <-> (toQ (Portfolio.Cash portfolio) < value)%Q)) /\
  (0 < Order.Quantity order -> (minSize <= value)%Q -> (value <= maxSize)%Q ->
     Order.Side order = OrderSideSell ->
     (result = Some ErrInsufficientPosition <->
        held = None \/
        exists position, held = Some position /\
                         Position.Quantity position < Order.Quantity order)) /\
  (result = None <->
     0 < Order.Quantity order /\ (minSize <= value)%Q /\ (value <= maxSize)%Q /\
     (Order.Side order = OrderSideBuy /\ (value <= toQ (Portfolio.Cash portfolio))%Q \/
      Order.Side order <> OrderSideBuy /\
      exists position, held = Some position /\
                       Order.Quantity order <= Position.Quantity position)) /\
  snd (BaseStrategy.ValidateOrder_body config (order, portfolio)) = (order, portfolio).
Proof.
  cbv zeta.
  unfold BaseStrategy.ValidateOrder, BaseStrategy.ValidateOrder_body,
    mthen, read_order, read_portfolio, mreturn; simpl.
  fold (notional order). rewrite <- (toQ_notional order).
  destruct (Z.leb_spec (Order.Quantity order) 0) as [Hq|Hq];
    [validate_case|].
  destruct (LessThan (notional order) (StrategyConfig.MinOrderSize config)) eqn:Hmin;
    [apply LessThan_toQ in Hmin; validate_case | apply LessThan_false in Hmin].
  destruct (GreaterThan (notional order) (StrategyConfig.MaxOrderSize config)) eqn:Hmax;
    [apply GreaterThan_toQ in Hmax; validate_case | apply GreaterThan_false in Hmax].
  destruct (String.eqb_spec (Order.Side order) OrderSideBuy) as [Hside|Hside].
  - destruct (LessThan (Portfolio.Cash portfolio) (notional order)) eqn:Hcash;
      [apply LessThan_toQ in Hcash | apply LessThan_false in Hcash]; validate_case.
  - destruct (Portfolio.Positions portfolio !! Order.Symbol order) as [position|] eqn:Hheld;
      [|validate_case].
    destruct (Z.ltb_spec (Position.Quantity position) (Order.Quantity order)) as [Hlt|Hge];
      validate_case.
Qed.

(** ** Fills: cash and position accounting *)

Ltac risk_succeeds :=
  match goal with
  | |- exists metrics, ?risk = Some (inr metrics) =>
      let Hrisk := fresh "Hrisk" in
      destruct risk as [[?|metrics]|] eqn:Hrisk;
      try (vm_compute in Hrisk; discriminate); now exists metrics
  end.


Lemma IsZero_NewFromInt n : n <> 0 -> IsZero (NewFromInt n) = false.
Proof.
  intros Hn. destruct (IsZero (NewFromInt n)) eqn:Hz; [|reflexivity].
  apply IsZero_value in Hz. simpl in Hz. contradiction.
Qed.

Lemma toQ_commission order :
  (toQ (Mul (notional order) commissionRate) == toQ (notional order) * (1 # 1000))%Q.
Proof. rewrite toQ_Mul. reflexivity. Qed.

(** A buy that adds [quantity] to a holding of [held]: the cash, the new
    quantity and the new average price. *)
Lemma executeOrder_buy tradeID order e :
  Order.Side order = OrderSideBuy ->
  0 < Order.Quantity order ->
  let symbol := Order.Symbol order in
  let held := heldQuantity symbol (portfolio e) in
  let total := wrap64 (held + Order.Quantity order) in
  total <> 0 ->
  exists e' averagePrice position',
    executeOrder tradeID order e = Some e' /\
    Portfolio.Cash (portfolio e') =
      Sub (Sub (Portfolio.Cash (portfolio e)) (notional order))
          (Mul (notional order) commissionRate) /\
    Div (Add (Mul (heldAveragePrice symbol (portfolio e)) (NewFromInt held))
             (Mul (Order.Price order) (NewFromInt (Order.Quantity order))))
        (NewFromInt total) = Some averagePrice /\
    Portfolio.Positions (portfolio e') !! symbol = Some position' /\
    Position.Quantity position' = total /\
    Position.AveragePrice position' = averagePrice /\
    Position.CurrentPrice position' = Order.Price order.
Proof.
  intros Hside Hq symbol held total Htotal.
  destruct (Div_is_Some
              (Add (Mul (heldAveragePrice symbol (portfolio e)) (NewFromInt held))
                   (Mul (Order.Price order) (NewFromInt (Order.Quantity order))))
              (NewFromInt total) (IsZero_NewFromInt _ Htotal)) as [avg Havg].
  unfold executeOrder, updatePosition. rewrite Hside. simpl.
  apply Z.ltb_lt in Hq. rewrite Hq.
  subst held total symbol. unfold heldQuantity, heldAveragePrice in *.
  destruct (Portfolio.Positions (portfolio e) !! Order.Symbol order) as [position|] eqn:Hpos;
    simpl in *; rewrite Havg; simpl;
    eexists _, avg, _;
    (split; [reflexivity|]); (split; [reflexivity|]); (split; [reflexivity|]);
    (split; [apply lookup_insert_eq|]); repeat split; reflexivity.
Qed.









(** ** What a fill leaves alone *)

Lemma updatePosition_frame symbol quantity price e e' :
  updatePosition symbol quantity price e = Some e' ->
  strategies e' = strategies e /\ marketData e' = marketData e /\
  orderQueue e' = orderQueue e /\ tradeQueue e' = tradeQueue e /\
  running e' = running e /\
  exists positions, portfolio e' = Portfolio.set_Positions positions (portfolio e).
Proof.
  unfold updatePosition.
  destruct (0 <? quantity).
  - destruct (Div _ _); simpl; [|discriminate].
    intros [= <-]. simpl. repeat split. eexists. reflexivity.
  - destruct (_ <=? 0); intros [= <-]; simpl; repeat split; eexists; reflexivity.
Qed.

(** The position a fill works on: the one held, or the fresh record. *)
Lemma updatePosition_lookup symbol quantity price e e' s position' :
  updatePosition symbol quantity price e = Some e' ->
  Portfolio.Positions (portfolio e') !! s = Some position' ->
  (s <> symbol /\ Portfolio.Positions (portfolio e) !! s = Some position') \/
  (s = symbol /\
   Position.MarketValue position' =
     match Portfolio.Positions (portfolio e) !! symbol with
     | Some position => Position.MarketValue position
     | None => Zero
     end).
Proof.
  unfold updatePosition.
  destruct (decide (s = symbol)) as [->|Hne].
  - intros Hrun Hlookup. right. split; [reflexivity|].
    destruct (0 <? quantity).
    + destruct (Div _ _); simpl in Hrun; [|discriminate].
      injection Hrun as <-. simpl in Hlookup.
      rewrite lookup_insert_eq in Hlookup. injection Hlookup as <-.
      destruct (Portfolio.Positions (portfolio e) !! symbol); reflexivity.
    + destruct (_ <=? 0); injection Hrun as <-; simpl in Hlookup.
      * rewrite lookup_delete_eq in Hlookup. discriminate.
      * rewrite lookup_insert_eq in Hlookup. injection Hlookup as <-.
        destruct (Portfolio.Positions (portfolio e) !! symbol); reflexivity.
  - intros Hrun Hlookup. left. split; [assumption|].
    destruct (0 <? quantity).
    + destruct (Div _ _); simpl in Hrun; [|discriminate].
      injection Hrun as <-. simpl in Hlookup.
      now rewrite !lookup_insert_ne in Hlookup by congruence.
    + destruct (_ <=? 0); injection Hrun as <-; simpl in Hlookup.
      * now rewrite lookup_delete_ne, lookup_insert_ne in Hlookup by congruence.
      * now rewrite !lookup_insert_ne in Hlookup by congruence.
Qed.

Lemma executeOrder_frame tradeID order e e' :
  executeOrder tradeID order e = Some e' ->
  strategies e' = strategies e /\ marketData e' = marketData e /\
  orderQueue e' = orderQueue e /\ running e' = running e /\
  tradeQueue e' = tradeQueue e ++ [tradeOf tradeID order] /\
  exists cash positions,
    portfolio e' =
      Portfolio.set_Positions positions (Portfolio.set_Cash cash (portfolio e)).
Proof.
  unfold executeOrder.
  destruct (String.eqb (Order.Side order) OrderSideBuy);
    match goal with
    | |- context [updatePosition ?s ?q ?p ?e0] =>
        destruct (updatePosition s q p e0) as [e1|] eqn:Hupd; simpl; [|discriminate];
        apply updatePosition_frame in Hupd
          as (Hs & Hm & Ho & Ht & Hr & positions & Hp)
    end;
    intros [= <-]; simpl in *; rewrite Hs, Hm, Ho, Ht, Hr, Hp;
    repeat split; eexists _, _; reflexivity.
Qed.

Lemma executeOrder_lookup tradeID order e e' s position' :
  executeOrder tradeID order e = Some e' ->
  Portfolio.Positions (portfolio e') !! s = Some position' ->
  (s <> Order.Symbol order /\ Portfolio.Positions (portfolio e) !! s = Some position') \/
  (s = Order.Symbol order /\
   Position.MarketValue position' =
     match Portfolio.Positions (portfolio e) !! Order.Symbol order with
     | Some position => Position.MarketValue position
     | None => Zero
     end).
Proof.
  unfold executeOrder.
  destruct (String.eqb (Order.Side order) OrderSideBuy);
    match goal with
    | |- context [updatePosition ?s ?q ?p ?e0] =>
        destruct (updatePosition s q p e0) as [e1|] eqn:Hupd; simpl; [|discriminate]
    end;
    intros [= <-]; simpl; intros Hlookup;
    apply (updatePosition_lookup _ _ _ _ _ _ _ Hupd Hlookup).
Qed.

(** ** The order-intake stage *)

Lemma processOrder_cases tradeID order e order' e' :
  processOrder tradeID order e = Some (order', e') ->
  (order' = rejected order /\ e' = e) \/
  (exists strategy metrics e1,
      strategies e !! Order.StrategyID order = Some strategy /\
      ValidateOrder strategy order (portfolio e) = None /\
      CalculateRisk strategy order (portfolio e) = Some (inr metrics) /\
      order' = filled metrics order /\
      executeOrder tradeID order' e = Some e1 /\
      e' = recordOrder order' e1).
Proof.
  unfold processOrder.
  destruct (strategies e !! Order.StrategyID order) as [strategy|] eqn:Hs;
    [|intros [= <- <-]; left; split; reflexivity].
  destruct (ValidateOrder strategy order (portfolio e)) eqn:Hv;
    [intros [= <- <-]; left; split; reflexivity|].
  destruct (CalculateRisk strategy order (portfolio e)) as [[err|metrics]|] eqn:Hr;
    simpl; [intros [= <- <-]; left; split; reflexivity| |discriminate].
  destruct (executeOrder tradeID _ e) as [e1|] eqn:He; simpl; [|discriminate].
  intros [= <- <-]. right. exists strategy, metrics, e1. repeat split; assumption.
Qed.

Lemma processOrder_filled tradeID order e strategy metrics e1 :
  strategies e !! Order.StrategyID order = Some strategy ->
  ValidateOrder strategy order (portfolio e) = None ->
  CalculateRisk strategy order (portfolio e) = Some (inr metrics) ->
  executeOrder tradeID (filled metrics order) e = Some e1 ->
  processOrder tradeID order e
    = Some (filled metrics order, recordOrder (filled metrics order) e1).
Proof.
  intros Hs Hv Hr He. unfold processOrder. rewrite Hs, Hv, Hr. simpl.
  fold (filled metrics order). rewrite He. reflexivity.
Qed.

(** C8, as the engine has it. An order the stage fills is appended to the
    order history, once, and yields one trade, pushed to the trade queue; an
    order the stage rejects leaves the history, the queue and the whole
    engine as they were. *)
Theorem processOrder_records_fills (tradeID : string) (order order' : Order.t)
    (e e' : TradingEngine) :
  processOrder tradeID order e = Some (order', e') ->
  (Order.Status order' = OrderStatusFilled /\
   Order.ID order' = Order.ID order /\
   tradeQueue e' = tradeQueue e ++ [tradeOf tradeID order'] /\
   Portfolio.OrderHistory (portfolio e')
     = Portfolio.OrderHistory (portfolio e) ++ [order']) \/
  (Order.Status order' = OrderStatusRejected /\
   Order.ID order' = Order.ID order /\
   tradeQueue e' = tradeQueue e /\
   Portfolio.OrderHistory (portfolio e') = Portfolio.OrderHistory (portfolio e) /\
   e' = e).
Proof.
  intros Hrun.
  apply processOrder_cases in Hrun
    as [[-> ->]|(strategy & metrics & e1 & _ & _ & _ & -> & He & ->)].
  - right. repeat split; reflexivity.
  - left. apply executeOrder_frame in He
      as (_ & _ & _ & _ & Hq & cash & positions & Hp).
    simpl. rewrite Hq, Hp. repeat split; reflexivity.
Qed.

Lemma processOrder_rejects tradeID order e strategy err :
  strategies e !! Order.StrategyID order = Some strategy ->
  ValidateOrder strategy order (portfolio e) = Some err ->
  processOrder tradeID order e = Some (rejected order, e).
Proof.
  intros Hs Hv. unfold processOrder. now rewrite Hs, Hv.
Qed.

Lemma tradingEngine_strategy :
  strategies tradingEngine !! "ma_crossover_001" = Some baseStrategy.
Proof. apply lookup_insert_eq. Qed.

(** C8 fails as stated: an order with quantity 0 is taken off the queue,
    rejected, and is not in the order history afterwards. *)
Lemma rejected_order_not_recorded :
  exists order' e',
    processOrder "TRD-1" emptyBuy tradingEngine = Some (order', e') /\
    Order.Status order' = OrderStatusRejected /\
    Portfolio.OrderHistory (portfolio e') = [].
Proof.
  exists (rejected emptyBuy), tradingEngine. split; [|split; reflexivity].
  apply (processOrder_rejects _ _ _ baseStrategy ErrInvalidQuantity).
  - exact tradingEngine_strategy.
  - reflexivity.
Qed.

Lemma processOrder_records_fills_witness :
  exists order' e',
    processOrder "TRD-1" aaplBuy tradingEngine = Some (order', e') /\
    Order.Status order' = OrderStatusFilled /\
    tradeQueue e' = [tradeOf "TRD-1" order'] /\
    Portfolio.OrderHistory (portfolio e') = [order'].
Proof.
  destruct (CalculateRisk baseStrategy aaplBuy (portfolio tradingEngine))
    as [[err|metrics]|] eqn:Hrisk; try (vm_compute in Hrisk; discriminate).
  destruct (executeOrder_buy "TRD-1" (filled metrics aaplBuy) tradingEngine)
    as (e1 & _ & _ & Hrun & _); [reflexivity | reflexivity | vm_compute; discriminate |].
  pose proof (processOrder_filled "TRD-1" aaplBuy tradingEngine baseStrategy metrics e1
                tradingEngine_strategy eq_refl Hrisk Hrun) as Hprocess.
  exists (filled metrics aaplBuy), (recordOrder (filled metrics aaplBuy) e1).
  split; [exact Hprocess|].
  destruct (processOrder_records_fills _ _ _ _ _ Hprocess)
    as [(Hstatus & _ & Hqueue & Hhistory)|(Hstatus & _)].
  - split; [exact Hstatus|]. split; [exact Hqueue | exact Hhistory].
  - discriminate Hstatus.
Defined.

(** ** Validation compares cash with the notional alone *)

Lemma executeOrder_buy_cash tradeID order e e' :
  Order.Side order = OrderSideBuy ->
  executeOrder tradeID order e = Some e' ->
  (toQ (Portfolio.Cash (portfolio e'))
     == toQ (Portfolio.Cash (portfolio e)) - toQ (notional order)
        - toQ (notional order) * (1 # 1000))%Q.
Proof.
  intros Hside. unfold executeOrder. rewrite Hside. simpl.
  match goal with
  | |- context [updatePosition ?s ?q ?p ?e0] =>
      destruct (updatePosition s q p e0) as [e1|] eqn:Hupd; simpl; [|discriminate]
  end.
  intros [= <-]. apply updatePosition_frame in Hupd as (_ & _ & _ & _ & _ & m & Hp).
  simpl in *. rewrite Hp. simpl.
  fold (notional order). rewrite !toQ_Sub, toQ_commission. reflexivity.
Qed.

(** C9. A buy can pass [ValidateOrder] and [CalculateRisk] and still leave
    the cash below zero: validation compares the cash with the notional and
    leaves the commission out. A buy whose notional equals the cash leaves
    minus the commission. *)
Theorem validated_buy_overdraws_cash :
  (exists e',
      Order.Side allCashBuy = OrderSideBuy /\
      BaseStrategy.ValidateOrder movingAvgConfig allCashBuy (portfolio engineLowCash)
        = None /\
      (forall float_sqrt, exists metrics,
          BaseStrategy.CalculateRisk float_sqrt movingAvgConfig allCashBuy
                                     (portfolio engineLowCash) = Some (inr metrics)) /\
      executeOrder "TRD-9" allCashBuy engineLowCash = Some e' /\
      Portfolio.Cash (portfolio e') = New (-5000) (-3) /\
      (toQ (Portfolio.Cash (portfolio e')) < 0)%Q) /\
  (forall tradeID order e e',
      Order.Side order = OrderSideBuy ->
      executeOrder tradeID order e = Some e' ->
      (toQ (notional order) == toQ (Portfolio.Cash (portfolio e)))%Q ->
      (toQ (Portfolio.Cash (portfolio e'))
         == - (toQ (notional order) * (1 # 1000)))%Q).
Proof.
  split.
  - destruct (executeOrder "TRD-9" allCashBuy engineLowCash) as [e'|] eqn:Hrun;
      [|vm_compute in Hrun; discriminate].
    exists e'. vm_compute in Hrun. injection Hrun as <-.
    split; [reflexivity|]. split; [reflexivity|].
    split; [intros float_sqrt; risk_succeeds|].
    split; [reflexivity|]. split; reflexivity.
  - intros tradeID order e e' Hside Hrun Hcash.
    rewrite (executeOrder_buy_cash _ _ _ _ Hside Hrun), <- Hcash. ring.
Qed.

(** ** The risk sweep *)

Lemma riskSweep_panics entries :
  riskSweep entries = None <->
  exists symbol position,
    In (symbol, position) entries /\ 0 < Position.Quantity position /\
    IsZero (Position.MarketValue position) = true.
Proof.
  induction entries as [|[symbol position] entries IH]; simpl.
  - split; [discriminate | intros (? & ? & [] & _)].
  - destruct (Z.leb_spec (Position.Quantity position) 0) as [Hq|Hq].
    + rewrite IH. split.
      * intros (s & p & Hin & H). exists s, p. split; [now right | assumption].
      * intros (s & p & [[= <- <-]|Hin] & Hpos & Hz); [lia|].
        exists s, p. repeat split; assumption.
    + destruct (Div (Position.UnrealizedPnL position) (Position.MarketValue position))
        as [ratio|] eqn:Hdiv; simpl.
      * assert (IsZero (Position.MarketValue position) = false) as Hnz.
        { destruct (IsZero _) eqn:Hz; [|reflexivity].
          apply (Div_None (Position.UnrealizedPnL position)) in Hz. congruence. }
        destruct (riskSweep entries) as [warned|] eqn:Hrest; simpl.
        -- split.
           ++ destruct (GreaterThan _ _); discriminate.
           ++ intros (s & p & [[= <- <-]|Hin] & Hpos & Hz); [congruence|].
              assert (@None (list string) = None) as Hnone by reflexivity.
              exfalso. destruct IH as [_ IH].
              discriminate IH. exists s, p. repeat split; assumption.
        -- split; [|reflexivity]. intros _.
           destruct IH as [IH _]. destruct (IH eq_refl) as (s & p & Hin & H).
           exists s, p. split; [now right | assumption].
      * apply Div_None in Hdiv. split; [|reflexivity]. intros _.
        exists symbol, position. split; [now left|]. split; assumption.
Qed.

Lemma riskSweep_enumeration entries m :
  enumerates entries m ->
  (riskSweep entries = None <->
   exists symbol position,
     m !! symbol = Some position /\ 0 < Position.Quantity position /\
     IsZero (Position.MarketValue position) = true).
Proof.
  intros Henum. rewrite riskSweep_panics.
  split; intros (s & p & Hin & H); exists s, p; (split; [|assumption]).
  - apply elem_of_map_to_list. rewrite <- Henum. now apply list_elem_of_In.
  - apply list_elem_of_In. rewrite Henum. now apply elem_of_map_to_list.
Qed.

Lemma startedEngine_strategy float_sqrt :
  strategies (startedEngine float_sqrt) !! "ma_crossover_001"
    = Some (BaseStrategy.asStrategy float_sqrt movingAvgConfig).
Proof. apply lookup_insert_eq. Qed.

(** The fill of ten AAPL at 150 by the engine as [main.go] sets it up. *)
Lemma first_fill float_sqrt :
  exists metrics e1 position,
    processOrder "TRD-1" aaplBuy (startedEngine float_sqrt)
      = Some (filled metrics aaplBuy, recordOrder (filled metrics aaplBuy) e1) /\
    executeOrder "TRD-1" (filled metrics aaplBuy) (startedEngine float_sqrt) = Some e1 /\
    Portfolio.Positions (portfolio e1) !! "AAPL" = Some position /\
    Position.Quantity position = 10 /\
    Position.CurrentPrice position = New 150 0 /\
    Position.MarketValue position = Zero.
Proof.
  set (strategy := BaseStrategy.asStrategy float_sqrt movingAvgConfig).
  destruct (CalculateRisk strategy aaplBuy (portfolio (startedEngine float_sqrt)))
    as [[err|metrics]|] eqn:Hrisk; try (vm_compute in Hrisk; discriminate).
  destruct (executeOrder_buy "TRD-1" (filled metrics aaplBuy) (startedEngine float_sqrt))
    as (e1 & avg & position & Hrun & _ & _ & Hlookup & Hquantity & _ & Hprice);
    [reflexivity | reflexivity | vm_compute; discriminate |].
  exists metrics, e1, position.
  split; [|split; [exact Hrun|split; [exact Hlookup | split; [exact Hquantity|split]]]].
  - apply (processOrder_filled _ _ _ strategy); try assumption.
    + apply startedEngine_strategy.
    + reflexivity.
  - exact Hprice.
  - destruct (executeOrder_lookup _ _ _ _ _ _ Hrun Hlookup) as [[Hne _]|[_ Hvalue]].
    + now contradiction Hne.
    + exact Hvalue.
Qed.

Lemma first_fill_reachable (float_sqrt : Decimal -> Decimal) :
  exists e position,
    reachable e /\
    running e = true /\
    marketData e = ∅ /\
    Portfolio.Positions (portfolio e) !! "AAPL" = Some position /\
    Position.Quantity position = 10 /\
    Position.CurrentPrice position = New 150 0 /\
    Position.MarketValue position = Zero.
Proof.
  destruct (first_fill float_sqrt)
    as (metrics & e1 & position & Hprocess & Hrun & Hlookup & Hquantity & Hprice & Hvalue).
  pose proof (executeOrder_frame _ _ _ _ Hrun) as (_ & Hmd & _ & Hrunning & _).
  exists (recordOrder (filled metrics aaplBuy) e1), position.
  split; [|split; [exact Hrunning|split; [exact Hmd|split; [exact Hlookup|]]]].
  - exists "PORT-1"%string, initialCash.
    eapply rtc_l;
      [apply (step_AddStrategy (BaseStrategy.asStrategy float_sqrt movingAvgConfig))|].
    eapply rtc_l; [apply (step_Start _ (startedEngine float_sqrt)); reflexivity|].
    eapply rtc_l; [apply (step_strategyExecutor "ORD-1" aaplSignal); reflexivity|].
    eapply rtc_l; [|apply rtc_refl].
    eapply (step_orderProcessor "TRD-1" aaplBuy []);
      [reflexivity | reflexivity | exact Hprocess].
  - split; [exact Hquantity | split; [exact Hprice | exact Hvalue]].
Qed.

(** C10. The engine reaches a state in which [manageRisk] panics: after the
    first fill of a symbol the position has a positive quantity and the
    market value zero it was created with, and the sweep divides the
    unrealized P&L by it, whatever the order it visits the positions in. *)
Theorem manageRisk_panics_after_fill :
  exists e position,
    reachable e /\
    Portfolio.Positions (portfolio e) !! "AAPL" = Some position /\
    0 < Position.Quantity position /\
    Position.MarketValue position = Zero /\
    Div (Position.UnrealizedPnL position) (Position.MarketValue position) = None /\
    manageRisk e = None /\
    (forall entries,
        enumerates entries (Portfolio.Positions (portfolio e)) ->
        riskSweep entries = None).
Proof.
  destruct (first_fill_reachable (fun v => v))
    as (e & position & Hreach & _ & _ & Hlookup & Hquantity & _ & Hvalue).
  exists e, position.
  assert (forall entries,
             enumerates entries (Portfolio.Positions (portfolio e)) ->
             riskSweep entries = None) as Hsweep.
  { intros entries Henum. apply (riskSweep_enumeration _ _ Henum).
    exists "AAPL"%string, position. split; [assumption|].
    split; [lia | now rewrite Hvalue]. }
  split; [exact Hreach|]. split; [exact Hlookup|]. split; [lia|].
  split; [exact Hvalue|]. split; [|split].
  - apply Div_None. now rewrite Hvalue.
  - apply Hsweep. unfold enumerates. reflexivity.
  - exact Hsweep.
Qed.

(** ** The valuation pass *)

Lemma valuation_fold md entries :
  forall totalValue unrealizedPnL positions totalValue' unrealizedPnL' positions',
    fold_left (valuationStep md) entries (totalValue, unrealizedPnL, positions)
      = (totalValue', unrealizedPnL', positions') ->
    NoDup entries.*1 ->
    (forall symbol position,
        (symbol, position) ∈ entries -> positions !! symbol = Some position) ->
    (forall symbol,
        positions' !! symbol =
          if decide (symbol ∈ entries.*1)
          then revalued md symbol <$> positions !! symbol
          else positions !! symbol) /\
    (toQ totalValue' == toQ totalValue + valuedSum md entries)%Q.
Proof.
  induction entries as [|[s0 pos0] entries IH];
    intros tv pnl m tv' pnl' m' Hfold Hnodup Hentries.
  - simpl in Hfold. injection Hfold as <- <- <-. split.
    + intros symbol. destruct (decide _) as [Hin|_]; [|reflexivity].
      now apply not_elem_of_nil in Hin.
    + simpl. ring.
  - simpl in Hfold, Hnodup. apply NoDup_cons in Hnodup as [Hfresh Hnodup].
    assert (m !! s0 = Some pos0) as Hs0 by (apply Hentries; left).
    assert (forall symbol position,
               (symbol, position) ∈ entries -> symbol <> s0) as Hother.
    { intros symbol position Hin ->. apply Hfresh.
      apply list_elem_of_fmap. exists (s0, position). split; [reflexivity | assumption]. }
    destruct (md !! s0) as [data|] eqn:Hdata.
    + apply IH in Hfold as [Hlookup Hsum]; [|assumption|].
      2:{ intros symbol position Hin.
          rewrite lookup_insert_ne by (symmetry; eapply Hother; eassumption).
          apply Hentries. now right. }
      split.
      * intros symbol. rewrite Hlookup.
        destruct (decide (symbol = s0)) as [->|Hne].
        -- rewrite decide_False by assumption.
           rewrite decide_True by (left).
           rewrite lookup_insert_eq, Hs0. simpl. unfold revalued. now rewrite Hdata.
        -- rewrite lookup_insert_ne by congruence.
           destruct (decide (symbol ∈ entries.*1)) as [Hin|Hnin].
           ++ rewrite decide_True by (now right). reflexivity.
           ++ rewrite decide_False; [reflexivity|].
              intros [Heq|Hin]%elem_of_cons; [contradiction | contradiction].
      * rewrite Hsum, toQ_Add. simpl. rewrite Hdata. ring.
    + apply IH in Hfold as [Hlookup Hsum]; [|assumption|].
      2:{ intros symbol position Hin. apply Hentries. now right. }
      split.
      * intros symbol. rewrite Hlookup.
        destruct (decide (symbol = s0)) as [->|Hne].
        -- rewrite decide_False by assumption.
           rewrite decide_True by (left).
           rewrite Hs0. simpl. unfold revalued. now rewrite Hdata.
        -- destruct (decide (symbol ∈ entries.*1)) as [Hin|Hnin].
           ++ rewrite decide_True by (now right). reflexivity.
           ++ rewrite decide_False; [reflexivity|].
              intros [Heq|Hin]%elem_of_cons; [contradiction | contradiction].
      * rewrite Hsum. simpl. rewrite Hdata. reflexivity.
Qed.

Lemma enumerates_NoDup entries (m : gmap string Position.t) :
  enumerates entries m -> NoDup entries.*1.
Proof. intros ->. apply NoDup_fst_map_to_list. Qed.

Lemma enumerates_lookup entries (m : gmap string Position.t) symbol position :
  enumerates entries m -> (symbol, position) ∈ entries <-> m !! symbol = Some position.
Proof. intros ->. apply elem_of_map_to_list. Qed.

Lemma updatePortfolio_over_spec entries e :
  enumerates entries (Portfolio.Positions (portfolio e)) ->
  (forall symbol,
      Portfolio.Positions (portfolio (updatePortfolio_over entries e)) !! symbol
        = revalued (marketData e) symbol
            <$> Portfolio.Positions (portfolio e) !! symbol) /\
  (toQ (Portfolio.TotalValue (portfolio (updatePortfolio_over entries e)))
     == toQ (Portfolio.Cash (portfolio e)) + valuedSum (marketData e) entries)%Q /\
  Portfolio.Cash (portfolio (updatePortfolio_over entries e))
    = Portfolio.Cash (portfolio e) /\
  marketData (updatePortfolio_over entries e) = marketData e.
Proof.
  intros Henum. unfold updatePortfolio_over.
  destruct (fold_left _ _ _) as [[totalValue unrealizedPnL] positions] eqn:Hfold.
  apply valuation_fold in Hfold as [Hlookup Hsum].
  - simpl. split; [|split; [exact Hsum | split; reflexivity]].
    intros symbol. rewrite Hlookup.
    destruct (decide (symbol ∈ entries.*1)) as [Hin|Hnin]; [reflexivity|].
    destruct (Portfolio.Positions (portfolio e) !! symbol) as [position|] eqn:Hpos;
      [|reflexivity].
    exfalso. apply Hnin. apply list_elem_of_fmap. exists (symbol, position).
    split; [reflexivity|]. now apply (enumerates_lookup _ _ _ _ Henum).
  - now apply enumerates_NoDup in Henum.
  - intros symbol position Hin. now apply (enumerates_lookup _ _ _ _ Henum).
Qed.

Lemma marketValueSum_Permutation entries entries' :
  entries ≡ₚ entries' -> (marketValueSum entries == marketValueSum entries')%Q.
Proof.
  induction 1 as [|x l l' _ IH|x y l|l l' l'' _ IH1 _ IH2]; simpl.
  - reflexivity.
  - now rewrite IH.
  - ring.
  - now rewrite IH1.
Qed.

(** After a pass the map holds the positions of before, each revalued. *)
Lemma updatePortfolio_over_entries entries e :
  enumerates entries (Portfolio.Positions (portfolio e)) ->
  map_to_list (Portfolio.Positions (portfolio (updatePortfolio_over entries e)))
    ≡ₚ (fun entry => (fst entry, revalued (marketData e) (fst entry) (snd entry)))
         <$> entries.
Proof.
  intros Henum.
  destruct (updatePortfolio_over_spec entries e Henum) as (Hlookup & _).
  apply NoDup_Permutation.
  - apply NoDup_map_to_list.
  - apply (NoDup_fmap_1 fst). rewrite <- list_fmap_compose.
    erewrite list_fmap_ext; [now apply (enumerates_NoDup _ _ Henum)|].
    intros i [symbol position] _. reflexivity.
  - intros [symbol position']. rewrite elem_of_map_to_list, Hlookup, list_elem_of_fmap.
    split.
    + destruct (Portfolio.Positions (portfolio e) !! symbol) as [position|] eqn:Hpos;
        [|discriminate].
      simpl. intros [= <-]. exists (symbol, position). split; [reflexivity|].
      now apply (enumerates_lookup _ _ _ _ Henum).
    + intros ([s position] & [= -> ->] & Hin). simpl.
      apply (enumerates_lookup _ _ _ _ Henum) in Hin. now rewrite Hin.
Qed.

Lemma marketValueSum_revalued md entries :
  (forall symbol position,
      (symbol, position) ∈ entries -> md !! symbol = None ->
      Position.MarketValue position = Zero) ->
  (marketValueSum
     ((fun entry => (fst entry, revalued md (fst entry) (snd entry))) <$> entries)
   == valuedSum md entries)%Q.
Proof.
  induction entries as [|[symbol position] entries IH]; intros Hzero; simpl.
  - reflexivity.
  - rewrite IH by (intros s p Hin; apply Hzero; now right).
    unfold revalued. destruct (md !! symbol) as [data|] eqn:Hdata.
    + reflexivity.
    + rewrite (Hzero symbol position) by (first [left | assumption]).
      rewrite toQ_Zero. ring.
Qed.

(** ** An invariant of every run *)

Lemma step_unpriced_unvalued e e' :
  step e e' -> unpriced_unvalued e -> unpriced_unvalued e'.
Proof.
  unfold unpriced_unvalued.
  intros Hstep Hinv.
  destruct Hstep as [strategy e|strategyID e|symbol data e|e e' Hstart|e
                     |orderID result e _
                     |tradeID order rest order' e e' _ Hqueue Hprocess
                     |trade rest e _ Hqueue|entries e _ Henum
                     |entries warned e _ Henum Hsweep];
    try exact Hinv.
  - intros s position Hpos Hdata. simpl in *.
    apply lookup_insert_None in Hdata as [Hdata _]. now apply (Hinv s).
  - unfold Start in Hstart. destruct (running e); [discriminate|].
    injection Hstart as <-. exact Hinv.
  - unfold Stop. destruct (negb (running e)); exact Hinv.
  - apply processOrder_cases in Hprocess
      as [[-> ->]|(strategy & metrics & e1 & _ & _ & _ & -> & Hrun & ->)];
      [exact Hinv|].
    intros s position' Hpos Hdata. simpl in Hpos, Hdata.
    pose proof (executeOrder_frame _ _ _ _ Hrun) as (_ & Hmd & _).
    rewrite Hmd in Hdata. simpl in Hdata.
    destruct (executeOrder_lookup _ _ _ _ _ _ Hrun Hpos) as [[_ Hold]|[-> Hvalue]].
    + now apply (Hinv s).
    + rewrite Hvalue. simpl.
      destruct (Portfolio.Positions (portfolio e) !! Order.Symbol order)
        as [position|] eqn:Hold; [|reflexivity].
      now apply (Hinv (Order.Symbol order)).
  - intros s position' Hpos Hdata.
    destruct (updatePortfolio_over_spec entries e Henum) as (Hlookup & _ & _ & Hmd).
    rewrite Hlookup in Hpos. rewrite Hmd in Hdata.
    destruct (Portfolio.Positions (portfolio e) !! s) as [position|] eqn:Hold;
      [|discriminate].
    simpl in Hpos. injection Hpos as <-. unfold revalued. rewrite Hdata.
    now apply (Hinv s).
Qed.

Lemma reachable_unpriced_unvalued e : reachable e -> unpriced_unvalued e.
Proof.
  intros (portfolioID & cash & Hrun). revert e Hrun.
  apply (rtc_ind_r unpriced_unvalued).
  - intros symbol position Hpos. simpl in Hpos. now rewrite lookup_empty in Hpos.
  - intros e1 e2 _ Hstep IH. exact (step_unpriced_unvalued _ _ Hstep IH).
Qed.

Lemma pricedValueSum_Permutation md entries entries' :
  entries ≡ₚ entries' -> (pricedValueSum md entries == pricedValueSum md entries')%Q.
Proof.
  induction 1 as [|x l l' _ IH|x y l|l l' l'' _ IH1 _ IH2]; simpl.
  - reflexivity.
  - destruct (md !! x.1); now rewrite IH.
  - destruct (md !! x.1), (md !! y.1); ring.
  - now rewrite IH1.
Qed.

Lemma pricedValueSum_cons md symbol position entries :
  pricedValueSum md ((symbol, position) :: entries) =
    match md !! symbol with
    | Some _ => (toQ (Position.MarketValue position) + pricedValueSum md entries)%Q
    | None => pricedValueSum md entries
    end.
Proof. reflexivity. Qed.

Lemma valuedSum_cons md symbol position entries :
  valuedSum md ((symbol, position) :: entries) =
    match md !! symbol with
    | Some data =>
        (toQ (Position.MarketValue (revalue (MarketData.Price data) position))
         + valuedSum md entries)%Q
    | None => valuedSum md entries
    end.
Proof. reflexivity. Qed.

Lemma pricedValueSum_revalued md entries :
  (pricedValueSum md
     ((fun entry => (fst entry, revalued md (fst entry) (snd entry))) <$> entries)
   == valuedSum md entries)%Q.
Proof.
  set (pass := fun entry : string * Position.t =>
                 (fst entry, revalued md (fst entry) (snd entry))).
  induction entries as [|[symbol position] entries IH].
  - reflexivity.
  - rewrite fmap_cons. unfold pass at 1. cbn [fst snd].
    rewrite pricedValueSum_cons, valuedSum_cons.
    unfold revalued. destruct (md !! symbol); now rewrite IH.
Qed.

(** C5, as the engine has it. After a valuation pass the maintained total
    value is the cash plus the sum of the market values of the positions
    whose symbol the market data has a price for; each of those carries that
    price, the market value price x quantity and the unrealized P&L
    (price - average price) x quantity. A position whose symbol has no price
    is skipped and stays as it was; in every state the engine reaches it
    still has the market value zero it was created with, so that the total
    value is also the cash plus the sum over all positions in the map. *)
Theorem valuation_pass_total (entries : list (string * Position.t))
    (e : TradingEngine) :
  enumerates entries (Portfolio.Positions (portfolio e)) ->
  let p' := portfolio (updatePortfolio_over entries e) in
  let md := marketData e in
  (toQ (Portfolio.TotalValue p')
     == toQ (Portfolio.Cash p')
        + pricedValueSum md (map_to_list (Portfolio.Positions p')))%Q /\
  (forall symbol position' data,
      Portfolio.Positions p' !! symbol = Some position' ->
      md !! symbol = Some data ->
      let price := MarketData.Price data in
      let quantity := NewFromInt (Position.Quantity position') in
      Position.CurrentPrice position' = price /\
      Position.MarketValue position' = Mul price quantity /\
      Position.UnrealizedPnL position'
        = Mul (Sub price (Position.AveragePrice position')) quantity) /\
  (forall symbol position',
      Portfolio.Positions p' !! symbol = Some position' ->
      md !! symbol = None ->
      Portfolio.Positions (portfolio e) !! symbol = Some position') /\
  (reachable e ->
     (toQ (Portfolio.TotalValue p')
        == toQ (Portfolio.Cash p')
           + marketValueSum (map_to_list (Portfolio.Positions p')))%Q /\
     (forall symbol position',
         Portfolio.Positions p' !! symbol = Some position' ->
         md !! symbol = None ->
         Position.MarketValue position' = Zero)).
Proof.
  intros Henum p' md. subst p' md.
  destruct (updatePortfolio_over_spec entries e Henum) as (Hlookup & Hsum & Hcash & _).
  assert (forall symbol position',
             Portfolio.Positions (portfolio (updatePortfolio_over entries e)) !! symbol
               = Some position' ->
             marketData e !! symbol = None ->
             Portfolio.Positions (portfolio e) !! symbol = Some position') as Hskipped.
  { intros symbol position' Hpos Hdata. rewrite Hlookup in Hpos.
    destruct (Portfolio.Positions (portfolio e) !! symbol) as [position|];
      [|discriminate].
    simpl in Hpos. unfold revalued in Hpos. rewrite Hdata in Hpos. exact Hpos. }
  split; [|split; [|split; [exact Hskipped|]]].
  - rewrite Hsum, Hcash.
    rewrite (pricedValueSum_Permutation _ _ _
               (updatePortfolio_over_entries entries e Henum)).
    now rewrite pricedValueSum_revalued.
  - intros symbol position' data Hpos Hdata. rewrite Hlookup in Hpos.
    destruct (Portfolio.Positions (portfolio e) !! symbol) as [position|];
      [|discriminate].
    simpl in Hpos. injection Hpos as <-. unfold revalued. rewrite Hdata.
    repeat split.
  - intros Hreach.
    pose proof (reachable_unpriced_unvalued e Hreach) as Hinv. split.
    + rewrite Hsum, Hcash.
      rewrite (marketValueSum_Permutation _ _
                 (updatePortfolio_over_entries entries e Henum)).
      rewrite marketValueSum_revalued; [reflexivity|].
      intros symbol position Hin Hdata. apply (Hinv symbol); [|assumption].
      now apply (enumerates_lookup _ _ _ _ Henum).
    + intros symbol position' Hpos Hdata.
      apply (Hinv symbol); [|assumption]. now apply Hskipped.
Qed.

(** ** Risk limits *)




(** ** The risk snapshot *)

Lemma collectReturns_total symbol rest :
  forall prev, exists returns,
    BaseStrategy.collectReturns symbol prev rest = Some returns /\
    (length returns <= length (getTradesForSymbol symbol rest))%nat /\
    Forall (fun r => exp r = -16) returns.
Proof.
  induction rest as [|curr rest IH]; intros prev; simpl.
  - exists []. split; [reflexivity|]. split; [simpl; lia | constructor].
  - unfold getTradesForSymbol. rewrite filter_cons. fold (getTradesForSymbol symbol rest).
    destruct (IH curr) as (returns & Hreturns & Hlength & Hexp).
    destruct (String.eqb_spec (Trade.Symbol curr) symbol) as [Hsym|Hsym].
    + rewrite decide_True by assumption.
      destruct (IsZero (Trade.Price prev)) eqn:Hzero; simpl.
      * exists returns. split; [assumption|]. split; [simpl; lia | assumption].
      * destruct (Div_is_Some (Sub (Trade.Price curr) (Trade.Price prev))
                              (Trade.Price prev) Hzero) as [r Hr].
        rewrite Hr, Hreturns. simpl. exists (r :: returns).
        split; [reflexivity|]. split; [simpl; lia|]. constructor; [|assumption].
        now apply Div_spec in Hr as [Hr _].
    + rewrite decide_False by assumption.
      exists returns. split; [assumption|]. split; assumption.
Qed.




Lemma Div_of_zero d d2 q : value d = 0 -> Div d d2 = Some q -> value q = 0.
Proof.
  intros Hzero Hdiv.
  assert (~ (toQ d2 == 0)%Q) as Hd2.
  { intros H0. apply IsZero_toQ in H0. apply (Div_None d) in H0. congruence. }
  apply Div_spec in Hdiv as (_ & aa & bb & Hbb & Hratio & Hround).
  rewrite (toQ_value_0 d Hzero) in Hratio.
  assert (aa = 0) as ->.
  { apply (inject_Z_injective aa 0).
    assert ((toQ d2 * inject_Z aa * pow10 (-16) == 0)%Q) as H0
      by (rewrite <- Hratio; ring).
    apply Qmult_integral in H0 as [H0|H0]; [|now apply pow10_nonzero in H0].
    apply Qmult_integral in H0 as [H0|H0]; [contradiction | assumption]. }
  nia.
Qed.

Lemma higher_same price : higher price price = price.
Proof. unfold higher. now destruct (GreaterThan price price). Qed.

(** The loop of [calculateMaxDrawdown] ends on the largest of the value it
    started from and the drawdowns of the trades it walked. *)
Lemma drawdownLoop_spec trades :
  forall peak best result,
    BaseStrategy.drawdownLoop peak best trades = Some result ->
    (toQ best <= toQ result)%Q /\
    (forall i, (i < length trades)%nat ->
       exists drawdown,
         drawdownAt peak trades i = Some drawdown /\
         (toQ drawdown <= toQ result)%Q) /\
    (result = best \/
     exists i drawdown, drawdownAt peak trades i = Some drawdown /\ result = drawdown).
Proof.
  induction trades as [|trade trades IH]; intros peak best result; simpl.
  - intros [= <-]. split; [apply Qle_refl|]. split; [intros i Hi; lia | now left].
  - fold (higher peak (Trade.Price trade)).
    destruct (Div (Sub (higher peak (Trade.Price trade)) (Trade.Price trade))
                  (higher peak (Trade.Price trade))) as [drawdown|] eqn:Hdiv;
      simpl; [|discriminate].
    intros Hloop. apply IH in Hloop as (Hbest & Hall & Hsome).
    assert ((toQ best <= toQ result)%Q /\ (toQ drawdown <= toQ result)%Q) as [Hb Hd].
    { destruct (GreaterThan drawdown best) eqn:Hgt.
      - apply GreaterThan_toQ in Hgt. split; [|assumption].
        eapply Qle_trans; [apply Qlt_le_weak; eassumption | assumption].
      - apply GreaterThan_false in Hgt. split; [assumption|].
        eapply Qle_trans; eassumption. }
    split; [assumption|]. split.
    + intros [|i] Hi.
      * exists drawdown. split; [exact Hdiv | assumption].
      * destruct (Hall i) as (dd & Hdd & Hle); [lia|].
        exists dd. split; [exact Hdd | assumption].
    + destruct Hsome as [->|(i & dd & Hdd & ->)].
      * destruct (GreaterThan drawdown best); [|now left].
        right. exists 0%nat, drawdown. split; [exact Hdiv | reflexivity].
      * right. exists (S i), dd. split; [exact Hdd | reflexivity].
Qed.

Lemma calculateMaxDrawdown_spec p result :
  BaseStrategy.calculateMaxDrawdown p = Some result ->
  match Portfolio.TradeHistory p with
  | [] => result = Zero
  | first :: _ =>
      let history := Portfolio.TradeHistory p in
      (forall i, (i < length history)%nat ->
         exists drawdown,
           drawdownAt (Trade.Price first) history i = Some drawdown /\
           (toQ drawdown <= toQ result)%Q) /\
      (exists i drawdown,
          drawdownAt (Trade.Price first) history i = Some drawdown /\
          (toQ result == toQ drawdown)%Q)
  end.
Proof.
  unfold BaseStrategy.calculateMaxDrawdown.
  destruct (Portfolio.TradeHistory p) as [|first rest] eqn:Hhistory.
  - now intros [= <-].
  - intros Hloop. pose proof Hloop as Hfirst.
    apply drawdownLoop_spec in Hloop as (_ & Hall & Hsome).
    split; [exact Hall|].
    destruct Hsome as [->|(i & dd & Hdd & ->)].
    + destruct (Hall 0%nat) as (dd & Hdd & _); [simpl; lia|].
      exists 0%nat, dd. split; [exact Hdd|].
      unfold drawdownAt, peakAt in Hdd. simpl in Hdd. rewrite higher_same in Hdd.
      apply Div_of_zero in Hdd.
      * now rewrite toQ_Zero, (toQ_value_0 dd Hdd).
      * unfold Sub, RescalePair. rewrite Z.eqb_refl. simpl. lia.
    + exists i, dd. split; [exact Hdd | reflexivity].
Qed.

Lemma CalculateRisk_zero_value float_sqrt config order p :
  IsZero (Portfolio.TotalValue p) = true ->
  BaseStrategy.CalculateRisk float_sqrt config order p = Some (inr RiskMetrics.empty).
Proof. intros Hzero. unfold BaseStrategy.CalculateRisk. now rewrite Hzero. Qed.

(** C7 fails as stated: on a portfolio whose total value is zero the call
    succeeds with every metric unset, so the max drawdown it returns is zero
    although the history fell from 100 to 50. *)
Lemma CalculateRisk_unset_drawdown :
  exists drawdown,
    BaseStrategy.ValidateOrder movingAvgConfig aaplSell drainedPortfolio = None /\
    (forall float_sqrt,
        BaseStrategy.CalculateRisk float_sqrt movingAvgConfig aaplSell drainedPortfolio
          = Some (inr RiskMetrics.empty)) /\
    drawdownAt (New 100 0) (Portfolio.TradeHistory drainedPortfolio) 1 = Some drawdown /\
    (toQ drawdown == 1 # 2)%Q /\
    (toQ (RiskMetrics.MaxDrawdown RiskMetrics.empty) == 0)%Q.
Proof.
  exists (New 5000000000000000 (-16)).
  split; [reflexivity|]. split; [intros float_sqrt; reflexivity|].
  split; [vm_compute; reflexivity|]. split; reflexivity.
Qed.

(** C7, as the engine has it. On a portfolio with nonzero total value a
    successful [CalculateRisk] returns VaR95 = notional x volatility x 1.645,
    expected shortfall = VaR95 x 1.25, the Sharpe ratio zero when the
    volatility is zero and the decimal quotient (notional - risk-free rate)
    / volatility otherwise, and as max drawdown the largest of the declines
    (runningPeak - price) / runningPeak met walking the whole trade history
    in order, every symbol included. *)
Theorem CalculateRisk_metrics (float_sqrt : Decimal -> Decimal)
    (config : StrategyConfig.t) (order : Order.t) (p : Portfolio.t)
    (metrics : RiskMetrics.t) :
  IsZero (Portfolio.TotalValue p) = false ->
  BaseStrategy.CalculateRisk float_sqrt config order p = Some (inr metrics) ->
  let value := (toQ (Order.Price order) * inject_Z (Order.Quantity order))%Q in
  let riskFree := StrategyConfig.RiskFreeRate config in
  exists volatility,
    BaseStrategy.calculateVolatility float_sqrt (Order.Symbol order) p = Some volatility /\
    RiskMetrics.Volatility metrics = volatility /\
    (toQ (RiskMetrics.VaR95 metrics) == value * toQ volatility * (1645 # 1000))%Q /\
    (toQ (RiskMetrics.ExpectedShortfall metrics)
       == toQ (RiskMetrics.VaR95 metrics) * (125 # 100))%Q /\
    (IsZero volatility = true -> RiskMetrics.SharpeRatio metrics = Zero) /\
    (IsZero volatility = false ->
       Div (Sub (notional order) riskFree) volatility
         = Some (RiskMetrics.SharpeRatio metrics) /\
       (Qabs (toQ (RiskMetrics.SharpeRatio metrics)
              - (value - toQ riskFree) / toQ volatility)
          <= (1 # 2) * pow10 (-16))%Q) /\
    match Portfolio.TradeHistory p with
    | [] => RiskMetrics.MaxDrawdown metrics = Zero
    | first :: _ =>
        let history := Portfolio.TradeHistory p in
        (forall i, (i < length history)%nat ->
           exists drawdown,
             drawdownAt (Trade.Price first) history i = Some drawdown /\
             (toQ drawdown <= toQ (RiskMetrics.MaxDrawdown metrics))%Q) /\
        (exists i drawdown,
            drawdownAt (Trade.Price first) history i = Some drawdown /\
            (toQ (RiskMetrics.MaxDrawdown metrics) == toQ drawdown)%Q)
    end.
Proof.
  intros Hnonzero Hrisk value riskFree. subst value riskFree.
  unfold BaseStrategy.CalculateRisk in Hrisk. fold (notional order) in Hrisk.
  rewrite Hnonzero in Hrisk.
  destruct (Div (notional order) (Portfolio.TotalValue p)) as [positionRisk|];
    simpl in Hrisk; [|discriminate].
  destruct (GreaterThan positionRisk _); [discriminate|].
  destruct (GreaterThan (Add _ _) _); [discriminate|].
  destruct (BaseStrategy.calculateVolatility _ _ _) as [volatility|];
    simpl in Hrisk; [|discriminate].
  destruct (BaseStrategy.calculateSharpeRatio _ _ _) as [sharpe|] eqn:Hsharpe;
    simpl in Hrisk; [|discriminate].
  destruct (BaseStrategy.calculateMaxDrawdown p) as [drawdown|] eqn:Hdrawdown;
    simpl in Hrisk; [|discriminate].
  injection Hrisk as <-. simpl.
  exists volatility. split; [reflexivity|]. split; [reflexivity|].
  unfold BaseStrategy.calculateExpectedShortfall, BaseStrategy.calculateVaR.
  split; [rewrite !toQ_Mul, toQ_notional; reflexivity|].
  split; [rewrite !toQ_Mul; reflexivity|].
  unfold BaseStrategy.calculateSharpeRatio in Hsharpe.
  split; [|split].
  - intros Hzero. rewrite Hzero in Hsharpe. now injection Hsharpe as <-.
  - intros Hzero. rewrite Hzero in Hsharpe. split; [exact Hsharpe|].
    pose proof (Div_error _ _ _ Hsharpe) as Herr.
    now rewrite toQ_Sub, toQ_notional in Herr.
  - exact (calculateMaxDrawdown_spec p drawdown Hdrawdown).
Qed.

Lemma CalculateRisk_metrics_witness :
  exists metrics,
    BaseStrategy.CalculateRisk (fun v => v) movingAvgConfig msftBuy seasonedPortfolio
      = Some (inr metrics) /\
    RiskMetrics.MaxDrawdown metrics = New 5000000000000000 (-16) /\
    exists volatility,
      BaseStrategy.calculateVolatility (fun v => v) "MSFT" seasonedPortfolio
        = Some volatility /\
      RiskMetrics.Volatility metrics = volatility /\
      (toQ (RiskMetrics.VaR95 metrics)
         == toQ (New 150 0) * inject_Z 10 * toQ volatility * (1645 # 1000))%Q /\
      (toQ (RiskMetrics.ExpectedShortfall metrics)
         == toQ (RiskMetrics.VaR95 metrics) * (125 # 100))%Q /\
      (IsZero volatility = true -> RiskMetrics.SharpeRatio metrics = Zero) /\
      (IsZero volatility = false ->
         Div (Sub (notional msftBuy) (New 2 (-2))) volatility
           = Some (RiskMetrics.SharpeRatio metrics) /\
         (Qabs (toQ (RiskMetrics.SharpeRatio metrics)
                - (toQ (New 150 0) * inject_Z 10 - toQ (New 2 (-2))) / toQ volatility)
            <= (1 # 2) * pow10 (-16))%Q) /\
      (forall i, (i < 2)%nat ->
         exists drawdown,
           drawdownAt (New 100 0) (Portfolio.TradeHistory seasonedPortfolio) i
             = Some drawdown /\
           (toQ drawdown <= toQ (RiskMetrics.MaxDrawdown metrics))%Q) /\
      (exists i drawdown,
          drawdownAt (New 100 0) (Portfolio.TradeHistory seasonedPortfolio) i
            = Some drawdown /\
          (toQ (RiskMetrics.MaxDrawdown metrics) == toQ drawdown)%Q).
Proof.
  destruct (BaseStrategy.CalculateRisk (fun v => v) movingAvgConfig msftBuy
                                       seasonedPortfolio)
    as [[err|metrics]|] eqn:Hrisk; try (vm_compute in Hrisk; discriminate).
  exists metrics. split; [reflexivity|]. split.
  - vm_compute in Hrisk. now injection Hrisk as <-.
  - apply (CalculateRisk_metrics (fun v => v) movingAvgConfig msftBuy seasonedPortfolio).
    + reflexivity.
    + exact Hrisk.
Defined.

(** ** Volatility *)

(** C4, on the code. The returns [calculateVolatility] collects for a
    symbol are taken against the trade just before in the whole history,
    whatever its symbol: for MSFT in the alternating history they are 0.1 and 1.2, with
    variance 0.3025, where MSFT's own prices, 110 and 110, give the single
    return 0. *)
Lemma calculateVolatility_neighbouring_trade :
  exists variance,
    BaseStrategy.collectReturns "MSFT" (tradeAt "TRD-1" "AAPL" (New 100 0))
                                (tail mixedHistory)
      = Some [New 1000000000000000 (-16); New 12000000000000000 (-16)] /\
    BaseStrategy.returnsVariance
      [New 1000000000000000 (-16); New 12000000000000000 (-16)] = Some variance /\
    (toQ variance == 3025 # 10000)%Q /\
    (forall float_sqrt,
        BaseStrategy.calculateVolatility float_sqrt "MSFT" mixedPortfolio
          = Some (float_sqrt variance)) /\
    symbolReturns "MSFT" mixedHistory = Some [New 0 (-16)] /\
    BaseStrategy.returnsVariance [New 0 (-16)] = Some (New 0 (-16)).
Proof.
  exists (New 3025000000000000 (-16)).
  split; [vm_compute; reflexivity|]. split; [vm_compute; reflexivity|].
  split; [reflexivity|]. split; [intros float_sqrt; vm_compute; reflexivity|].
  split; vm_compute; reflexivity.
Qed.

Lemma Div_by_one d : exp d = -16 -> Div d (NewFromInt 1) = Some d.
Proof.
  destruct d as [v e]. simpl. intros ->.
  unfold Div, DivRound, QuoRem, DivisionPrecision, Sign, Cmp, Abs. simpl.
  rewrite Z.mul_1_r, Z.quot_1_r, Z.rem_1_r. reflexivity.
Qed.

Lemma returnsVariance_single r :
  exp r = -16 ->
  exists variance,
    BaseStrategy.returnsVariance [r] = Some variance /\ value variance = 0.
Proof.
  intros Hexp. unfold BaseStrategy.returnsVariance, BaseStrategy.sumReturns. simpl.
  assert (Add Zero r = r) as ->.
  { destruct r as [v e]. simpl in Hexp. subst e. reflexivity. }
  change (Z.of_nat 1) with 1. rewrite (Div_by_one r Hexp). simpl.
  destruct (Div_is_Some (BaseStrategy.sumSquares r [r]) (NewFromInt 1) eq_refl)
    as [variance Hvariance].
  exists variance. split; [exact Hvariance|].
  apply (Div_of_zero (BaseStrategy.sumSquares r [r]) (NewFromInt 1)); [|exact Hvariance].
  destruct r as [v e]. simpl in Hexp. subst e.
  unfold BaseStrategy.sumSquares, Sub, Mul, Add, RescalePair. simpl.
  rewrite Z.sub_diag. reflexivity.
Qed.

Lemma getTradesForSymbol_tail symbol first rest :
  (length (getTradesForSymbol symbol rest)
   <= length (getTradesForSymbol symbol (first :: rest)))%nat.
Proof.
  unfold getTradesForSymbol. rewrite filter_cons.
  destruct (decide (Trade.Symbol first = symbol)); simpl; lia.
Qed.

(** ** The valuation pass on a run *)

(** C5 fails as stated: the engine reaches a state, a fill with no tick for
    the symbol yet, in which the valuation pass leaves a position of ten
    units last priced at 150 with the market value zero. *)
Lemma valuation_pass_skips_unpriced :
  exists e position',
    reachable e /\
    marketData e !! "AAPL" = None /\
    Portfolio.Positions (portfolio (updatePortfolio e)) !! "AAPL" = Some position' /\
    Position.Quantity position' = 10 /\
    Position.CurrentPrice position' = New 150 0 /\
    Position.MarketValue position' = Zero /\
    Equal (Position.MarketValue position')
          (Mul (Position.CurrentPrice position')
               (NewFromInt (Position.Quantity position'))) = false.
Proof.
  destruct (first_fill_reachable (fun v => v))
    as (e & position & Hreach & _ & Hmd & Hlookup & Hquantity & Hprice & Hvalue).
  exists e, position.
  split; [exact Hreach|]. split; [now rewrite Hmd|]. split.
  - unfold updatePortfolio.
    destruct (updatePortfolio_over_spec
                (map_to_list (Portfolio.Positions (portfolio e))) e)
      as (Hpass & _); [unfold enumerates; reflexivity|].
    rewrite Hpass, Hlookup. simpl. unfold revalued. now rewrite Hmd.
  - split; [exact Hquantity|]. split; [exact Hprice|]. split; [exact Hvalue|].
    rewrite Hvalue, Hprice, Hquantity. reflexivity.
Qed.

Lemma valuation_pass_total_witness :
  let e := UpdateMarketData "AAPL" aaplTick engineHoldingAAPL in
  let p' := portfolio (updatePortfolio e) in
  (toQ (Portfolio.TotalValue p')
     == toQ (Portfolio.Cash p')
        + pricedValueSum (marketData e) (map_to_list (Portfolio.Positions p')))%Q /\
  (forall symbol position' data,
      Portfolio.Positions p' !! symbol = Some position' ->
      marketData e !! symbol = Some data ->
      let price := MarketData.Price data in
      let quantity := NewFromInt (Position.Quantity position') in
      Position.CurrentPrice position' = price /\
      Position.MarketValue position' = Mul price quantity /\
      Position.UnrealizedPnL position'
        = Mul (Sub price (Position.AveragePrice position')) quantity) /\
  (forall symbol position',
      Portfolio.Positions p' !! symbol = Some position' ->
      marketData e !! symbol = None ->
      Portfolio.Positions (portfolio e) !! symbol = Some position') /\
  (reachable e ->
     (toQ (Portfolio.TotalValue p')
        == toQ (Portfolio.Cash p')
           + marketValueSum (map_to_list (Portfolio.Positions p')))%Q /\
     (forall symbol position',
         Portfolio.Positions p' !! symbol = Some position' ->
         marketData e !! symbol = None ->
         Position.MarketValue position' = Zero)).
Proof.
  apply (valuation_pass_total
           (map_to_list (Portfolio.Positions
                           (portfolio (UpdateMarketData "AAPL" aaplTick engineHoldingAAPL))))
           (UpdateMarketData "AAPL" aaplTick engineHoldingAAPL)).
  unfold enumerates. reflexivity.
Defined.

(** The scenario of the specification: 100 AAPL held at 150, a tick at 160,
    a valuation pass: unrealized P&L 1,000 and total value 100,985. *)
Example valuation_scenario :
  let p' := portfolio (updatePortfolio (UpdateMarketData "AAPL" aaplTick engineHoldingAAPL)) in
  Equal (Portfolio.TotalValue p') (New 100985 0) = true /\
  Equal (Portfolio.UnrealizedPnL p') (New 1000 0) = true /\
  (Position.MarketValue <$> Portfolio.Positions p' !! "AAPL") = Some (New 16000 0).
Proof. vm_compute. repeat split. Qed.

(** The first fill of the scenario, from the fresh engine. *)
Example first_buy_scenario :
  portfolio <$> executeOrder "TRD-1" (marketOrder "ORD-1" "AAPL" OrderSideBuy 100 (New 150 0))
                             freshEngine
    = Some (portfolio engineHoldingAAPL) /\
  Equal (Portfolio.Cash (portfolio engineHoldingAAPL)) (New 84985 0) = true.
Proof. vm_compute. split; reflexivity. Qed.

(** ** When the pipeline panics, and when it cannot *)







(** A first trade at price zero makes the drawdown walk divide by zero. *)
Example CalculateRisk_panics_on_free_trade float_sqrt :
  BaseStrategy.CalculateRisk float_sqrt movingAvgConfig msftBuy freeHistoryPortfolio
    = None.
Proof. reflexivity. Qed.

(** X2. [manageRisk] panics exactly when the portfolio holds a position
    with a positive quantity and a market value of zero, whatever the order
    in which it walks the map. *)
Theorem manageRisk_panic_condition (e : TradingEngine) :
  let unvalued :=
    exists symbol position,
      Portfolio.Positions (portfolio e) !! symbol = Some position /\
      0 < Position.Quantity position /\
      IsZero (Position.MarketValue position) = true in
  (manageRisk e = None <-> unvalued) /\
  (forall entries,
      enumerates entries (Portfolio.Positions (portfolio e)) ->
      (riskSweep entries = None <-> unvalued)).
Proof.
  cbv zeta. split.
  - apply riskSweep_enumeration. unfold enumerates. reflexivity.
  - intros entries Henum. now apply riskSweep_enumeration.
Qed.

(** X3. With fewer than two trades of the symbol in the history the
    volatility is zero. *)
Theorem calculateVolatility_zero_few_trades (float_sqrt : Decimal -> Decimal)
    (symbol : string) (p : Portfolio.t) :
  (length (getTradesForSymbol symbol (Portfolio.TradeHistory p)) < 2)%nat ->
  exists volatility,
    BaseStrategy.calculateVolatility float_sqrt symbol p = Some volatility /\
    IsZero volatility = true /\
    (toQ volatility == 0)%Q.
Proof.
  intros Hfew. unfold BaseStrategy.calculateVolatility.
  destruct (Portfolio.TradeHistory p) as [|first [|second rest]];
    try (eexists; split; [reflexivity | split; reflexivity]).
  pose proof (getTradesForSymbol_tail symbol first (second :: rest)) as Htail.
  destruct (collectReturns_total symbol (second :: rest) first)
    as (returns & -> & Hlength & Hexp).
  simpl. destruct returns as [|r [|r' returns]].
  - eexists; split; [reflexivity | split; reflexivity].
  - apply Forall_cons in Hexp as [Hexp _].
    destruct (returnsVariance_single r Hexp) as (variance & -> & Hzero). simpl.
    assert (GreaterThan variance Zero = false) as ->.
    { apply GreaterThan_false. rewrite (toQ_value_0 variance Hzero), toQ_Zero.
      apply Qle_refl. }
    eexists; split; [reflexivity | split; reflexivity].
  - simpl in Hlength. lia.
Qed.

Lemma calculateVolatility_zero_few_trades_witness :
  exists volatility,
    BaseStrategy.calculateVolatility (fun v => v) "MSFT"
      (Portfolio.set_TradeHistory (firstn 3 mixedHistory) mixedPortfolio)
      = Some volatility /\
    IsZero volatility = true /\
    (toQ volatility == 0)%Q.
Proof.
  apply (calculateVolatility_zero_few_trades (fun v => v) "MSFT"
           (Portfolio.set_TradeHistory (firstn 3 mixedHistory) mixedPortfolio)).
  vm_compute. repeat constructor.
Defined.

(** X4. In every state the engine reaches, a position whose symbol the
    market data has no price for has the market value zero. *)
Theorem unpriced_positions_unvalued (e : TradingEngine) (symbol : string)
    (position : Position.t) :
  reachable e ->
  Portfolio.Positions (portfolio e) !! symbol = Some position ->
  marketData e !! symbol = None ->
  Position.MarketValue position = Zero.
Proof.
  intros Hreach. exact (reachable_unpriced_unvalued e Hreach symbol position).
Qed.

Lemma unpriced_positions_unvalued_witness :
  exists e position,
    reachable e /\
    Portfolio.Positions (portfolio e) !! "AAPL" = Some position /\
    marketData e !! "AAPL" = None /\
    Position.MarketValue position = Zero.
Proof.
  destruct (first_fill_reachable (fun v => v))
    as (e & position & Hreach & _ & Hmd & Hlookup & _).
  assert (marketData e !! "AAPL" = None) as Hdata by now rewrite Hmd.
  exists e, position.
  split; [exact Hreach|]. split; [exact Hlookup|]. split; [exact Hdata|].
  exact (unpriced_positions_unvalued e "AAPL" position Hreach Hlookup Hdata).
Defined.





Lemma valuedSum_Permutation md entries entries' :
  entries ≡ₚ entries' -> (valuedSum md entries == valuedSum md entries')%Q.
Proof.
  induction 1 as [|x l l' _ IH|x y l|l l' l'' _ IH1 _ IH2]; simpl.
  - reflexivity.
  - destruct (md !! x.1); now rewrite IH.
  - destruct (md !! x.1), (md !! y.1); ring.
  - now rewrite IH1.
Qed.

(** X6. The valuation pass does not depend on the order in which the map
    of positions is walked: the positions it leaves are the same and the
    total value denotes the same number. *)
Theorem valuation_pass_order_independent (entries entries' : list (string * Position.t))
    (e : TradingEngine) :
  enumerates entries (Portfolio.Positions (portfolio e)) ->
  enumerates entries' (Portfolio.Positions (portfolio e)) ->
  Portfolio.Positions (portfolio (updatePortfolio_over entries e))
    = Portfolio.Positions (portfolio (updatePortfolio_over entries' e)) /\
  (toQ (Portfolio.TotalValue (portfolio (updatePortfolio_over entries e)))
     == toQ (Portfolio.TotalValue (portfolio (updatePortfolio_over entries' e))))%Q.
Proof.
  intros Henum Henum'.
  destruct (updatePortfolio_over_spec entries e Henum) as (Hlookup & Hsum & _).
  destruct (updatePortfolio_over_spec entries' e Henum') as (Hlookup' & Hsum' & _).
  split.
  - apply map_eq. intros symbol. now rewrite Hlookup, Hlookup'.
  - rewrite Hsum, Hsum'. apply Qplus_comp; [reflexivity|].
    apply valuedSum_Permutation. unfold enumerates in *. now rewrite Henum, Henum'.
Qed.

Lemma valuation_pass_order_independent_witness :
  let e := UpdateMarketData "AAPL" aaplTick engineHoldingAAPL in
  let entries := map_to_list (Portfolio.Positions (portfolio e)) in
  Portfolio.Positions (portfolio (updatePortfolio_over entries e))
    = Portfolio.Positions (portfolio (updatePortfolio_over (reverse entries) e)) /\
  (toQ (Portfolio.TotalValue (portfolio (updatePortfolio_over entries e)))
     == toQ (Portfolio.TotalValue (portfolio (updatePortfolio_over (reverse entries) e))))%Q.
Proof.
  apply (valuation_pass_order_independent
           (map_to_list (Portfolio.Positions
                           (portfolio (UpdateMarketData "AAPL" aaplTick engineHoldingAAPL))))
           (reverse (map_to_list (Portfolio.Positions
                           (portfolio (UpdateMarketData "AAPL" aaplTick engineHoldingAAPL)))))
           (UpdateMarketData "AAPL" aaplTick engineHoldingAAPL)).
  - unfold enumerates. reflexivity.
  - unfold enumerates. apply reverse_Permutation.
Defined.

(** ** What every run keeps *)

Lemma run_invariant (P : TradingEngine -> Prop) e0 e :
  P e0 -> (forall e1 e2, step e1 e2 -> P e1 -> P e2) -> rtc step e0 e -> P e.
Proof.
  intros Hinit Hstep Hrun. revert e Hrun. apply (rtc_ind_r P); [exact Hinit|].
  intros e1 e2 _ Hs IH. exact (Hstep _ _ Hs IH).
Qed.

Lemma updatePortfolio_over_frame entries e :
  strategies (updatePortfolio_over entries e) = strategies e /\
  orderQueue (updatePortfolio_over entries e) = orderQueue e /\
  tradeQueue (updatePortfolio_over entries e) = tradeQueue e /\
  running (updatePortfolio_over entries e) = running e /\
  exists totalValue unrealizedPnL positions,
    portfolio (updatePortfolio_over entries e) =
      Portfolio.set_UnrealizedPnL unrealizedPnL
        (Portfolio.set_TotalValue totalValue
           (Portfolio.set_Positions positions (portfolio e))).
Proof.
  unfold updatePortfolio_over.
  destruct (fold_left _ _ _) as [[totalValue unrealizedPnL] positions].
  simpl. repeat split. eexists _, _, _. reflexivity.
Qed.

(** The four ways a step can touch the portfolio or the trade queue: not at
    all, by a fill, by recording a trade, by a valuation pass. *)
Lemma step_effect e e' :
  step e e' ->
  (portfolio e' = portfolio e /\ tradeQueue e' = tradeQueue e) \/
  (exists tradeID order rest metrics e1,
      orderQueue e = order :: rest /\
      executeOrder tradeID (filled metrics order) (set_orderQueue rest e) = Some e1 /\
      e' = recordOrder (filled metrics order) e1) \/
  (exists trade rest,
      tradeQueue e = trade :: rest /\
      e' = processTrade trade (set_tradeQueue rest e)) \/
  (exists entries,
      enumerates entries (Portfolio.Positions (portfolio e)) /\
      e' = updatePortfolio_over entries e).
Proof.
  intros Hstep.
  destruct Hstep as [strategy e|strategyID e|symbol data e|e e' Hstart|e
                     |orderID result e _
                     |tradeID order rest order' e e' _ Hqueue Hprocess
                     |trade rest e _ Hqueue|entries e _ Henum
                     |entries warned e _ Henum Hsweep];
    try (left; split; reflexivity).
  - left. unfold Start in Hstart. destruct (running e); [discriminate|].
    injection Hstart as <-. split; reflexivity.
  - left. unfold Stop. destruct (negb (running e)); split; reflexivity.
  - apply processOrder_cases in Hprocess
      as [[-> ->]|(strategy & metrics & e1 & _ & _ & _ & -> & Hrun & ->)].
    + left. split; reflexivity.
    + right. left. exists tradeID, order, rest, metrics, e1. repeat split; assumption.
  - right. right. left. exists trade, rest. split; [assumption | reflexivity].
  - right. right. right. exists entries. split; [assumption | reflexivity].
Qed.

(** The invariant of the run relation behind X7: recorded and queued trades
    together settle the orders of the order history. *)
Lemma produced_trades_settle (e : TradingEngine) :
  reachable e ->
  Forall2 settles (tradesProduced e) (Portfolio.OrderHistory (portfolio e)) /\
  Forall (fun order => Order.Status order = OrderStatusFilled)
         (Portfolio.OrderHistory (portfolio e)).
Proof.
  intros (portfolioID & cash & Hrun). pattern e.
  eapply run_invariant; [| |exact Hrun].
  - split; constructor.
  - clear e Hrun. intros e e' Hstep [Htrades Hfilled].
    unfold tradesProduced in *.
    destruct (step_effect _ _ Hstep)
      as [[Hp Hq]|[(tradeID & order & rest & metrics & e1 & _ & Hrun & ->)
         |[(trade & rest & Hqueue & ->)|(entries & _ & ->)]]].
    + rewrite Hp, Hq. split; assumption.
    + apply executeOrder_frame in Hrun as (_ & _ & _ & _ & Hq & c & m & Hp).
      simpl in *. rewrite Hq, Hp. simpl. rewrite app_assoc. split.
      * apply Forall2_app; [assumption|]. repeat constructor.
      * apply Forall_app. split; [assumption|]. repeat constructor.
    + simpl. rewrite Hqueue in Htrades. rewrite <- app_assoc. split; assumption.
    + destruct (updatePortfolio_over_frame entries e)
        as (_ & _ & Hq & _ & tv & pnl & m & Hp).
      rewrite Hq, Hp. simpl. split; assumption.
Qed.

Lemma first_fill_run (float_sqrt : Decimal -> Decimal) :
  exists e metrics,
    rtc step (NewTradingEngine "PORT-1" initialCash) e /\
    Portfolio.OrderHistory (portfolio e) = [filled metrics aaplBuy] /\
    Portfolio.TradeHistory (portfolio e) = [] /\
    tradeQueue e = [tradeOf "TRD-1" (filled metrics aaplBuy)] /\
    running e = true.
Proof.
  destruct (first_fill float_sqrt)
    as (metrics & e1 & position & Hprocess & Hrun & _).
  pose proof (executeOrder_frame _ _ _ _ Hrun) as (_ & _ & _ & Hr & Hq & c & m & Hp).
  exists (recordOrder (filled metrics aaplBuy) e1), metrics.
  split; [|split; [|split; [|split; [|exact Hr]]]].
  - eapply rtc_l;
      [apply (step_AddStrategy (BaseStrategy.asStrategy float_sqrt movingAvgConfig))|].
    eapply rtc_l; [apply (step_Start _ (startedEngine float_sqrt)); reflexivity|].
    eapply rtc_l; [apply (step_strategyExecutor "ORD-1" aaplSignal); reflexivity|].
    eapply rtc_l; [|apply rtc_refl].
    eapply (step_orderProcessor "TRD-1" aaplBuy []);
      [reflexivity | reflexivity | exact Hprocess].
  - simpl. rewrite Hp. reflexivity.
  - simpl. rewrite Hp. reflexivity.
  - simpl. rewrite Hq. reflexivity.
Qed.

(** X7. In every state of the portfolio the engine reaches, each recorded
    trade is the settlement record of an order of its own in the order
    history: the trades of the trade history are, one for one, the trades
    [executeOrder] made of orders that the order history holds, so there
    are never more trades on record than orders, and every order of the
    order history has the status filled. (A trade leaves the trade queue
    before the lock is taken, so the statement is about the portfolio
    alone.) *)
Theorem trades_settle_filled_orders (e : TradingEngine) :
  reachable e ->
  let trades := Portfolio.TradeHistory (portfolio e) in
  let orders := Portfolio.OrderHistory (portfolio e) in
  (exists settled, Forall2 settles trades settled /\ settled ⊆+ orders) /\
  (length trades <= length orders)%nat /\
  Forall (fun order => Order.Status order = OrderStatusFilled) orders.
Proof.
  intros Hreach trades orders.
  destruct (produced_trades_settle e Hreach) as [Hsettle Hfilled].
  unfold tradesProduced in Hsettle. fold trades orders in Hsettle, Hfilled.
  apply Forall2_app_inv_l in Hsettle as (recorded & queued & Hrecorded & _ & Horders).
  pose proof (Forall2_length _ _ _ Hrecorded) as Hlength.
  split; [|split; [|exact Hfilled]].
  - exists recorded. split; [exact Hrecorded|].
    rewrite Horders. now apply submseteq_inserts_r.
  - rewrite Horders, length_app. lia.
Qed.

Lemma first_trade_run (float_sqrt : Decimal -> Decimal) :
  exists e metrics,
    reachable e /\
    Portfolio.OrderHistory (portfolio e) = [filled metrics aaplBuy] /\
    Portfolio.TradeHistory (portfolio e) = [tradeOf "TRD-1" (filled metrics aaplBuy)].
Proof.
  destruct (first_fill_run float_sqrt)
    as (e & metrics & Hrun & Horders & Htrades & Hqueue & Hrunning).
  exists (processTrade (tradeOf "TRD-1" (filled metrics aaplBuy)) (set_tradeQueue [] e)),
         metrics.
  split; [|split].
  - exists "PORT-1"%string, initialCash.
    eapply rtc_r; [exact Hrun|].
    now apply (step_tradeProcessor _ []).
  - simpl. exact Horders.
  - simpl. now rewrite Htrades.
Qed.

Lemma trades_settle_filled_orders_witness :
  exists e trade order,
    reachable e /\
    Portfolio.TradeHistory (portfolio e) = [trade] /\
    Portfolio.OrderHistory (portfolio e) = [order] /\
    (exists settled,
        Forall2 settles (Portfolio.TradeHistory (portfolio e)) settled /\
        settled ⊆+ Portfolio.OrderHistory (portfolio e)) /\
    (length (Portfolio.TradeHistory (portfolio e))
     <= length (Portfolio.OrderHistory (portfolio e)))%nat /\
    Forall (fun order => Order.Status order = OrderStatusFilled)
           (Portfolio.OrderHistory (portfolio e)).
Proof.
  destruct (first_trade_run (fun v => v)) as (e & metrics & Hreach & Horders & Htrades).
  exists e, (tradeOf "TRD-1" (filled metrics aaplBuy)), (filled metrics aaplBuy).
  split; [exact Hreach|]. split; [exact Htrades|]. split; [exact Horders|].
  exact (trades_settle_filled_orders e Hreach).
Defined.

(** The cash after a fill, for either side. *)
Lemma executeOrder_cash tradeID order e e' :
  executeOrder tradeID order e = Some e' ->
  (toQ (Portfolio.Cash (portfolio e'))
     == toQ (Portfolio.Cash (portfolio e)) + cashEffect order)%Q.
Proof.
  unfold executeOrder, cashEffect.
  destruct (String.eqb (Order.Side order) OrderSideBuy);
    match goal with
    | |- context [updatePosition ?s ?q ?p ?e0] =>
        destruct (updatePosition s q p e0) as [e1|] eqn:Hupd; simpl; [|discriminate]
    end;
    intros [= <-];
    apply updatePosition_frame in Hupd as (_ & _ & _ & _ & _ & m & Hp);
    simpl in *; rewrite Hp; simpl; fold (notional order).
  - rewrite !toQ_Sub, toQ_commission. ring.
  - rewrite toQ_Sub, toQ_Add, toQ_commission. ring.
Qed.

Lemma cashFlow_app orders order :
  (cashFlow (orders ++ [order]) == cashFlow orders + cashEffect order)%Q.
Proof.
  induction orders as [|o orders IH]; simpl.
  - ring.
  - rewrite IH. ring.
Qed.

(** X8. The cash of a run is its opening cash plus the cash effects of the
    orders of the order history: nothing but a fill moves the cash, and
    each fill is on record. *)
Theorem cash_is_opening_cash_plus_fills (portfolioID : string) (cash : Decimal)
    (e : TradingEngine) :
  rtc step (NewTradingEngine portfolioID cash) e ->
  (toQ (Portfolio.Cash (portfolio e))
     == toQ cash + cashFlow (Portfolio.OrderHistory (portfolio e)))%Q.
Proof.
  intros Hrun. pattern e. eapply run_invariant; [| |exact Hrun].
  - simpl. ring.
  - clear e Hrun. intros e e' Hstep Hinv.
    destruct (step_effect _ _ Hstep)
      as [[Hp _]|[(tradeID & order & rest & metrics & e1 & _ & Hrun & ->)
         |[(trade & rest & _ & ->)|(entries & _ & ->)]]].
    + now rewrite Hp.
    + pose proof (executeOrder_cash _ _ _ _ Hrun) as Hcash.
      apply executeOrder_frame in Hrun as (_ & _ & _ & _ & _ & c & m & Hp).
      simpl in Hcash |- *. rewrite cashFlow_app, Hcash, Hinv.
      rewrite Hp. simpl. ring.
    + exact Hinv.
    + destruct (updatePortfolio_over_frame entries e)
        as (_ & _ & _ & _ & tv & pnl & m & Hp).
      rewrite Hp. exact Hinv.
Qed.

Lemma cash_is_opening_cash_plus_fills_witness :
  exists e metrics,
    rtc step (NewTradingEngine "PORT-1" initialCash) e /\
    Portfolio.OrderHistory (portfolio e) = [filled metrics aaplBuy] /\
    (toQ (Portfolio.Cash (portfolio e))
       == toQ initialCash + cashFlow (Portfolio.OrderHistory (portfolio e)))%Q.
Proof.
  destruct (first_fill_run (fun v => v)) as (e & metrics & Hrun & Horders & _).
  exists e, metrics.
  split; [exact Hrun|]. split; [exact Horders|].
  exact (cash_is_opening_cash_plus_fills "PORT-1" initialCash e Hrun).
Defined.

(** The record a fill leaves for its symbol, against the one it started
    from: the position held, or the fresh record. *)
Lemma updatePosition_position symbol quantity price e e' s position' :
  updatePosition symbol quantity price e = Some e' ->
  Portfolio.Positions (portfolio e') !! s = Some position' ->
  (s <> symbol /\ Portfolio.Positions (portfolio e) !! s = Some position') \/
  (s = symbol /\
   let base := default (newPosition symbol price)
                       (Portfolio.Positions (portfolio e) !! symbol) in
   Position.Symbol position' = Position.Symbol base /\
   Position.RealizedPnL position' = Position.RealizedPnL base /\
   Position.Risk position' = Position.Risk base /\
   Position.Quantity position' <> 0 /\
   in_int64 (Position.Quantity position')).
Proof.
  unfold updatePosition.
  destruct (decide (s = symbol)) as [->|Hne].
  - intros Hrun Hlookup. right. split; [reflexivity|].
    assert (forall d, Div d (NewFromInt 0) = None) as Hzero
      by (intros d; now apply Div_None).
    destruct (Portfolio.Positions (portfolio e) !! symbol) as [held|]; simpl in *;
      destruct (0 <? quantity).
    + destruct (Div _ _) as [averagePrice|] eqn:Hdiv; simpl in Hrun; [|discriminate].
      injection Hrun as <-. simpl in Hlookup.
      rewrite lookup_insert_eq in Hlookup. injection Hlookup as <-. simpl.
      repeat split; try apply wrap64_range.
      intros Hq. rewrite Hq, Hzero in Hdiv. discriminate.
    + destruct (_ <=? 0) eqn:Hsign; injection Hrun as <-; simpl in Hlookup.
      * rewrite lookup_delete_eq in Hlookup. discriminate.
      * rewrite lookup_insert_eq in Hlookup. injection Hlookup as <-.
        apply Z.leb_gt in Hsign. simpl.
        repeat split; try apply wrap64_range; lia.
    + destruct (Div _ _) as [averagePrice|] eqn:Hdiv; simpl in Hrun; [|discriminate].
      injection Hrun as <-. simpl in Hlookup.
      rewrite lookup_insert_eq in Hlookup. injection Hlookup as <-. simpl.
      repeat split; try apply wrap64_range.
      intros Hq. rewrite Hq, Hzero in Hdiv. discriminate.
    + destruct (_ <=? 0) eqn:Hsign; injection Hrun as <-; simpl in Hlookup.
      * rewrite lookup_delete_eq in Hlookup. discriminate.
      * rewrite lookup_insert_eq in Hlookup. injection Hlookup as <-.
        apply Z.leb_gt in Hsign. simpl.
        repeat split; try apply wrap64_range; lia.
  - intros Hrun Hlookup. left. split; [assumption|].
    destruct (0 <? quantity).
    + destruct (Div _ _); simpl in Hrun; [|discriminate].
      injection Hrun as <-. simpl in Hlookup.
      now rewrite !lookup_insert_ne in Hlookup by congruence.
    + destruct (_ <=? 0); injection Hrun as <-; simpl in Hlookup.
      * now rewrite lookup_delete_ne, lookup_insert_ne in Hlookup by congruence.
      * now rewrite !lookup_insert_ne in Hlookup by congruence.
Qed.

Lemma executeOrder_position tradeID order e e' s position' :
  executeOrder tradeID order e = Some e' ->
  Portfolio.Positions (portfolio e') !! s = Some position' ->
  (s <> Order.Symbol order /\ Portfolio.Positions (portfolio e) !! s = Some position') \/
  (s = Order.Symbol order /\
   let base := default (newPosition (Order.Symbol order) (Order.Price order))
                       (Portfolio.Positions (portfolio e) !! Order.Symbol order) in
   Position.Symbol position' = Position.Symbol base /\
   Position.RealizedPnL position' = Position.RealizedPnL base /\
   Position.Risk position' = Position.Risk base /\
   Position.Quantity position' <> 0 /\
   in_int64 (Position.Quantity position')).
Proof.
  unfold executeOrder.
  destruct (String.eqb (Order.Side order) OrderSideBuy);
    match goal with
    | |- context [updatePosition ?s ?q ?p ?e0] =>
        destruct (updatePosition s q p e0) as [e1|] eqn:Hupd; simpl; [|discriminate]
    end;
    intros [= <-]; simpl; intros Hlookup;
    apply (updatePosition_position _ _ _ _ _ _ _ Hupd Hlookup).
Qed.

Lemma revalued_keeps md symbol position :
  Position.Symbol (revalued md symbol position) = Position.Symbol position /\
  Position.Quantity (revalued md symbol position) = Position.Quantity position /\
  Position.AveragePrice (revalued md symbol position) = Position.AveragePrice position /\
  Position.RealizedPnL (revalued md symbol position) = Position.RealizedPnL position /\
  Position.Risk (revalued md symbol position) = Position.Risk position.
Proof. unfold revalued. destruct (md !! symbol); repeat split. Qed.

(** A property of the positions that a fill establishes for the symbol it
    trades and a valuation pass carries over holds in every state of a
    run. *)
Lemma positions_invariant (Q : string -> Position.t -> Prop) :
  (forall tradeID order e e' position',
      executeOrder tradeID order e = Some e' ->
      (forall symbol position,
          Portfolio.Positions (portfolio e) !! symbol = Some position ->
          Q symbol position) ->
      Portfolio.Positions (portfolio e') !! Order.Symbol order = Some position' ->
      Q (Order.Symbol order) position') ->
  (forall md symbol position, Q symbol position -> Q symbol (revalued md symbol position)) ->
  forall e, reachable e ->
  forall symbol position,
    Portfolio.Positions (portfolio e) !! symbol = Some position -> Q symbol position.
Proof.
  intros Hfill Hpass e (portfolioID & cash & Hrun). pattern e.
  eapply run_invariant; [| |exact Hrun].
  - intros symbol position Hpos. simpl in Hpos. now rewrite lookup_empty in Hpos.
  - clear e Hrun. intros e e' Hstep Hinv symbol position' Hpos.
    destruct (step_effect _ _ Hstep)
      as [[Hp _]|[(tradeID & order & rest & metrics & e1 & _ & Hrun & ->)
         |[(trade & rest & _ & ->)|(entries & Henum & ->)]]].
    + rewrite Hp in Hpos. now apply Hinv.
    + simpl in Hpos.
      destruct (executeOrder_position _ _ _ _ _ _ Hrun Hpos) as [[_ Hold]|[-> _]].
      * now apply Hinv.
      * apply (Hfill _ _ _ _ _ Hrun); [|exact Hpos]. exact Hinv.
    + now apply Hinv.
    + destruct (updatePortfolio_over_spec entries e Henum) as (Hlookup & _).
      rewrite Hlookup in Hpos.
      destruct (Portfolio.Positions (portfolio e) !! symbol) as [position|] eqn:Hold;
        [|discriminate].
      simpl in Hpos. injection Hpos as <-. apply Hpass. now apply Hinv.
Qed.

(** X9. No run books a realized P&L or a risk figure: in every state the
    engine reaches, the realized P&L and the total risk of the portfolio
    are the zero they were created with, the portfolio risk metrics are
    unset, and so are the realized P&L and the risk metrics of every
    position, also after sells. *)
Theorem run_books_no_realized_pnl (e : TradingEngine) :
  reachable e ->
  Portfolio.RealizedPnL (portfolio e) = Zero /\
  Portfolio.TotalRisk (portfolio e) = Zero /\
  Portfolio.Risk (portfolio e) = PortfolioRiskMetrics.empty /\
  forall symbol position,
    Portfolio.Positions (portfolio e) !! symbol = Some position ->
    Position.RealizedPnL position = Zero /\
    Position.Risk position = RiskMetrics.empty.
Proof.
  intros Hreach. split; [|split; [|split]].
  4:{ revert e Hreach.
      apply (positions_invariant
               (fun _ position => Position.RealizedPnL position = Zero /\
                                  Position.Risk position = RiskMetrics.empty)).
      - intros tradeID order e e' position' Hrun Hinv Hpos.
        destruct (executeOrder_position _ _ _ _ _ _ Hrun Hpos)
          as [[Hne _]|[_ (_ & Hpnl & Hrisk & _)]]; [now contradiction Hne|].
        rewrite Hpnl, Hrisk.
        destruct (Portfolio.Positions (portfolio e) !! Order.Symbol order)
          as [held|] eqn:Hheld; simpl; [|split; reflexivity].
        now apply (Hinv (Order.Symbol order)).
      - intros md symbol position [Hpnl Hrisk].
        destruct (revalued_keeps md symbol position) as (_ & _ & _ & -> & ->).
        split; assumption. }
  all: destruct Hreach as (portfolioID & cash & Hrun); pattern e;
    (eapply run_invariant; [| |exact Hrun]); [reflexivity|];
    clear e Hrun; intros e e' Hstep Hinv;
    destruct (step_effect _ _ Hstep)
      as [[Hp _]|[(tradeID & order & rest & metrics & e1 & _ & Hrun & ->)
         |[(trade & rest & _ & ->)|(entries & _ & ->)]]];
    [ now rewrite Hp
    | apply executeOrder_frame in Hrun as (_ & _ & _ & _ & _ & c & m & Hp);
      simpl; rewrite Hp; exact Hinv
    | exact Hinv
    | destruct (updatePortfolio_over_frame entries e)
        as (_ & _ & _ & _ & tv & pnl & m & Hp);
      rewrite Hp; exact Hinv ].
Qed.

Lemma run_books_no_realized_pnl_witness :
  exists e position,
    reachable e /\
    Portfolio.Positions (portfolio e) !! "AAPL" = Some position /\
    Position.Quantity position = 10 /\
    Portfolio.RealizedPnL (portfolio e) = Zero /\
    Portfolio.TotalRisk (portfolio e) = Zero /\
    Position.RealizedPnL position = Zero /\
    Position.Risk position = RiskMetrics.empty.
Proof.
  destruct (first_fill_reachable (fun v => v))
    as (e & position & Hreach & _ & _ & Hlookup & Hquantity & _).
  destruct (run_books_no_realized_pnl e Hreach) as (Hpnl & Hrisk & _ & Hpositions).
  exists e, position.
  split; [exact Hreach|]. split; [exact Hlookup|]. split; [exact Hquantity|].
  split; [exact Hpnl|]. split; [exact Hrisk|].
  exact (Hpositions "AAPL"%string position Hlookup).
Defined.

(** X10. In every state the engine reaches, each position is filed under
    its own symbol and its quantity is an [int64] other than zero: a fill
    that would leave a holding of zero either removes the position (a sell)
    or panics on the average price (a buy that wraps around to zero). *)
Theorem positions_well_keyed (e : TradingEngine) : reachable e -> well_keyed e.
Proof.
  unfold well_keyed. revert e.
  apply (positions_invariant
           (fun symbol position =>
              Position.Symbol position = symbol /\
              Position.Quantity position <> 0 /\
              in_int64 (Position.Quantity position))).
  - intros tradeID order e e' position' Hrun Hinv Hpos.
    destruct (executeOrder_position _ _ _ _ _ _ Hrun Hpos)
      as [[Hne _]|[_ (Hsymbol & _ & _ & Hquantity & Hrange)]]; [now contradiction Hne|].
    split; [|split; assumption]. rewrite Hsymbol.
    destruct (Portfolio.Positions (portfolio e) !! Order.Symbol order)
      as [held|] eqn:Hheld; simpl; [|reflexivity].
    now apply (Hinv (Order.Symbol order)).
  - intros md symbol position (Hsymbol & Hquantity & Hrange).
    destruct (revalued_keeps md symbol position) as (-> & -> & _).
    split; [|split]; assumption.
Qed.

Lemma positions_well_keyed_witness :
  exists e position,
    reachable e /\
    Portfolio.Positions (portfolio e) !! "AAPL" = Some position /\
    Position.Symbol position = "AAPL"%string /\
    Position.Quantity position <> 0 /\
    in_int64 (Position.Quantity position).
Proof.
  destruct (first_fill_reachable (fun v => v))
    as (e & position & Hreach & _ & _ & Hlookup & _).
  exists e, position.
  split; [exact Hreach|]. split; [exact Hlookup|].
  exact (positions_well_keyed e Hreach "AAPL"%string position Hlookup).
Defined.

(** ** Registration decides who judges an order *)

(** X11. Once a strategy is removed, every order that names it is rejected
    and the engine is left as it is; and an order that names a strategy
    just added is judged by that strategy, whatever was registered under
    the identifier before. *)
Theorem registration_decides_validation (tradeID : string) (order : Order.t)
    (e : TradingEngine) :
  processOrder tradeID order (RemoveStrategy (Order.StrategyID order) e)
    = Some (rejected order, RemoveStrategy (Order.StrategyID order) e) /\
  (forall strategy err,
      ID strategy = Order.StrategyID order ->
      ValidateOrder strategy order (portfolio e) = Some err ->
      processOrder tradeID order (AddStrategy strategy e)
        = Some (rejected order, AddStrategy strategy e)) /\
  (forall strategy err,
      ID strategy = Order.StrategyID order ->
      ValidateOrder strategy order (portfolio e) = None ->
      CalculateRisk strategy order (portfolio e) = Some (inl err) ->
      processOrder tradeID order (AddStrategy strategy e)
        = Some (rejected order, AddStrategy strategy e)).
Proof.
  split; [|split].
  - unfold processOrder, RemoveStrategy. simpl. now rewrite lookup_delete_eq.
  - intros strategy err Hid Hvalidate.
    apply (processOrder_rejects _ _ _ strategy err); [|exact Hvalidate].
    unfold AddStrategy. simpl. rewrite <- Hid. apply lookup_insert_eq.
  - intros strategy err Hid Hvalidate Hrisk.
    unfold processOrder, AddStrategy. simpl.
    rewrite <- Hid, lookup_insert_eq, Hvalidate, Hrisk. reflexivity.
Qed.

(** ** Stopping twice *)

(** X12. An engine that has been stopped cannot be stopped again after a
    restart: the first [Stop] closes the stop channel, [Start] succeeds and
    sets the engine running without making a new channel, and the second
    [Stop] closes the closed channel, which panics. *)
Theorem restart_then_stop_panics (c : Controls) :
  running (engine c) = true ->
  stopChanClosed c = false ->
  exists c1 c2,
    StopControls c = Some c1 /\
    running (engine c1) = false /\
    StartControls c1 = Some c2 /\
    running (engine c2) = true /\
    portfolio (engine c2) = portfolio (engine c) /\
    StopControls c2 = None.
Proof.
  intros Hrunning Hopen.
  unfold StopControls, StartControls, Start, Stop. rewrite Hrunning, Hopen. simpl.
  eexists _, _. split; [reflexivity|]. simpl. split; [reflexivity|].
  split; [reflexivity|]. simpl. split; [reflexivity|]. split; reflexivity.
Qed.

Lemma restart_then_stop_panics_witness :
  exists c c1 c2,
    StartControls (NewControls "PORT-1" initialCash) = Some c /\
    StopControls c = Some c1 /\
    running (engine c1) = false /\
    StartControls c1 = Some c2 /\
    running (engine c2) = true /\
    portfolio (engine c2) = portfolio (engine c) /\
    StopControls c2 = None.
Proof.
  exists (mkControls (set_running true freshEngine) false).
  destruct (restart_then_stop_panics (mkControls (set_running true freshEngine) false))
    as (c1 & c2 & H); [reflexivity | reflexivity |].
  exists c1, c2. split; [reflexivity | exact H].
Defined.

(** ** The valuation pass: unrealized P&L and repetition *)

Lemma valuation_fold_pnl md entries :
  forall totalValue unrealizedPnL positions totalValue' unrealizedPnL' positions',
    fold_left (valuationStep md) entries (totalValue, unrealizedPnL, positions)
      = (totalValue', unrealizedPnL', positions') ->
    (toQ unrealizedPnL' == toQ unrealizedPnL + pnlSum md entries)%Q.
Proof.
  induction entries as [|[s0 pos0] entries IH];
    intros tv pnl m tv' pnl' m' Hfold.
  - simpl in Hfold. injection Hfold as <- <- <-. simpl. ring.
  - simpl in Hfold. destruct (md !! s0) as [data|] eqn:Hdata.
    + apply IH in Hfold. rewrite Hfold, toQ_Add. simpl. rewrite Hdata. ring.
    + apply IH in Hfold. rewrite Hfold. simpl. rewrite Hdata. reflexivity.
Qed.

Lemma pricedPnLSum_Permutation md entries entries' :
  entries ≡ₚ entries' -> (pricedPnLSum md entries == pricedPnLSum md entries')%Q.
Proof.
  induction 1 as [|x l l' _ IH|x y l|l l' l'' _ IH1 _ IH2]; simpl.
  - reflexivity.
  - destruct (md !! x.1); now rewrite IH.
  - destruct (md !! x.1), (md !! y.1); ring.
  - now rewrite IH1.
Qed.

Lemma pricedCostSum_Permutation md entries entries' :
  entries ≡ₚ entries' -> (pricedCostSum md entries == pricedCostSum md entries')%Q.
Proof.
  induction 1 as [|x l l' _ IH|x y l|l l' l'' _ IH1 _ IH2]; simpl.
  - reflexivity.
  - destruct (md !! x.1); now rewrite IH.
  - destruct (md !! x.1), (md !! y.1); ring.
  - now rewrite IH1.
Qed.

Lemma pnlSum_cons md symbol position entries :
  pnlSum md ((symbol, position) :: entries) =
    match md !! symbol with
    | Some data =>
        (toQ (Position.UnrealizedPnL (revalue (MarketData.Price data) position))
         + pnlSum md entries)%Q
    | None => pnlSum md entries
    end.
Proof. reflexivity. Qed.

Lemma pricedPnLSum_cons md symbol position entries :
  pricedPnLSum md ((symbol, position) :: entries) =
    match md !! symbol with
    | Some _ => (toQ (Position.UnrealizedPnL position) + pricedPnLSum md entries)%Q
    | None => pricedPnLSum md entries
    end.
Proof. reflexivity. Qed.

Lemma pricedCostSum_cons md symbol position entries :
  pricedCostSum md ((symbol, position) :: entries) =
    match md !! symbol with
    | Some _ =>
        (toQ (Position.AveragePrice position) * inject_Z (Position.Quantity position)
         + pricedCostSum md entries)%Q
    | None => pricedCostSum md entries
    end.
Proof. reflexivity. Qed.

Lemma pricedPnLSum_revalued md entries :
  (pricedPnLSum md
     ((fun entry => (fst entry, revalued md (fst entry) (snd entry))) <$> entries)
   == pnlSum md entries)%Q.
Proof.
  set (pass := fun entry : string * Position.t =>
                 (fst entry, revalued md (fst entry) (snd entry))).
  induction entries as [|[symbol position] entries IH].
  - reflexivity.
  - rewrite fmap_cons. unfold pass at 1. cbn [fst snd].
    rewrite pricedPnLSum_cons, pnlSum_cons.
    unfold revalued. destruct (md !! symbol); now rewrite IH.
Qed.

(** Market value less unrealized P&L is the cost basis. *)
Lemma valuedSum_pnlSum md entries :
  (valuedSum md entries
   == pnlSum md entries
      + pricedCostSum md
          ((fun entry => (fst entry, revalued md (fst entry) (snd entry))) <$> entries))%Q.
Proof.
  set (pass := fun entry : string * Position.t =>
                 (fst entry, revalued md (fst entry) (snd entry))).
  induction entries as [|[symbol position] entries IH].
  - reflexivity.
  - rewrite fmap_cons. unfold pass at 1. cbn [fst snd].
    rewrite valuedSum_cons, pnlSum_cons, pricedCostSum_cons.
    unfold revalued. destruct (md !! symbol) as [data|]; rewrite IH; [|reflexivity].
    cbn [revalue Position.MarketValue Position.UnrealizedPnL Position.AveragePrice
         Position.Quantity].
    rewrite !toQ_Mul, toQ_Sub, toQ_NewFromInt. ring.
Qed.

(** X13. After a valuation pass the unrealized P&L of the portfolio is the
    sum of the unrealized P&L of the positions the market data has a price
    for, counted afresh from zero; and the total value less that P&L is the
    cash plus the cost basis (average price x quantity) of those positions. *)
Theorem valuation_pass_pnl (entries : list (string * Position.t))
    (e : TradingEngine) :
  enumerates entries (Portfolio.Positions (portfolio e)) ->
  let p' := portfolio (updatePortfolio_over entries e) in
  let md := marketData e in
  let positions' := map_to_list (Portfolio.Positions p') in
  (toQ (Portfolio.UnrealizedPnL p') == pricedPnLSum md positions')%Q /\
  (toQ (Portfolio.TotalValue p') - toQ (Portfolio.UnrealizedPnL p')
     == toQ (Portfolio.Cash p') + pricedCostSum md positions')%Q.
Proof.
  intros Henum p' md positions'.
  pose proof (updatePortfolio_over_entries entries e Henum) as Hperm.
  destruct (updatePortfolio_over_spec entries e Henum) as (_ & Htotal & Hcash & _).
  fold p' in Hperm, Htotal, Hcash. fold positions' in Hperm. fold md in Hperm, Htotal.
  assert (toQ (Portfolio.UnrealizedPnL p') == pnlSum md entries)%Q as Hpnl.
  { unfold p', updatePortfolio_over.
    destruct (fold_left _ _ _) as [[totalValue unrealizedPnL] positions] eqn:Hfold.
    apply valuation_fold_pnl in Hfold. simpl. rewrite Hfold, toQ_Zero.
    fold md. ring. }
  split.
  - rewrite (pricedPnLSum_Permutation md _ _ Hperm), pricedPnLSum_revalued.
    exact Hpnl.
  - rewrite (pricedCostSum_Permutation md _ _ Hperm), Htotal, Hpnl, Hcash.
    rewrite (valuedSum_pnlSum md entries). ring.
Qed.

Lemma valuation_pass_pnl_witness :
  let e := UpdateMarketData "AAPL" aaplTick engineHoldingAAPL in
  let p' := portfolio (updatePortfolio e) in
  let positions' := map_to_list (Portfolio.Positions p') in
  (toQ (Portfolio.UnrealizedPnL p') == pricedPnLSum (marketData e) positions')%Q /\
  (toQ (Portfolio.TotalValue p') - toQ (Portfolio.UnrealizedPnL p')
     == toQ (Portfolio.Cash p') + pricedCostSum (marketData e) positions')%Q.
Proof.
  apply (valuation_pass_pnl
           (map_to_list (Portfolio.Positions
              (portfolio (UpdateMarketData "AAPL" aaplTick engineHoldingAAPL))))).
  unfold enumerates. reflexivity.
Defined.

Lemma revalued_idempotent md symbol position :
  revalued md symbol (revalued md symbol position) = revalued md symbol position.
Proof. unfold revalued. destruct (md !! symbol); reflexivity. Qed.

Lemma valuedSum_revalued md entries :
  (valuedSum md
     ((fun entry => (fst entry, revalued md (fst entry) (snd entry))) <$> entries)
   == valuedSum md entries)%Q.
Proof.
  set (pass := fun entry : string * Position.t =>
                 (fst entry, revalued md (fst entry) (snd entry))).
  induction entries as [|[symbol position] entries IH].
  - reflexivity.
  - rewrite fmap_cons. unfold pass at 1. cbn [fst snd].
    rewrite !valuedSum_cons.
    unfold revalued. destruct (md !! symbol) as [data|]; now rewrite IH.
Qed.

Lemma pnlSum_Permutation md entries entries' :
  entries ≡ₚ entries' -> (pnlSum md entries == pnlSum md entries')%Q.
Proof.
  induction 1 as [|x l l' _ IH|x y l|l l' l'' _ IH1 _ IH2]; simpl.
  - reflexivity.
  - destruct (md !! x.1); now rewrite IH.
  - destruct (md !! x.1), (md !! y.1); ring.
  - now rewrite IH1.
Qed.

Lemma pnlSum_revalued md entries :
  (pnlSum md
     ((fun entry => (fst entry, revalued md (fst entry) (snd entry))) <$> entries)
   == pnlSum md entries)%Q.
Proof.
  set (pass := fun entry : string * Position.t =>
                 (fst entry, revalued md (fst entry) (snd entry))).
  induction entries as [|[symbol position] entries IH].
  - reflexivity.
  - rewrite fmap_cons. unfold pass at 1. cbn [fst snd].
    rewrite !pnlSum_cons.
    unfold revalued. destruct (md !! symbol) as [data|]; now rewrite IH.
Qed.

(** X14. A valuation pass repeated without a new tick changes nothing more:
    the second pass leaves the positions as the first left them, and the
    total value, the unrealized P&L and the cash keep their amounts,
    whatever the order either pass visits the positions in. *)
Theorem valuation_pass_idempotent (entries entries' : list (string * Position.t))
    (e : TradingEngine) :
  enumerates entries (Portfolio.Positions (portfolio e)) ->
  enumerates entries'
    (Portfolio.Positions (portfolio (updatePortfolio_over entries e))) ->
  let p1 := portfolio (updatePortfolio_over entries e) in
  let p2 := portfolio (updatePortfolio_over entries' (updatePortfolio_over entries e)) in
  Portfolio.Positions p2 = Portfolio.Positions p1 /\
  (toQ (Portfolio.TotalValue p2) == toQ (Portfolio.TotalValue p1))%Q /\
  (toQ (Portfolio.UnrealizedPnL p2) == toQ (Portfolio.UnrealizedPnL p1))%Q /\
  Portfolio.Cash p2 = Portfolio.Cash p1.
Proof.
  intros Henum Henum' p1 p2.
  pose proof (updatePortfolio_over_entries entries e Henum) as Hperm.
  destruct (updatePortfolio_over_spec entries e Henum)
    as (Hlookup & Htotal & Hcash & Hmd).
  destruct (updatePortfolio_over_spec entries' _ Henum')
    as (Hlookup' & Htotal' & Hcash' & _).
  set (e1 := updatePortfolio_over entries e) in *.
  assert (entries' ≡ₚ (fun entry => (fst entry, revalued (marketData e) (fst entry)
                                                  (snd entry))) <$> entries)
    as Hentries by (unfold enumerates in Henum'; now rewrite Henum').
  split; [|split; [|split]].
  - apply map_eq. intros symbol. unfold p2, p1. rewrite Hlookup', Hmd, Hlookup.
    destruct (Portfolio.Positions (portfolio e) !! symbol); simpl; [|reflexivity].
    now rewrite revalued_idempotent.
  - unfold p2, p1. rewrite Htotal', Hmd, Hcash, Htotal.
    rewrite (valuedSum_Permutation _ _ _ Hentries), valuedSum_revalued. reflexivity.
  - assert (forall es e0 , (toQ (Portfolio.UnrealizedPnL
                                 (portfolio (updatePortfolio_over es e0)))
                          == pnlSum (marketData e0) es)%Q) as Hpnl.
    { intros es e0. unfold updatePortfolio_over.
      destruct (fold_left _ _ _) as [[totalValue unrealizedPnL] positions] eqn:Hfold.
      apply valuation_fold_pnl in Hfold. simpl. rewrite Hfold, toQ_Zero. ring. }
    unfold p2, p1. rewrite (Hpnl entries' e1), Hmd.
    rewrite (pnlSum_Permutation _ _ _ Hentries), pnlSum_revalued.
    unfold e1. now rewrite (Hpnl entries e).
  - unfold p2, p1. now rewrite Hcash'.
Qed.

Lemma valuation_pass_idempotent_witness :
  let e := UpdateMarketData "AAPL" aaplTick engineHoldingAAPL in
  let p1 := portfolio (updatePortfolio e) in
  let p2 := portfolio (updatePortfolio (updatePortfolio e)) in
  Portfolio.Positions p2 = Portfolio.Positions p1 /\
  (toQ (Portfolio.TotalValue p2) == toQ (Portfolio.TotalValue p1))%Q /\
  (toQ (Portfolio.UnrealizedPnL p2) == toQ (Portfolio.UnrealizedPnL p1))%Q /\
  Portfolio.Cash p2 = Portfolio.Cash p1.
Proof.
  apply (valuation_pass_idempotent
           (map_to_list (Portfolio.Positions
              (portfolio (UpdateMarketData "AAPL" aaplTick engineHoldingAAPL))))
           (map_to_list (Portfolio.Positions
              (portfolio (updatePortfolio
                            (UpdateMarketData "AAPL" aaplTick engineHoldingAAPL))))));
    unfold enumerates; reflexivity.
Defined.

(** ** The moving-average crossover strategy *)

Lemma toQ_Abs d : (toQ (Abs d) == Qabs (toQ d))%Q.
Proof.
  unfold toQ.
  change (value (Abs d)) with (Z.abs (value d)). change (exp (Abs d)) with (exp d).
  rewrite Qabs_Qmult, (Qabs_pos (pow10 (exp d))) by (apply Qlt_le_weak, pow10_pos).
  reflexivity.
Qed.

Lemma toQ_Abs_nonneg d : (0 <= toQ (Abs d))%Q.
Proof. rewrite toQ_Abs. apply Qabs_nonneg. Qed.

Lemma pow10_16 : (pow10 (-16) == 1 # 10000000000000000)%Q.
Proof. reflexivity. Qed.

(** A decimal of sixteen places that lies above minus half a unit of the
    last place is not negative. *)
Lemma toQ_nonneg_places d :
  exp d = -16 -> (- ((1 # 2) * pow10 (-16)) <= toQ d)%Q -> 0 <= value d.
Proof.
  unfold toQ. intros -> Hd.
  destruct (Z_lt_le_dec (value d) 0) as [Hneg|]; [exfalso|assumption].
  assert (inject_Z (value d) <= inject_Z (-1))%Q as Hle by (rewrite <- Zle_Qle; lia).
  apply (Qmult_le_compat_r _ _ (pow10 (-16))) in Hle;
    [|apply Qlt_le_weak, pow10_pos].
  pose proof (pow10_pos (-16)) as Hpos.
  set (X := (inject_Z (value d) * pow10 (-16))%Q) in *.
  change (inject_Z (-1)) with (- (1))%Q in Hle. lra.
Qed.

Lemma toQ_value_nonneg d : 0 <= value d -> (0 <= toQ d)%Q.
Proof.
  intros Hv. unfold toQ. apply Qmult_le_0_compat.
  - change 0%Q with (inject_Z 0). now rewrite <- Zle_Qle.
  - apply Qlt_le_weak, pow10_pos.
Qed.

(** A quotient of a non-negative by a positive decimal is not negative
    after rounding. *)
Lemma Div_nonneg d d2 q :
  Div d d2 = Some q -> (0 <= toQ d)%Q -> (0 < toQ d2)%Q -> 0 <= value q.
Proof.
  intros Hdiv Hd Hd2.
  pose proof (Div_error _ _ _ Hdiv) as Herr.
  apply Div_spec in Hdiv as (Hexp & _).
  apply toQ_nonneg_places; [assumption|].
  assert (0 <= toQ d / toQ d2)%Q as Hratio.
  { apply Qle_shift_div_l; [assumption|]. lra. }
  apply Qabs_Qle_condition in Herr as [Hlow _]. lra.
Qed.

(** [IntPart] of a non-negative decimal of sixteen places does not exceed
    it, wrap-around included. *)
Lemma IntPart_le d :
  exp d = -16 -> 0 <= value d -> (inject_Z (IntPart d) <= toQ d)%Q.
Proof.
  intros Hexp Hv. unfold IntPart, rescale. rewrite Hexp. simpl.
  set (T := Z.quot (value d) 10000000000000000).
  assert (0 <= T /\ T * 10000000000000000 <= value d) as [HT0 HT].
  { unfold T. rewrite Z.quot_div_nonneg by lia. split.
    - apply Z.div_pos; lia.
    - rewrite Z.mul_comm. apply Z.mul_div_le. lia. }
  assert (wrap64 T <= T) as Hwrap.
  { unfold wrap64.
    pose proof (Z.mod_le (T + 2 ^ 63) (2 ^ 64)). lia. }
  apply Qle_trans with (inject_Z T); [now rewrite <- Zle_Qle|].
  unfold toQ. rewrite Hexp, pow10_16.
  rewrite Zle_Qle, inject_Z_mult in HT.
  change (inject_Z 10000000000000000) with (10000000000000000 # 1)%Q in HT.
  set (V := inject_Z (value d)) in *. set (TQ := inject_Z T) in *. lra.
Qed.

Lemma toQ_sum_prices trades acc :
  (toQ (fold_left Add (Trade.Price <$> trades) acc) == toQ acc + priceSum trades)%Q.
Proof.
  revert acc. induction trades as [|trade trades IH]; intros acc; simpl.
  - ring.
  - rewrite IH, toQ_Add. ring.
Qed.

(** X15. [calculateSMA] over a positive period: with fewer trades of the
    symbol than the period it returns zero; otherwise it returns, without
    panicking, the mean of the prices of the last [period] trades of the
    symbol, rounded to sixteen places. *)
Theorem calculateSMA_mean (symbol : string) (period : Z) (p : Portfolio.t) :
  0 < period ->
  let symbolTrades := getTradesForSymbol symbol (Portfolio.TradeHistory p) in
  (Z.of_nat (length symbolTrades) < period ->
     MovingAverageStrategy.calculateSMA symbol period p = Some Zero) /\
  (forall older recent,
      symbolTrades = older ++ recent ->
      Z.of_nat (length recent) = period ->
      exists sma,
        MovingAverageStrategy.calculateSMA symbol period p = Some sma /\
        (Qabs (toQ sma - priceSum recent / inject_Z period)
           <= (1 # 2) * pow10 (-16))%Q).
Proof.
  intros Hperiod symbolTrades.
  pose proof (length_filter (fun trade => Trade.Symbol trade = symbol)
                            (Portfolio.TradeHistory p)) as Hlen.
  fold (getTradesForSymbol symbol (Portfolio.TradeHistory p)) in Hlen.
  fold symbolTrades in Hlen.
  unfold MovingAverageStrategy.calculateSMA. fold symbolTrades. split.
  - intros Hfew.
    destruct (_ <? period) eqn:Hall; [reflexivity|].
    destruct (Z.of_nat (length symbolTrades) <? period) eqn:Hsym; [reflexivity|].
    apply Z.ltb_ge in Hsym. lia.
  - intros older recent Hsplit Hrecent.
    assert (length symbolTrades = (length older + length recent)%nat) as Hsum
      by (rewrite Hsplit; apply length_app).
    destruct (_ <? period) eqn:Hall; [apply Z.ltb_lt in Hall; lia|].
    destruct (Z.of_nat (length symbolTrades) <? period) eqn:Hsym;
      [apply Z.ltb_lt in Hsym; lia|].
    replace (Z.to_nat (Z.of_nat (length symbolTrades) - period)) with (length older)
      by lia.
    rewrite Hsplit, drop_app_length, length_fmap, Hrecent.
    destruct (Div_is_Some (fold_left Add (Trade.Price <$> recent) Zero)
                          (NewFromInt period)) as [sma Hdiv].
    { apply IsZero_NewFromInt. lia. }
    exists sma. split; [exact Hdiv|].
    pose proof (Div_error _ _ _ Hdiv) as Herr.
    rewrite toQ_sum_prices, toQ_Zero, toQ_NewFromInt, Qplus_0_l in Herr.
    exact Herr.
Qed.

Lemma calculateSMA_mean_witness :
  exists sma,
    MovingAverageStrategy.calculateSMA "AAPL" 3 testPortfolioWithHistory = Some sma /\
    (Qabs (toQ sma
           - priceSum (Portfolio.TradeHistory testPortfolioWithHistory) / inject_Z 3)
       <= (1 # 2) * pow10 (-16))%Q.
Proof.
  apply (proj2 (calculateSMA_mean "AAPL" 3 testPortfolioWithHistory eq_refl)
               [] (Portfolio.TradeHistory testPortfolioWithHistory)).
  - vm_compute. reflexivity.
  - reflexivity.
Defined.

Lemma toQ_one : (toQ (New 1 0) == 1)%Q.
Proof. reflexivity. Qed.

Lemma toQ_two : (toQ (New 2 0) == 2)%Q.
Proof. reflexivity. Qed.

Lemma calculateConfidence_bounds shortMA longMA currentPrice signalMA confidence :
  MovingAverageStrategy.calculateConfidence shortMA longMA currentPrice signalMA
    = Some confidence ->
  (0 <= toQ confidence <= 1)%Q.
Proof.
  unfold MovingAverageStrategy.calculateConfidence.
  destruct (Div (Sub shortMA longMA) longMA) as [maRatio|]; simpl; [|discriminate].
  destruct (Div (Sub currentPrice signalMA) signalMA) as [priceRatio|]; simpl;
    [|discriminate].
  destruct (Div (Add (Abs maRatio) (Abs priceRatio)) (New 2 0)) as [half|] eqn:Hhalf;
    simpl; [|discriminate].
  destruct (GreaterThan half (New 1 0)) eqn:Hcap; intros [= <-].
  - rewrite toQ_one. split; lra.
  - apply GreaterThan_false in Hcap. rewrite toQ_one in Hcap. split; [|exact Hcap].
    apply toQ_value_nonneg. apply (Div_nonneg _ _ _ Hhalf).
    + rewrite toQ_Add.
      pose proof (toQ_Abs_nonneg maRatio). pose proof (toQ_Abs_nonneg priceRatio). lra.
    + rewrite toQ_two. lra.
Qed.

(** X16. [calculateConfidence] panics exactly when the long or the signal
    average it divides by is zero; every confidence it returns lies between
    0 and 1. *)
Theorem calculateConfidence_range (shortMA longMA currentPrice signalMA : Decimal) :
  (MovingAverageStrategy.calculateConfidence shortMA longMA currentPrice signalMA = None
   <-> IsZero longMA = true \/ IsZero signalMA = true) /\
  (IsZero longMA = false /\ IsZero signalMA = false <->
   exists confidence,
     MovingAverageStrategy.calculateConfidence shortMA longMA currentPrice signalMA
       = Some confidence /\
     (0 <= toQ confidence <= 1)%Q).
Proof.
  assert (MovingAverageStrategy.calculateConfidence shortMA longMA currentPrice signalMA
            = None
          <-> IsZero longMA = true \/ IsZero signalMA = true) as Hpanic.
  { unfold MovingAverageStrategy.calculateConfidence.
    destruct (Div (Sub shortMA longMA) longMA) as [maRatio|] eqn:Hma; simpl.
    - assert (IsZero longMA = false) as Hlong.
      { destruct (IsZero longMA) eqn:Hz; [|reflexivity].
        apply (Div_None (Sub shortMA longMA)) in Hz. congruence. }
      destruct (Div (Sub currentPrice signalMA) signalMA) as [priceRatio|] eqn:Hprice;
        simpl.
      + assert (IsZero signalMA = false) as Hsignal.
        { destruct (IsZero signalMA) eqn:Hz; [|reflexivity].
          apply (Div_None (Sub currentPrice signalMA)) in Hz. congruence. }
        destruct (Div_is_Some (Add (Abs maRatio) (Abs priceRatio)) (New 2 0))
          as [half ->]; [reflexivity|]. simpl.
        destruct (GreaterThan half (New 1 0));
          (split; [discriminate | intros [H|H]; congruence]).
      + apply Div_None in Hprice. split; [now right | reflexivity].
    - apply Div_None in Hma. split; [now left | reflexivity]. }
  split; [exact Hpanic|]. split.
  - intros [Hlong Hsignal].
    destruct (MovingAverageStrategy.calculateConfidence shortMA longMA currentPrice
                                                        signalMA)
      as [confidence|] eqn:Hconfidence.
    + exists confidence. split; [reflexivity|].
      exact (calculateConfidence_bounds _ _ _ _ _ Hconfidence).
    + destruct (proj1 Hpanic eq_refl) as [H|H]; congruence.
  - intros (confidence & Hconfidence & _).
    destruct (IsZero longMA) eqn:Hlong.
    + assert (MovingAverageStrategy.calculateConfidence shortMA longMA currentPrice
                                                        signalMA = None)
        by (apply Hpanic; now left). congruence.
    + destruct (IsZero signalMA) eqn:Hsignal; [|split; reflexivity].
      assert (MovingAverageStrategy.calculateConfidence shortMA longMA currentPrice
                                                        signalMA = None)
        by (apply Hpanic; now right). congruence.
Qed.

Lemma Div_upper d d2 q :
  Div d d2 = Some q -> (0 < toQ d2)%Q ->
  (toQ q * toQ d2 <= toQ d + (1 # 2) * pow10 (-16) * toQ d2)%Q.
Proof.
  intros Hdiv Hd2. apply Div_error in Hdiv.
  apply Qabs_Qle_condition in Hdiv as [_ Hup].
  apply (Qmult_le_compat_r _ _ (toQ d2)) in Hup; [|now apply Qlt_le_weak].
  assert ((toQ q - toQ d / toQ d2) * toQ d2 == toQ q * toQ d2 - toQ d)%Q as Heq
    by (field; lra).
  rewrite Heq in Hup. lra.
Qed.

(** What [IntPart] of a quotient by a positive price is worth at most. *)
Lemma IntPart_quotient amount price ratio quantity :
  Div amount price = Some ratio ->
  (0 <= toQ amount)%Q -> (0 < toQ price)%Q ->
  quantity <= IntPart ratio ->
  (toQ price * inject_Z quantity
     <= toQ amount + (1 # 2) * pow10 (-16) * toQ price)%Q.
Proof.
  intros Hdiv Hamount Hprice Hq.
  pose proof (Div_nonneg _ _ _ Hdiv Hamount Hprice) as Hvalue.
  pose proof (Div_upper _ _ _ Hdiv Hprice) as Hup.
  apply Div_spec in Hdiv as (Hexp & _).
  pose proof (IntPart_le ratio Hexp Hvalue) as Hint.
  rewrite Zle_Qle in Hq.
  assert (inject_Z quantity * toQ price <= toQ ratio * toQ price)%Q as Hle.
  { apply Qmult_le_compat_r; [|now apply Qlt_le_weak].
    now apply Qle_trans with (inject_Z (IntPart ratio)). }
  rewrite (Qmult_comm (toQ price)).
  set (X := (inject_Z quantity * toQ price)%Q) in *.
  set (Y := (toQ ratio * toQ price)%Q) in *. lra.
Qed.



(** The ways [decide_action] can settle on an action. *)
Lemma decide_action_cases s shortMA longMA signalMA currentPrice held p
    action quantity confidence :
  MovingAverageStrategy.decide_action s shortMA longMA signalMA currentPrice held p
    = Some (action, quantity, confidence) ->
  (action = ""%string) \/
  (action = "buy"%string /\
   MovingAverageStrategy.generateSignal shortMA longMA signalMA currentPrice
     = "strong_buy"%string /\
   match held with Some position => Position.Quantity position <= 0 | None => True end /\
   MovingAverageStrategy.calculateOptimalQuantity s currentPrice p = Some quantity /\
   MovingAverageStrategy.calculateConfidence shortMA longMA currentPrice signalMA
     = Some confidence) \/
  (action = "sell"%string /\
   MovingAverageStrategy.generateSignal shortMA longMA signalMA currentPrice
     = "strong_sell"%string /\
   (exists position, held = Some position /\ Position.Quantity position = quantity) /\
   0 < quantity /\
   MovingAverageStrategy.calculateConfidence longMA shortMA signalMA currentPrice
     = Some confidence).
Proof.
  unfold MovingAverageStrategy.decide_action, MovingAverageStrategy.generateSignal.
  destruct (GreaterThan shortMA longMA && GreaterThan currentPrice signalMA) eqn:Hup.
  - destruct held as [position|].
    + destruct (Position.Quantity position <=? 0) eqn:Hflat.
      * destruct (MovingAverageStrategy.calculateOptimalQuantity s currentPrice p)
          as [q|]; simpl; [|discriminate].
        destruct (MovingAverageStrategy.calculateConfidence _ _ _ _) as [c|]; simpl;
          [|discriminate].
        intros [= <- <- <-]. right. left. apply Z.leb_le in Hflat.
        repeat split; try reflexivity. exact Hflat.
      * intros [= <- <- <-]. now left.
    + destruct (MovingAverageStrategy.calculateOptimalQuantity s currentPrice p)
        as [q|]; simpl; [|discriminate].
      destruct (MovingAverageStrategy.calculateConfidence _ _ _ _) as [c|]; simpl;
        [|discriminate].
      intros [= <- <- <-]. right. left. repeat split; reflexivity.
  - destruct (LessThan shortMA longMA && LessThan currentPrice signalMA) eqn:Hdown.
    + destruct held as [position|]; [|intros [= <- <- <-]; now left].
      destruct (0 <? Position.Quantity position) eqn:Hlong;
        [|intros [= <- <- <-]; now left].
      destruct (MovingAverageStrategy.calculateConfidence _ _ _ _) as [c|]; simpl;
        [|discriminate].
      intros [= <- <- <-]. right. right. apply Z.ltb_lt in Hlong.
      repeat split; try reflexivity; [|exact Hlong].
      exists position. split; reflexivity.
    + intros [= <- <- <-]. now left.
Qed.

(** What a signal [analyzeSymbol] returns looks like. *)
Lemma analyzeSymbol_cases float_sqrt s symbol data p result confidence err :
  MovingAverageStrategy.analyzeSymbol float_sqrt s symbol data p
    = Some (Some result, confidence, err) ->
  err = None /\
  confidence = AlgorithmResult.Confidence result /\
  AlgorithmResult.Symbol result = symbol /\
  AlgorithmResult.Price result = MarketData.Price data /\
  AlgorithmResult.StrategyID result
    = StrategyConfig.ID (MovingAverageStrategy.GetConfig s) /\
  0 < AlgorithmResult.Quantity result /\
  (0 <= toQ confidence <= 1)%Q /\
  ((AlgorithmResult.Action result = "buy"%string /\
    AlgorithmResult.Signal result = "strong_buy"%string /\
    heldQuantity symbol p <= 0 /\
    MovingAverageStrategy.calculateOptimalQuantity s (MarketData.Price data) p
      = Some (AlgorithmResult.Quantity result)) \/
   (AlgorithmResult.Action result = "sell"%string /\
    AlgorithmResult.Signal result = "strong_sell"%string /\
    (exists position, Portfolio.Positions p !! symbol = Some position) /\
    AlgorithmResult.Quantity result = heldQuantity symbol p)).
Proof.
  unfold MovingAverageStrategy.analyzeSymbol.
  destruct (MovingAverageStrategy.calculateSMA symbol (MovingAverageStrategy.shortPeriod s) p)
    as [shortMA|]; cbn [mbind option_bind]; [|discriminate].
  destruct (MovingAverageStrategy.calculateSMA symbol (MovingAverageStrategy.longPeriod s) p)
    as [longMA|]; cbn [mbind option_bind]; [|discriminate].
  destruct (MovingAverageStrategy.calculateSMA symbol (MovingAverageStrategy.signalPeriod s) p)
    as [signalMA|]; cbn [mbind option_bind]; [|discriminate].
  destruct (IsZero shortMA || IsZero longMA || IsZero signalMA); [discriminate|].
  destruct (MovingAverageStrategy.decide_action _ _ _ _ _ _ _)
    as [[[action quantity] conf]|] eqn:Hdecision; cbn [mbind option_bind]; [|discriminate].
  destruct (String.eqb action "" || (quantity <=? 0)) eqn:Hgate; [discriminate|].
  apply orb_false_elim in Hgate as [Haction Hquantity].
  apply String.eqb_neq in Haction. apply Z.leb_gt in Hquantity.
  destruct (MovingAverageStrategy.calculatePositionRisk _ _ _ _ _ _)
    as [[riskError|riskMetrics]|]; cbn [mbind option_bind]; try discriminate.
  destruct (MovingAverageStrategy.calculateRiskScore _) as [riskScore|];
    cbn [mbind option_bind]; [|discriminate].
  destruct (MovingAverageStrategy.calculateExpectedReturn _ _ _) as [expected|];
    cbn [mbind option_bind]; [|discriminate].
  intros [= <- <- <-]. simpl.
  apply decide_action_cases in Hdecision
    as [->|[(-> & Hsignal & Hheld & Hoptimal & Hconfidence)
           |(-> & Hsignal & (position & Hheld & Hsame) & _ & Hconfidence)]];
    [contradiction| |];
    (split; [reflexivity|]; split; [reflexivity|]; split; [reflexivity|];
     split; [reflexivity|]; split; [reflexivity|]; split; [assumption|];
     split; [exact (calculateConfidence_bounds _ _ _ _ _ Hconfidence)|]).
  - left. split; [reflexivity|]. split; [assumption|]. split; [|assumption].
    unfold heldQuantity. destruct (Portfolio.Positions p !! symbol); [assumption | lia].
  - right. split; [reflexivity|]. split; [assumption|]. split.
    + exists position. exact Hheld.
    + unfold heldQuantity. rewrite Hheld. now symmetry.
Qed.

Lemma calculateSMA_few symbol period p :
  Z.of_nat (length (getTradesForSymbol symbol (Portfolio.TradeHistory p))) < period ->
  MovingAverageStrategy.calculateSMA symbol period p = Some Zero.
Proof.
  intros Hfew. unfold MovingAverageStrategy.calculateSMA.
  destruct (_ <? period); [reflexivity|].
  destruct (Z.of_nat (length (getTradesForSymbol _ _)) <? period) eqn:Hsym;
    [reflexivity|].
  apply Z.ltb_ge in Hsym. lia.
Qed.

Lemma calculateSMA_total symbol period p :
  0 < period ->
  exists sma, MovingAverageStrategy.calculateSMA symbol period p = Some sma.
Proof.
  intros Hperiod. unfold MovingAverageStrategy.calculateSMA.
  destruct (_ <? period); [now exists Zero|].
  destruct (Z.of_nat (length (getTradesForSymbol _ _)) <? period) eqn:Hsym;
    [now exists Zero|].
  apply Z.ltb_ge in Hsym. apply Div_is_Some, IsZero_NewFromInt.
  rewrite length_fmap, length_drop. lia.
Qed.

(** When [analyzeSymbol] returns no signal, the confidence is zero. *)
Lemma analyzeSymbol_no_signal float_sqrt s symbol data p confidence err :
  MovingAverageStrategy.analyzeSymbol float_sqrt s symbol data p
    = Some (None, confidence, err) ->
  confidence = Zero.
Proof.
  unfold MovingAverageStrategy.analyzeSymbol.
  destruct (MovingAverageStrategy.calculateSMA symbol (MovingAverageStrategy.shortPeriod s) p)
    as [shortMA|]; cbn [mbind option_bind]; [|discriminate].
  destruct (MovingAverageStrategy.calculateSMA symbol (MovingAverageStrategy.longPeriod s) p)
    as [longMA|]; cbn [mbind option_bind]; [|discriminate].
  destruct (MovingAverageStrategy.calculateSMA symbol (MovingAverageStrategy.signalPeriod s) p)
    as [signalMA|]; cbn [mbind option_bind]; [|discriminate].
  destruct (IsZero shortMA || IsZero longMA || IsZero signalMA);
    [now intros [= <- <-]|].
  destruct (MovingAverageStrategy.decide_action _ _ _ _ _ _ _)
    as [[[action quantity] conf]|]; cbn [mbind option_bind]; [|discriminate].
  destruct (String.eqb action "" || (quantity <=? 0)); [now intros [= <- <-]|].
  destruct (MovingAverageStrategy.calculatePositionRisk _ _ _ _ _ _)
    as [[riskError|riskMetrics]|]; cbn [mbind option_bind]; try discriminate.
  - now intros [= <- <-].
  - destruct (MovingAverageStrategy.calculateRiskScore _) as [riskScore|];
      cbn [mbind option_bind]; [|discriminate].
    destruct (MovingAverageStrategy.calculateExpectedReturn _ _ _) as [expected|];
      cbn [mbind option_bind]; discriminate.
Qed.

(** The loop of [Execute]: the confidence it ends with bounds every
    confidence analysed without error, and the signal it ends with is the
    one it started from or one whose confidence is that bound. *)
Lemma bestSignalLoop_spec float_sqrt s p entries :
  forall best0 max0 best,
    MovingAverageStrategy.bestSignalLoop float_sqrt s p entries best0 max0 = Some best ->
    (0 <= toQ max0)%Q ->
    exists maxConfidence,
      (toQ max0 <= toQ maxConfidence)%Q /\
      (forall symbol data signal confidence,
          (symbol, data) ∈ entries ->
          MovingAverageStrategy.analyzeSymbol float_sqrt s symbol data p
            = Some (signal, confidence, None) ->
          (toQ confidence <= toQ maxConfidence)%Q) /\
      ((best = best0 /\ maxConfidence = max0) \/
       (exists symbol data result,
           (symbol, data) ∈ entries /\
           MovingAverageStrategy.analyzeSymbol float_sqrt s symbol data p
             = Some (Some result, maxConfidence, None) /\
           best = Some result /\
           (toQ max0 < toQ maxConfidence)%Q)).
Proof.
  induction entries as [|[symbol0 data0] entries IH]; intros best0 max0 best Hloop Hmax.
  - injection Hloop as <-. exists max0. split; [lra|]. split.
    + intros symbol data signal confidence Hin. now apply not_elem_of_nil in Hin.
    + now left.
  - cbn [MovingAverageStrategy.bestSignalLoop] in Hloop.
    destruct (MovingAverageStrategy.analyzeSymbol float_sqrt s symbol0 data0 p)
      as [[[signal0 confidence0] err0]|] eqn:Hanalysis;
      cbn [mbind option_bind] in Hloop; [|discriminate].
    destruct err0 as [err0|].
    { destruct (IH _ _ _ Hloop Hmax) as (maxC & Hle & Hbound & Hbest).
      exists maxC. split; [exact Hle|]. split.
      - intros symbol data signal confidence [[= -> ->]|Hin]%elem_of_cons Hother.
        + congruence.
        + exact (Hbound _ _ _ _ Hin Hother).
      - destruct Hbest as [Hsame|(symbol & data & result & Hin & Hfound & Hrest)];
          [now left|].
        right. exists symbol, data, result. split; [now right | now split]. }
    destruct (GreaterThan confidence0 max0) eqn:Hbetter.
    + apply GreaterThan_toQ in Hbetter.
      destruct (IH _ _ _ Hloop) as (maxC & Hle & Hbound & Hbest); [lra|].
      exists maxC. split; [lra|]. split.
      * intros symbol data signal confidence [[= -> ->]|Hin]%elem_of_cons Hother.
        -- rewrite Hanalysis in Hother. injection Hother as <- <-. exact Hle.
        -- exact (Hbound _ _ _ _ Hin Hother).
      * right.
        destruct Hbest as [[-> ->]|(symbol & data & result & Hin & Hfound & -> & Hlt)].
        -- destruct signal0 as [result0|].
           ++ exists symbol0, data0, result0.
              split; [left|]. split; [exact Hanalysis|]. split; [reflexivity | exact Hbetter].
           ++ apply analyzeSymbol_no_signal in Hanalysis. subst confidence0.
              rewrite toQ_Zero in Hbetter. lra.
        -- exists symbol, data, result.
           split; [now right|]. split; [exact Hfound|]. split; [reflexivity | lra].
    + apply GreaterThan_false in Hbetter.
      destruct (IH _ _ _ Hloop Hmax) as (maxC & Hle & Hbound & Hbest).
      exists maxC. split; [exact Hle|]. split.
      * intros symbol data signal confidence [[= -> ->]|Hin]%elem_of_cons Hother.
        -- rewrite Hanalysis in Hother. injection Hother as <- <-. lra.
        -- exact (Hbound _ _ _ _ Hin Hother).
      * destruct Hbest as [Hsame|(symbol & data & result & Hin & Hfound & Hrest)];
          [now left|].
        right. exists symbol, data, result. split; [now right | now split].
Qed.

(** A signal [Execute] returns comes from one of the symbols analysed, and
    no symbol analysed without error has a higher confidence. *)
Lemma Execute_over_cases float_sqrt s entries p result :
  MovingAverageStrategy.Execute_over float_sqrt s entries p = Some (inr (Some result)) ->
  exists symbol data,
    (symbol, data) ∈ entries /\
    MovingAverageStrategy.analyzeSymbol float_sqrt s symbol data p
      = Some (Some result, AlgorithmResult.Confidence result, None) /\
    (0 < toQ (AlgorithmResult.Confidence result))%Q /\
    (forall symbol' data' signal confidence,
        (symbol', data') ∈ entries ->
        MovingAverageStrategy.analyzeSymbol float_sqrt s symbol' data' p
          = Some (signal, confidence, None) ->
        (toQ confidence <= toQ (AlgorithmResult.Confidence result))%Q).
Proof.
  unfold MovingAverageStrategy.Execute_over.
  destruct (negb _); [discriminate|].
  destruct (MovingAverageStrategy.bestSignalLoop _ _ _ _ _ _) as [best|] eqn:Hloop;
    cbn [mbind option_bind]; [|discriminate].
  intros [= ->].
  apply bestSignalLoop_spec in Hloop
    as (maxC & _ & Hbound & [[[=] _]|(symbol & data & r & Hin & Hfound & [= <-] & Hlt)]);
    [|rewrite toQ_Zero; lra].
  destruct (analyzeSymbol_cases _ _ _ _ _ _ _ _ Hfound) as (_ & -> & _).
  rewrite toQ_Zero in Hlt.
  exists symbol, data. split; [exact Hin|]. split; [exact Hfound|].
  split; [exact Hlt | exact Hbound].
Qed.

(** X18. A signal [Execute] returns is for one of the symbols of the market
    data, at that symbol's price and in the strategy's name, with a
    quantity above zero and a confidence above 0 and at most 1. It is a buy
    marked strong_buy of the optimal quantity for a symbol the portfolio
    holds none of, or a sell marked strong_sell of the whole holding: the
    weak signals are never returned. *)
Theorem Execute_signal_shape (float_sqrt : Decimal -> Decimal)
    (s : MovingAverageStrategy.t) (entries : list (string * MarketData.t))
    (p : Portfolio.t) (result : AlgorithmResult.t) :
  MovingAverageStrategy.Execute_over float_sqrt s entries p = Some (inr (Some result)) ->
  (exists data,
      (AlgorithmResult.Symbol result, data) ∈ entries /\
      AlgorithmResult.Price result = MarketData.Price data) /\
  AlgorithmResult.StrategyID result
    = StrategyConfig.ID (MovingAverageStrategy.GetConfig s) /\
  0 < AlgorithmResult.Quantity result /\
  (0 < toQ (AlgorithmResult.Confidence result) <= 1)%Q /\
  ((AlgorithmResult.Action result = "buy"%string /\
    AlgorithmResult.Signal result = "strong_buy"%string /\
    heldQuantity (AlgorithmResult.Symbol result) p <= 0 /\
    MovingAverageStrategy.calculateOptimalQuantity s (AlgorithmResult.Price result) p
      = Some (AlgorithmResult.Quantity result)) \/
   (AlgorithmResult.Action result = "sell"%string /\
    AlgorithmResult.Signal result = "strong_sell"%string /\
    AlgorithmResult.Quantity result = heldQuantity (AlgorithmResult.Symbol result) p)).
Proof.
  intros Hexecute.
  apply Execute_over_cases in Hexecute as (symbol & data & Hin & Hfound & Hpositive & _).
  apply analyzeSymbol_cases in Hfound
    as (_ & _ & Hsymbol & Hprice & Hid & Hquantity & [_ Hcap] & Hshape).
  subst symbol. rewrite Hprice.
  split; [exists data; split; [exact Hin | reflexivity]|].
  split; [exact Hid|]. split; [exact Hquantity|]. split; [split; assumption|].
  destruct Hshape as [(Haction & Hsignal & Hheld & Hoptimal)
                     |(Haction & Hsignal & _ & Hwhole)].
  - left. repeat split; assumption.
  - right. repeat split; assumption.
Qed.

(** The strategy of [main.go] on the rising market: a buy of 83 units, the
    most the maximum order size allows at 120. *)
Lemma rising_signal :
  exists result,
    MovingAverageStrategy.Execute_over (fun v => v) movingAvgStrategy
      [("AAPL"%string, risingTick)] risingPortfolio = Some (inr (Some result)) /\
    MovingAverageStrategy.Execute (fun v => v) movingAvgStrategy risingPortfolio
      {[ "AAPL"%string := risingTick ]} = Some (inr (Some result)) /\
    AlgorithmResult.Symbol result = "AAPL"%string /\
    AlgorithmResult.Action result = "buy"%string /\
    AlgorithmResult.Quantity result = 83 /\
    AlgorithmResult.Price result = New 120 0 /\
    AlgorithmResult.Signal result = "strong_buy"%string.
Proof.
  destruct (MovingAverageStrategy.Execute_over (fun v => v) movingAvgStrategy
              [("AAPL"%string, risingTick)] risingPortfolio)
    as [[err|[result|]]|] eqn:Hexecute; try (vm_compute in Hexecute; discriminate).
  exists result. split; [reflexivity|].
  vm_compute in Hexecute. injection Hexecute as <-.
  split; [vm_compute; reflexivity|]. repeat split; reflexivity.
Qed.

Lemma Execute_signal_shape_witness :
  exists result,
    MovingAverageStrategy.Execute_over (fun v => v) movingAvgStrategy
      [("AAPL"%string, risingTick)] risingPortfolio = Some (inr (Some result)) /\
    AlgorithmResult.Quantity result = 83 /\
    (0 < toQ (AlgorithmResult.Confidence result) <= 1)%Q /\
    ((AlgorithmResult.Action result = "buy"%string /\
      AlgorithmResult.Signal result = "strong_buy"%string /\
      heldQuantity (AlgorithmResult.Symbol result) risingPortfolio <= 0 /\
      MovingAverageStrategy.calculateOptimalQuantity
        movingAvgStrategy (AlgorithmResult.Price result) risingPortfolio
        = Some (AlgorithmResult.Quantity result)) \/
     (AlgorithmResult.Action result = "sell"%string /\
      AlgorithmResult.Signal result = "strong_sell"%string /\
      AlgorithmResult.Quantity result
        = heldQuantity (AlgorithmResult.Symbol result) risingPortfolio)).
Proof.
  destruct rising_signal as (result & Hexecute & _ & _ & _ & Hquantity & _).
  exists result. split; [exact Hexecute|]. split; [exact Hquantity|].
  exact (proj2 (proj2 (proj2 (Execute_signal_shape _ _ _ _ _ Hexecute)))).
Defined.

Lemma calculateOptimalQuantity_funds s price p quantity :
  (0 < toQ price)%Q ->
  (0 <= toQ (Portfolio.Cash p))%Q ->
  MovingAverageStrategy.calculateOptimalQuantity s price p = Some quantity ->
  0 < quantity ->
  (toQ price * inject_Z quantity <= toQ (Portfolio.Cash p))%Q.
Proof.
  intros Hprice Hcash. unfold MovingAverageStrategy.calculateOptimalQuantity.
  destruct (Div (Mul (Portfolio.Cash p) (New 95 (-2))) price) as [ratio|] eqn:Hratio;
    cbn [mbind option_bind]; [|discriminate].
  destruct (IntPart ratio <=? 0); [intros [= <-]; lia|].
  destruct (Div (StrategyConfig.MaxOrderSize _) price) as [ratioBySize|];
    cbn [mbind option_bind]; [|discriminate].
  intros [= Heq] Hquantity.
  assert (quantity <= IntPart ratio) as Hq.
  { rewrite <- Heq. destruct (IntPart ratio >? IntPart ratioBySize) eqn:Hgt; [|lia].
    apply Z.gtb_lt in Hgt. lia. }
  assert (0 <= toQ (Mul (Portfolio.Cash p) (New 95 (-2))))%Q as Havailable.
  { rewrite toQ_Mul. apply Qmult_le_0_compat; [assumption|]. now vm_compute. }
  pose proof (IntPart_quotient _ _ _ _ Hratio Havailable Hprice Hq) as Hfunds.
  rewrite toQ_Mul, pow10_16 in Hfunds.
  assert (toQ (New 95 (-2)) == 95 # 100)%Q as H95 by reflexivity.
  rewrite H95 in Hfunds.
  assert (toQ price * 1 <= toQ price * inject_Z quantity)%Q as Hone.
  { apply Qmult_le_l; [assumption|].
    change 1%Q with (inject_Z 1). rewrite <- Zle_Qle. lia. }
  set (X := (toQ price * inject_Z quantity)%Q) in *. lra.
Qed.

(** X19. The order [createOrderFromResult] makes of a signal [Execute]
    returned has the side the signal names and, validated against the
    portfolio the signal was computed on, is not turned down for its
    quantity, for lack of funds or for lack of position, provided the price
    is positive and the cash not negative: [ValidateOrder] accepts it or
    objects to the size of the order alone. *)
Theorem crossover_order_validation (float_sqrt : Decimal -> Decimal)
    (s : MovingAverageStrategy.t) (entries : list (string * MarketData.t))
    (p : Portfolio.t) (result : AlgorithmResult.t) (orderID : string)
    (e : TradingEngine) :
  MovingAverageStrategy.Execute_over float_sqrt s entries p = Some (inr (Some result)) ->
  (0 < toQ (AlgorithmResult.Price result))%Q ->
  (0 <= toQ (Portfolio.Cash p))%Q ->
  let order := orderOf orderID result in
  let verdict :=
    BaseStrategy.ValidateOrder (MovingAverageStrategy.GetConfig s) order p in
  orderQueue (createOrderFromResult orderID result e) = orderQueue e ++ [order] /\
  Order.Side order = AlgorithmResult.Action result /\
  (verdict = None \/ verdict = Some ErrOrderTooSmall \/ verdict = Some ErrOrderTooLarge).
Proof.
  intros Hexecute Hprice Hcash order verdict.
  split; [reflexivity|].
  apply Execute_over_cases in Hexecute as (symbol & data & _ & Hfound & _).
  apply analyzeSymbol_cases in Hfound
    as (_ & _ & Hsymbol & Hdata & _ & Hquantity & _ & Hshape).
  unfold verdict, BaseStrategy.ValidateOrder, BaseStrategy.ValidateOrder_body,
    mthen, read_order, read_portfolio.
  cbn [fst snd]. unfold order, orderOf.
  cbn [Order.Quantity Order.Price Order.Side Order.Symbol].
  destruct (AlgorithmResult.Quantity result <=? 0) eqn:Hq;
    [apply Z.leb_le in Hq; lia|].
  destruct Hshape as [(Haction & _ & _ & Hoptimal)
                     |(Haction & _ & (position & Hheld) & Hwhole)];
    rewrite Haction; cbn [String.eqb Ascii.eqb Bool.eqb]; (split; [reflexivity|]);
    destruct (LessThan _ (StrategyConfig.MinOrderSize _)); cbn [mreturn fst];
    try (right; left; reflexivity);
    destruct (GreaterThan _ (StrategyConfig.MaxOrderSize _)); cbn [mreturn fst];
    try (right; right; reflexivity).
  - rewrite <- Hdata in Hoptimal.
    pose proof (calculateOptimalQuantity_funds _ _ _ _ Hprice Hcash Hoptimal Hquantity)
      as Hfunds.
    assert (LessThan (Portfolio.Cash p)
              (Mul (AlgorithmResult.Price result)
                   (NewFromInt (AlgorithmResult.Quantity result))) = false) as ->.
    { apply LessThan_false. rewrite toQ_Mul, toQ_NewFromInt. exact Hfunds. }
    left. reflexivity.
  - subst symbol. rewrite Hheld. unfold heldQuantity in Hwhole. rewrite Hheld in Hwhole.
    rewrite Hwhole, Z.ltb_irrefl. left. reflexivity.
Qed.

Lemma crossover_order_validation_witness :
  exists result,
    MovingAverageStrategy.Execute_over (fun v => v) movingAvgStrategy
      [("AAPL"%string, risingTick)] risingPortfolio = Some (inr (Some result)) /\
    let order := orderOf "ORD-1" result in
    let verdict :=
      BaseStrategy.ValidateOrder (MovingAverageStrategy.GetConfig movingAvgStrategy)
                                 order risingPortfolio in
    orderQueue (createOrderFromResult "ORD-1" result freshEngine)
      = orderQueue freshEngine ++ [order] /\
    Order.Side order = AlgorithmResult.Action result /\
    (verdict = None \/ verdict = Some ErrOrderTooSmall \/
     verdict = Some ErrOrderTooLarge).
Proof.
  destruct rising_signal as (result & Hexecute & _ & _ & _ & _ & Hprice & _).
  exists result. split; [exact Hexecute|].
  assert (0 < toQ (AlgorithmResult.Price result))%Q as Hpositive
    by (rewrite Hprice; reflexivity).
  assert (0 <= toQ (Portfolio.Cash risingPortfolio))%Q as Hcash by discriminate.
  exact (crossover_order_validation _ _ _ _ _ "ORD-1" freshEngine Hexecute
                                    Hpositive Hcash).
Defined.

Lemma analyzeSymbol_short_history float_sqrt config symbol data p :
  (length (getTradesForSymbol symbol (Portfolio.TradeHistory p)) < 30)%nat ->
  MovingAverageStrategy.analyzeSymbol
    float_sqrt (MovingAverageStrategy.NewMovingAverageStrategy config) symbol data p
    = Some (None, Zero, Some ErrInvalidMarketData).
Proof.
  intros Hfew. unfold MovingAverageStrategy.analyzeSymbol.
  cbn [MovingAverageStrategy.shortPeriod MovingAverageStrategy.longPeriod
       MovingAverageStrategy.signalPeriod
       MovingAverageStrategy.NewMovingAverageStrategy].
  destruct (calculateSMA_total symbol 10 p) as [shortMA ->]; [lia|].
  rewrite (calculateSMA_few symbol 30 p) by lia.
  destruct (calculateSMA_total symbol 9 p) as [signalMA ->]; [lia|].
  cbn [mbind option_bind].
  replace (IsZero Zero) with true by reflexivity.
  rewrite orb_true_r. reflexivity.
Qed.

Lemma bestSignalLoop_short_history float_sqrt config p entries best0 max0 :
  (forall symbol data,
      (symbol, data) ∈ entries ->
      (length (getTradesForSymbol symbol (Portfolio.TradeHistory p)) < 30)%nat) ->
  MovingAverageStrategy.bestSignalLoop
    float_sqrt (MovingAverageStrategy.NewMovingAverageStrategy config) p entries
    best0 max0 = Some best0.
Proof.
  induction entries as [|[symbol data] entries IH]; intros Hfew; [reflexivity|].
  cbn [MovingAverageStrategy.bestSignalLoop].
  rewrite analyzeSymbol_short_history by (apply (Hfew symbol data); left).
  cbn [mbind option_bind]. apply IH.
  intros symbol' data' Hin. apply (Hfew symbol' data'). now right.
Qed.

(** X20. The strategy [NewMovingAverageStrategy] builds returns no signal,
    no error and no panic as long as every symbol of the market data has
    fewer than thirty trades in the trade history of the portfolio: the
    long average is then zero and the symbol is passed over. *)
Theorem Execute_needs_thirty_trades (float_sqrt : Decimal -> Decimal)
    (config : StrategyConfig.t) (entries : list (string * MarketData.t))
    (p : Portfolio.t) :
  StrategyConfig.Enabled config = true ->
  (forall symbol data,
      (symbol, data) ∈ entries ->
      (length (getTradesForSymbol symbol (Portfolio.TradeHistory p)) < 30)%nat) ->
  MovingAverageStrategy.Execute_over
    float_sqrt (MovingAverageStrategy.NewMovingAverageStrategy config) entries p
    = Some (inr None).
Proof.
  intros Henabled Hfew. unfold MovingAverageStrategy.Execute_over.
  cbn [MovingAverageStrategy.GetConfig MovingAverageStrategy.BaseStrategy
       MovingAverageStrategy.NewMovingAverageStrategy].
  rewrite Henabled. cbn [negb].
  now rewrite bestSignalLoop_short_history.
Qed.

Lemma Execute_needs_thirty_trades_witness :
  MovingAverageStrategy.Execute_over
    (fun v => v) (MovingAverageStrategy.NewMovingAverageStrategy movingAvgConfig)
    (map_to_list testMarketData) testPortfolioWithHistory
    = Some (inr None).
Proof.
  apply (Execute_needs_thirty_trades (fun v => v) movingAvgConfig
           (map_to_list testMarketData) testPortfolioWithHistory); [reflexivity|].
  intros symbol data _.
  pose proof (length_filter (fun trade => Trade.Symbol trade = symbol)
                            (Portfolio.TradeHistory testPortfolioWithHistory)) as Hlen.
  unfold getTradesForSymbol. simpl in *. lia.
Defined.

(** X21. [Execute] returns the most confident signal: the signal returned
    is the analysis of one of the symbols of the market data, and no symbol
    analysed without error has a higher confidence; when it returns no
    signal, no symbol analysed without error has a confidence above zero. *)
Theorem Execute_returns_most_confident (float_sqrt : Decimal -> Decimal)
    (s : MovingAverageStrategy.t) (entries : list (string * MarketData.t))
    (p : Portfolio.t) (best : option AlgorithmResult.t) :
  MovingAverageStrategy.Execute_over float_sqrt s entries p = Some (inr best) ->
  match best with
  | Some result =>
      (exists symbol data,
          (symbol, data) ∈ entries /\
          MovingAverageStrategy.analyzeSymbol float_sqrt s symbol data p
            = Some (Some result, AlgorithmResult.Confidence result, None)) /\
      (forall symbol data signal confidence,
          (symbol, data) ∈ entries ->
          MovingAverageStrategy.analyzeSymbol float_sqrt s symbol data p
            = Some (signal, confidence, None) ->
          (toQ confidence <= toQ (AlgorithmResult.Confidence result))%Q)
  | None =>
      forall symbol data signal confidence,
        (symbol, data) ∈ entries ->
        MovingAverageStrategy.analyzeSymbol float_sqrt s symbol data p
          = Some (signal, confidence, None) ->
        (toQ confidence <= 0)%Q
  end.
Proof.
  intros Hexecute. destruct best as [result|].
  - apply Execute_over_cases in Hexecute
      as (symbol & data & Hin & Hfound & _ & Hbound).
    split; [|exact Hbound]. exists symbol, data. split; assumption.
  - unfold MovingAverageStrategy.Execute_over in Hexecute.
    destruct (negb _); [discriminate|].
    destruct (MovingAverageStrategy.bestSignalLoop _ _ _ _ _ _) as [best|] eqn:Hloop;
      cbn [mbind option_bind] in Hexecute; [|discriminate].
    injection Hexecute as ->.
    apply bestSignalLoop_spec in Hloop
      as (maxC & _ & Hbound & [[_ ->]|(symbol & data & r & _ & _ & [=] & _)]);
      [|rewrite toQ_Zero; lra].
    intros symbol data signal confidence Hin Hfound.
    rewrite <- toQ_Zero. exact (Hbound _ _ _ _ Hin Hfound).
Qed.

Lemma Execute_returns_most_confident_witness :
  exists result,
    MovingAverageStrategy.Execute_over (fun v => v) movingAvgStrategy
      [("AAPL"%string, risingTick)] risingPortfolio = Some (inr (Some result)) /\
    (exists symbol data,
        (symbol, data) ∈ [("AAPL"%string, risingTick)] /\
        MovingAverageStrategy.analyzeSymbol (fun v => v) movingAvgStrategy symbol data
                                            risingPortfolio
          = Some (Some result, AlgorithmResult.Confidence result, None)) /\
    (forall symbol data signal confidence,
        (symbol, data) ∈ [("AAPL"%string, risingTick)] ->
        MovingAverageStrategy.analyzeSymbol (fun v => v) movingAvgStrategy symbol data
                                            risingPortfolio
          = Some (signal, confidence, None) ->
        (toQ confidence <= toQ (AlgorithmResult.Confidence result))%Q).
Proof.
  destruct rising_signal as (result & Hexecute & _).
  exists result. split; [exact Hexecute|].
  exact (Execute_returns_most_confident _ _ _ _ (Some result) Hexecute).
Defined.

(** ** A turn of the strategy executor *)

Lemma createOrderFromResult_step orderID result e :
  running e = true -> step e (createOrderFromResult orderID result e).
Proof. intros Hrunning. now apply step_strategyExecutor. Qed.

Lemma executeLoop_spec Execute generateOrderID registered p md :
  forall n e e',
    executeLoop Execute generateOrderID registered p md n e = Some e' ->
    running e = true ->
    rtc step e e' /\
    portfolio e' = portfolio e /\ strategies e' = strategies e /\
    marketData e' = marketData e /\ tradeQueue e' = tradeQueue e /\
    running e' = running e /\
    exists orders,
      orderQueue e' = orderQueue e ++ orders /\
      (length orders <= length (filter (fun strategy => IsEnabled strategy = true)
                                       registered))%nat /\
      Forall (fun order => Order.Status order = OrderStatusPending /\
                           Order.Type_ order = OrderTypeMarket) orders.
Proof.
  induction registered as [|strategy registered IH]; intros n e e' Hloop Hrunning.
  - injection Hloop as <-. split; [apply rtc_refl|]. repeat split.
    exists []. split; [now rewrite app_nil_r|]. split; [reflexivity | constructor].
  - cbn [executeLoop] in Hloop.
    destruct (IsEnabled strategy) eqn:Henabled; cbn [negb] in Hloop.
    + rewrite filter_cons_True by assumption.
      destruct (Execute strategy p md) as [[err|[result|]]|];
        cbn [mbind option_bind] in Hloop; [| | |discriminate].
      * destruct (IH _ _ _ Hloop Hrunning)
          as (Hrun & Hp & Hs & Hm & Ht & Hr & orders & Hq & Hlen & Hall).
        split; [exact Hrun|]. repeat (split; [assumption|]).
        exists orders. repeat split; [assumption | simpl; lia | assumption].
      * destruct (IH _ _ _ Hloop)
          as (Hrun & Hp & Hs & Hm & Ht & Hr & orders & Hq & Hlen & Hall);
          [exact Hrunning|].
        split.
        { eapply rtc_l; [apply createOrderFromResult_step; exact Hrunning | exact Hrun]. }
        repeat (split; [assumption|]).
        exists (orderOf (generateOrderID n) result :: orders).
        split; [|split].
        -- rewrite Hq. unfold createOrderFromResult. simpl.
           rewrite <- app_assoc. reflexivity.
        -- simpl. lia.
        -- constructor; [split; reflexivity | assumption].
      * destruct (IH _ _ _ Hloop Hrunning)
          as (Hrun & Hp & Hs & Hm & Ht & Hr & orders & Hq & Hlen & Hall).
        split; [exact Hrun|]. repeat (split; [assumption|]).
        exists orders. repeat split; [assumption | simpl; lia | assumption].
    + rewrite filter_cons_False by (rewrite Henabled; discriminate).
      exact (IH _ _ _ Hloop Hrunning).
Qed.

(** X22. A turn of the strategy executor leaves the portfolio, the market
    data, the registered strategies and the trade queue as they are; it
    appends to the order queue at most one order per enabled strategy, each
    a pending market order, and the engine it ends in is one the run
    relation reaches from the engine it started in. *)
Theorem executeStrategies_only_queues_orders
    (Execute : Strategy -> Portfolio.t -> gmap string MarketData.t ->
               option (Error + option AlgorithmResult.t))
    (generateOrderID : nat -> string) (registered : list Strategy)
    (e e' : TradingEngine) :
  executeStrategies_over Execute generateOrderID registered e = Some e' ->
  running e = true ->
  rtc step e e' /\
  portfolio e' = portfolio e /\ strategies e' = strategies e /\
  marketData e' = marketData e /\ tradeQueue e' = tradeQueue e /\
  running e' = running e /\
  exists orders,
    orderQueue e' = orderQueue e ++ orders /\
    (length orders <= length (filter (fun strategy => IsEnabled strategy = true)
                                     registered))%nat /\
    Forall (fun order => Order.Status order = OrderStatusPending /\
                         Order.Type_ order = OrderTypeMarket) orders.
Proof. unfold executeStrategies_over. apply executeLoop_spec. Qed.

(** An engine that is running on the rising market. *)
Lemma rising_turn :
  let e := mkEngine risingPortfolio ∅ {[ "AAPL"%string := risingTick ]} [] [] true in
  exists result,
    executeStrategies_over (crossoverExecute (fun v => v)) (fun _ => "ORD-1"%string)
                           [baseStrategy] e
      = Some (createOrderFromResult "ORD-1" result e) /\
    AlgorithmResult.Quantity result = 83.
Proof.
  intros e.
  destruct rising_signal as (result & _ & Hexecute & _ & _ & Hquantity & _).
  exists result. split; [|exact Hquantity].
  unfold executeStrategies_over. cbn [executeLoop].
  replace (IsEnabled baseStrategy) with true by reflexivity. cbn [negb].
  replace (crossoverExecute (fun v => v) baseStrategy (portfolio e) (marketData e))
    with (Some (inr (Some result)) : option (Error + option AlgorithmResult.t))
    by (symmetry; exact Hexecute).
  reflexivity.
Qed.

Lemma executeStrategies_only_queues_orders_witness :
  let e := mkEngine risingPortfolio ∅ {[ "AAPL"%string := risingTick ]} [] [] true in
  exists e',
    executeStrategies_over (crossoverExecute (fun v => v)) (fun _ => "ORD-1"%string)
                           [baseStrategy] e = Some e' /\
    rtc step e e' /\
    portfolio e' = portfolio e /\ strategies e' = strategies e /\
    marketData e' = marketData e /\ tradeQueue e' = tradeQueue e /\
    running e' = running e /\
    exists orders,
      orderQueue e' = orderQueue e ++ orders /\
      (length orders <= length (filter (fun strategy => IsEnabled strategy = true)
                                       [baseStrategy]))%nat /\
      Forall (fun order => Order.Status order = OrderStatusPending /\
                           Order.Type_ order = OrderTypeMarket) orders.
Proof.
  intros e. destruct rising_turn as (result & Hturn & _). fold e in Hturn.
  exists (createOrderFromResult "ORD-1" result e). split; [exact Hturn|].
  exact (executeStrategies_only_queues_orders _ _ _ _ _ Hturn eq_refl).
Defined.

(** ** An engine of moving-average strategies *)

Lemma executeLoop_silent Execute generateOrderID registered p md :
  (forall strategy,
      (exists err, Execute strategy p md = Some (inl err)) \/
      Execute strategy p md = Some (inr None)) ->
  forall n e, executeLoop Execute generateOrderID registered p md n e = Some e.
Proof.
  intros Hsilent. induction registered as [|strategy registered IH]; intros n e;
    [reflexivity|].
  cbn [executeLoop]. destruct (negb (IsEnabled strategy)); [apply IH|].
  destruct (Hsilent strategy) as [[err ->]| ->]; cbn [mbind option_bind]; apply IH.
Qed.

Lemma crossover_silent float_sqrt Execute p :
  crossover_dispatch float_sqrt Execute ->
  Portfolio.TradeHistory p = [] ->
  forall md strategy,
    (exists err, Execute strategy p md = Some (inl err)) \/
    Execute strategy p md = Some (inr None).
Proof.
  intros Hdispatch Hhistory md strategy.
  destruct (Hdispatch strategy p md) as (entries & _ & ->).
  unfold MovingAverageStrategy.Execute_over.
  destruct (negb _); [left; eexists; reflexivity|]. right.
  rewrite bestSignalLoop_short_history; [reflexivity|].
  intros symbol data _. rewrite Hhistory. simpl. lia.
Qed.

(** X23. An engine whose strategies are all moving-average strategies, as
    the one [main.go] sets up, never trades: in every state it reaches
    from [NewTradingEngine] the portfolio is the one it was created with
    and the order queue and the trade queue are empty. The strategy asks
    for thirty recorded trades of a symbol before it signals, and the trade
    history only grows by the fills of its own signals. *)
Theorem crossover_engine_never_trades (float_sqrt : Decimal -> Decimal)
    (Execute : Strategy -> Portfolio.t -> gmap string MarketData.t ->
               option (Error + option AlgorithmResult.t))
    (portfolioID : string) (cash : Decimal) (e : TradingEngine) :
  crossover_dispatch float_sqrt Execute ->
  rtc (turn Execute) (NewTradingEngine portfolioID cash) e ->
  portfolio e = portfolio (NewTradingEngine portfolioID cash) /\
  orderQueue e = [] /\
  tradeQueue e = [].
Proof.
  intros Hdispatch Hrun. revert e Hrun.
  apply (rtc_ind_r (fun e => portfolio e = portfolio (NewTradingEngine portfolioID cash) /\
                             orderQueue e = [] /\ tradeQueue e = [])).
  - repeat split.
  - intros e e' _ Hturn (Hp & Hq & Ht).
    destruct Hturn as [strategy e|strategyID e|symbol data e|e e' Hstart|e
                      |generateOrderID registered e e' _ _ Hexecute
                      |tradeID order rest order' e e' _ Hqueue _
                      |trade rest e _ Hqueue|entries e _ Henum
                      |entries warned e _ _ _];
      try (repeat split; assumption); try congruence.
    + unfold Start in Hstart. destruct (running e); [discriminate|].
      injection Hstart as <-. repeat split; assumption.
    + unfold Stop. destruct (negb (running e)); repeat split; assumption.
    + unfold executeStrategies_over in Hexecute.
      rewrite executeLoop_silent in Hexecute.
      * injection Hexecute as <-. repeat split; assumption.
      * apply (crossover_silent float_sqrt); [assumption|]. now rewrite Hp.
    + unfold enumerates in Henum. rewrite Hp in Henum. simpl in Henum.
      rewrite map_to_list_empty in Henum. apply Permutation_nil_r in Henum. subst entries.
      unfold updatePortfolio_over. simpl. rewrite Hp. simpl. repeat split; assumption.
Qed.

Lemma crossoverExecute_dispatch float_sqrt :
  crossover_dispatch float_sqrt (crossoverExecute float_sqrt).
Proof.
  intros strategy p md. exists (map_to_list md). split; reflexivity.
Qed.

Lemma crossover_engine_never_trades_witness :
  exists e,
    rtc (turn (crossoverExecute (fun v => v))) (NewTradingEngine "PORT-1" initialCash) e /\
    running e = true /\
    marketData e !! "AAPL" = Some aaplTick /\
    portfolio e = portfolio (NewTradingEngine "PORT-1" initialCash) /\
    orderQueue e = [] /\
    tradeQueue e = [].
Proof.
  assert (rtc (turn (crossoverExecute (fun v => v)))
              (NewTradingEngine "PORT-1" initialCash)
              (UpdateMarketData "AAPL" aaplTick (startedEngine (fun v => v)))) as Hrun.
  { eapply rtc_l; [apply (turn_AddStrategy _ baseStrategy)|].
    eapply rtc_l; [apply (turn_Start _ _ (startedEngine (fun v => v))); reflexivity|].
    eapply rtc_l; [apply (turn_UpdateMarketData _ "AAPL" aaplTick)|].
    apply rtc_refl. }
  exists (UpdateMarketData "AAPL" aaplTick (startedEngine (fun v => v))).
  split; [exact Hrun|]. split; [reflexivity|].
  split; [apply lookup_insert_eq|].
  exact (crossover_engine_never_trades (fun v => v) _ "PORT-1" initialCash _
           (crossoverExecute_dispatch (fun v => v)) Hrun).
Defined.

(** ** The market simulator *)


Lemma LessThanOrEqual_false d d2 : LessThanOrEqual d d2 = false <-> (toQ d2 < toQ d)%Q.
Proof.
  unfold LessThanOrEqual. rewrite Cmp_toQ, (Qgt_alt (toQ d) (toQ d2)).
  destruct (toQ d ?= toQ d2)%Q; split; congruence.
Qed.

(** What the two clamps of the simulator leave: a value within the limit. *)
Lemma clamp_within (d limit negated : Decimal) (bound : Q) :
  (toQ limit == bound)%Q -> (toQ negated == - bound)%Q -> (0 <= bound)%Q ->
  (Qabs (toQ (if GreaterThan (Abs d) limit
              then if IsPositive d then limit else negated
              else d)) <= bound)%Q.
Proof.
  intros Hlimit Hnegated Hbound.
  destruct (GreaterThan (Abs d) limit) eqn:Hover.
  - destruct (IsPositive d).
    + rewrite Hlimit, Qabs_pos by assumption. lra.
    + rewrite Hnegated, Qabs_opp, Qabs_pos by assumption. lra.
  - apply GreaterThan_false in Hover. now rewrite toQ_Abs, Hlimit in Hover.
Qed.


(** X24. Whatever a price tick of the simulator returns is a sane quote:
    the price is above zero (a price that would fall to zero or below is
    replaced by 0.01), it lies between the low and the high the tick
    reports, the open is the price of before, the close is the new price,
    and the high and the low of the record only widen. *)
Theorem priceTick_quote (symbol : string) (randomFactor : Decimal)
    (data data' : MarketSimulator.SymbolData) (tick : MarketData.t) :
  MarketSimulator.priceTick symbol randomFactor data = Some (data', tick) ->
  (0 < toQ (MarketData.Price tick))%Q /\
  (toQ (MarketData.Low tick) <= toQ (MarketData.Price tick)
     <= toQ (MarketData.High tick))%Q /\
  MarketData.Open tick = MarketSimulator.CurrentPrice data /\
  MarketData.Close tick = MarketData.Price tick /\
  MarketData.Symbol tick = symbol /\
  MarketSimulator.CurrentPrice data' = MarketData.Price tick /\
  (toQ (MarketSimulator.High data) <= toQ (MarketSimulator.High data'))%Q /\
  (toQ (MarketSimulator.Low data') <= toQ (MarketSimulator.Low data))%Q.
Proof.
  unfold MarketSimulator.priceTick.
  destruct (MarketSimulator.calculatePriceChange randomFactor data) as [priceChange|];
    cbn [mbind option_bind]; [|discriminate].
  intros [= <- <-].
  cbn [MarketData.Price MarketData.Low MarketData.High MarketData.Open
       MarketData.Close MarketData.Symbol MarketSimulator.CurrentPrice
       MarketSimulator.High MarketSimulator.Low MarketSimulator.Open
       MarketSimulator.Close].
  set (raw := Add (MarketSimulator.CurrentPrice data) priceChange).
  set (newPrice := if LessThanOrEqual raw Zero then New 1 (-2) else raw).
  assert (0 < toQ newPrice)%Q as Hpositive.
  { unfold newPrice. destruct (LessThanOrEqual raw Zero) eqn:Hfloor; [reflexivity|].
    apply LessThanOrEqual_false in Hfloor. now rewrite toQ_Zero in Hfloor. }
  split; [exact Hpositive|].
  destruct (GreaterThan newPrice (MarketSimulator.High data)) eqn:Hhigh;
    destruct (LessThan newPrice (MarketSimulator.Low data)) eqn:Hlow;
    try apply GreaterThan_toQ in Hhigh; try apply GreaterThan_false in Hhigh;
    try apply LessThan_toQ in Hlow; try apply LessThan_false in Hlow;
    repeat split; try reflexivity; lra.
Qed.

Lemma priceTick_quote_witness :
  exists data' tick,
    MarketSimulator.priceTick "AAPL" (New (-15) (-1)) aaplSymbolData
      = Some (data', tick) /\
    (0 < toQ (MarketData.Price tick))%Q /\
    (toQ (MarketData.Low tick) <= toQ (MarketData.Price tick)
       <= toQ (MarketData.High tick))%Q /\
    MarketData.Open tick = MarketSimulator.CurrentPrice aaplSymbolData /\
    MarketData.Close tick = MarketData.Price tick /\
    MarketData.Symbol tick = "AAPL"%string /\
    MarketSimulator.CurrentPrice data' = MarketData.Price tick /\
    (toQ (MarketSimulator.High aaplSymbolData) <= toQ (MarketSimulator.High data'))%Q /\
    (toQ (MarketSimulator.Low data') <= toQ (MarketSimulator.Low aaplSymbolData))%Q.
Proof.
  destruct (MarketSimulator.priceTick "AAPL" (New (-15) (-1)) aaplSymbolData)
    as [[data' tick]|] eqn:Htick; [|vm_compute in Htick; discriminate].
  exists data', tick. split; [reflexivity|].
  exact (priceTick_quote _ _ _ _ _ Htick).
Defined.




(** X27. After a trend tick the trend of a symbol is at most 0.05 in
    absolute value, and after a volume tick its volume is an [int64] of at
    least 10,000, whatever was drawn and whatever the record held. *)
Theorem tick_clamps (trendChange : Decimal) (volumeChange : Z)
    (data : MarketSimulator.SymbolData) :
  (Qabs (toQ (MarketSimulator.Trend (MarketSimulator.trendTick trendChange data)))
     <= 5 # 100)%Q /\
  10000 <= MarketSimulator.Volume (MarketSimulator.volumeTick volumeChange data) /\
  in_int64 (MarketSimulator.Volume (MarketSimulator.volumeTick volumeChange data)).
Proof.
  split; [|split].
  - unfold MarketSimulator.trendTick. cbn [MarketSimulator.Trend].
    apply clamp_within; [reflexivity | reflexivity | lra].
  - unfold MarketSimulator.volumeTick. cbn [MarketSimulator.Volume].
    destruct (_ <? 10000) eqn:Hlow; [lia|]. now apply Z.ltb_ge in Hlow.
  - unfold MarketSimulator.volumeTick. cbn [MarketSimulator.Volume].
    destruct (_ <? 10000) eqn:Hlow; [|apply wrap64_range].
    unfold in_int64, min_int64, max_int64. lia.
Qed.

(** ** How far a validated buy can overdraw *)

Lemma ValidateOrder_accepts_buy config order p :
  Order.Side order = OrderSideBuy ->
  BaseStrategy.ValidateOrder config order p = None ->
  (toQ (notional order) <= toQ (StrategyConfig.MaxOrderSize config))%Q /\
  (toQ (notional order) <= toQ (Portfolio.Cash p))%Q.
Proof.
  intros Hside.
  unfold BaseStrategy.ValidateOrder, BaseStrategy.ValidateOrder_body, mthen,
    read_order, read_portfolio.
  cbn [fst snd]. fold (notional order). rewrite Hside.
  destruct (Order.Quantity order <=? 0); [discriminate|].
  destruct (LessThan (notional order) _); [discriminate|].
  destruct (GreaterThan (notional order) _) eqn:Hlarge; [discriminate|].
  cbn [String.eqb Ascii.eqb Bool.eqb OrderSideBuy].
  destruct (LessThan (Portfolio.Cash p) (notional order)) eqn:Hfunds; [discriminate|].
  intros _. apply GreaterThan_false in Hlarge. apply LessThan_false in Hfunds.
  split; assumption.
Qed.

(** X28. A buy that [ValidateOrder] accepted and that fills leaves the cash
    no lower than minus its commission, and so no lower than minus a
    thousandth of the maximum order size: the commission is the only part
    of the cost the funds check leaves out. *)
Theorem validated_buy_overdraft_bounded (config : StrategyConfig.t)
    (tradeID : string) (order : Order.t) (e e' : TradingEngine) :
  Order.Side order = OrderSideBuy ->
  BaseStrategy.ValidateOrder config order (portfolio e) = None ->
  executeOrder tradeID order e = Some e' ->
  (- (toQ (notional order) * (1 # 1000)) <= toQ (Portfolio.Cash (portfolio e')))%Q /\
  (- (toQ (StrategyConfig.MaxOrderSize config) * (1 # 1000))
     <= toQ (Portfolio.Cash (portfolio e')))%Q.
Proof.
  intros Hside Hvalid Hrun.
  destruct (ValidateOrder_accepts_buy _ _ _ Hside Hvalid) as [Hsize Hfunds].
  pose proof (executeOrder_buy_cash _ _ _ _ Hside Hrun) as Hcash.
  rewrite Hcash. split; lra.
Qed.

Lemma validated_buy_overdraft_bounded_witness :
  exists e',
    executeOrder "TRD-9" allCashBuy engineLowCash = Some e' /\
    (- (toQ (notional allCashBuy) * (1 # 1000)) <= toQ (Portfolio.Cash (portfolio e')))%Q /\
    (- (toQ (StrategyConfig.MaxOrderSize movingAvgConfig) * (1 # 1000))
       <= toQ (Portfolio.Cash (portfolio e')))%Q.
Proof.
  destruct (executeOrder "TRD-9" allCashBuy engineLowCash) as [e'|] eqn:Hrun;
    [|vm_compute in Hrun; discriminate].
  exists e'. split; [reflexivity|].
  exact (validated_buy_overdraft_bounded movingAvgConfig "TRD-9" allCashBuy
           engineLowCash e' eq_refl eq_refl Hrun).
Defined.

(** ** The tests of the strategy package, run on the embedding *)

(** [TestMovingAverageStrategy_Execute_Disabled] and
    [TestMovingAverageStrategy_Execute_NoMarketData]. *)
Example Execute_tests :
  let config enabled :=
    StrategyConfig.mk "test_ma" "Test Moving Average" Unset Unset Unset Unset Unset
                      Unset Unset 0 Unset Unset Unset Unset Unset 0 [] enabled in
  MovingAverageStrategy.Execute
    (fun v => v) (MovingAverageStrategy.NewMovingAverageStrategy (config false))
    testPortfolio testMarketData = Some (inl ErrStrategyDisabled) /\
  MovingAverageStrategy.Execute
    (fun v => v) (MovingAverageStrategy.NewMovingAverageStrategy (config true))
    testPortfolio ∅ = Some (inr None).
Proof. split; vm_compute; reflexivity. Qed.

(** [TestMovingAverageStrategy_CalculateSMA],
    [TestMovingAverageStrategy_CalculateSMA_InsufficientData] and
    [TestMovingAverageStrategy_CalculateOptimalQuantity]. *)
Example calculate_tests :
  (exists sma,
      MovingAverageStrategy.calculateSMA "AAPL" 3 testPortfolioWithHistory = Some sma /\
      IsZero sma = false /\ GreaterThan sma Zero = true /\
      sma = New 1523333333333333333 (-16)) /\
  (exists sma,
      MovingAverageStrategy.calculateSMA "AAPL" 10 testPortfolio = Some sma /\
      IsZero sma = true) /\
  MovingAverageStrategy.calculateOptimalQuantity movingAvgStrategy (New 15 1)
                                                 testPortfolio = Some 66.
Proof.
  split; [|split].
  - eexists. split; [vm_compute; reflexivity|]. repeat split.
  - eexists. split; [vm_compute; reflexivity|]. reflexivity.
  - vm_compute. reflexivity.
Qed.

(** The table of [TestMovingAverageStrategy_GenerateSignal]. *)
Example generateSignal_tests :
  MovingAverageStrategy.generateSignal (New 155 0) (New 15 1) (New 152 0) (New 157 0)
    = "strong_buy"%string /\
  MovingAverageStrategy.generateSignal (New 145 0) (New 15 1) (New 148 0) (New 143 0)
    = "strong_sell"%string /\
  MovingAverageStrategy.generateSignal (New 155 0) (New 15 1) (New 152 0) (New 149 0)
    = "weak_buy"%string /\
  MovingAverageStrategy.generateSignal (New 145 0) (New 15 1) (New 148 0) (New 151 0)
    = "weak_sell"%string.
Proof. repeat split. Qed.

(** The table of [TestMovingAverageStrategy_ValidateOrder]. *)
Example ValidateOrder_tests :
  let config :=
    StrategyConfig.mk "test_ma" "Test Moving Average" Unset Unset Unset Unset Unset
                      Unset Unset 0 (New 1 2) (New 1 4) Unset Unset Unset 0 [] true in
  let order quantity price :=
    Order.mk "" "AAPL" OrderSideBuy "" quantity price Unset "" "" RiskMetrics.empty in
  BaseStrategy.ValidateOrder config (order 10 (New 15 1)) testPortfolio = None /\
  BaseStrategy.ValidateOrder config (order 0 (New 15 1)) testPortfolio
    = Some ErrInvalidQuantity /\
  BaseStrategy.ValidateOrder config (order 1 (New 5 1)) testPortfolio
    = Some ErrOrderTooSmall /\
  BaseStrategy.ValidateOrder config (order 1000 (New 15 1)) testPortfolio
    = Some ErrOrderTooLarge.
Proof. repeat split. Qed.

(** The input of [TestMovingAverageStrategy_CalculateRisk]: an order of
    15,500 against a portfolio of 100,000 is a share of 0.155, within the
    position limit of 0.2 and above the portfolio limit of 0.15. *)
Example CalculateRisk_test_input :
  let config :=
    StrategyConfig.mk "test_ma" "Test Moving Average" (New 2 (-1)) (New 15 (-2)) Unset
                      Unset Unset Unset Unset 0 Unset Unset Unset Unset Unset 0 [] true in
  let order :=
    Order.mk "" "AAPL" "" "" 100 (New 155 0) Unset "" "" RiskMetrics.empty in
  forall float_sqrt,
    BaseStrategy.CalculateRisk float_sqrt config order testPortfolioWithHistory
      = Some (inl ErrPortfolioRiskExceeded).
Proof. intros config order float_sqrt. reflexivity. Qed.

(** ** When the strategy cannot panic *)









